(** * Gramps Web birthday pipeline: a shallow embedding of grampsweb_api.py

    The development has three layers.

    - [Py]: the fragment of the Python runtime the client relies on: JSON
      values as decoded by [response.json()], exceptions, truthiness,
      [dict.get], [len], subscripting, iteration, [int()], [str()] and the
      string methods [lower], [strip], [rstrip], [split].
    - [Datetime]: [datetime.date] (construction, [replace], ordering,
      subtraction through [toordinal], [isoformat]).
    - [Gramps]: the methods of class [GrampsWebAPI], one definition per
      method, written in the error monad of [Py] so that every
      [try ... except Exception] of the source is a [try_except] here.

    Around them: [GrampsInit] (the constructor), [Strptime] and
    [_parse_gramps_date] (the text date parser), [Transport]
    ([_authenticate] and [_get] with the token they keep), [Sensor] (the
    coordinator refresh and the sensor attributes) and [ConfigFlow] (the
    validation of the submitted URL).

    Conventions.  The JSON numbers of [value] are integers (the fields
    the client reads are indices and date components); the date parser,
    which converts whatever it finds with [int()], is also given over
    any element type with the conversion as a parameter
    ([parse_sequence]).  Text is a string of bytes, and [lower], [strip]
    and [int()] are those of ASCII text ([isascii]).  Logging has no
    effect on the results and is left out, except that the arguments of a
    logging call are evaluated, so an exception raised while computing
    them is kept.  An instance [GrampsWebAPI] carries one value of
    [date.today()] and one answer of the service per endpoint; the
    statements that compare the pre-filter with the main loop take one
    instance for each and say how their answers are related. *)

From Stdlib Require Import ZArith List String Ascii Bool Lia.
From Stdlib Require Import Sorted Permutation DecimalString.
Import ListNotations.
Local Open Scope list_scope.
Local Open Scope string_scope.
Local Open Scope Z_scope.

(* ================================================================== *)
(** * The Python fragment *)
(* ================================================================== *)

Module Py.

(** Exceptions, by class.  Every handler of the source is
    [except Exception], which catches all of them. *)
Inductive exn : Type :=
| AttributeError
| TypeError
| KeyError
| IndexError
| ValueError
| OverflowError
| RequestException.

Inductive result (A : Type) : Type :=
| Ok (a : A)
| Raise (e : exn).

Arguments Ok {A} a.
Arguments Raise {A} e.

Definition bind {A B : Type} (m : result A) (k : A -> result B) : result B :=
  match m with
  | Ok a => k a
  | Raise e => Raise e
  end.

Notation "x <- m ;; k" := (bind m (fun x => k))
  (at level 61, m at next level, right associativity).

(** [try: body except Exception: handler]. *)
Definition try_except {A : Type} (body : result A) (handler : exn -> A) : A :=
  match body with
  | Ok a => a
  | Raise e => handler e
  end.

(** A [for] loop whose body either returns from the enclosing function
    ([Some r]), goes on to the next element ([None]) or raises. *)
Fixpoint for_each {A R : Type} (body : A -> result (option R)) (xs : list A)
  : result (option R) :=
  match xs with
  | [] => Ok None
  | x :: rest =>
      r <- body x ;;
      match r with
      | Some v => Ok (Some v)
      | None => for_each body rest
      end
  end.

(** JSON values after decoding. *)
#[warnings="-register-all"]
Inductive value : Type :=
| VNone
| VBool (b : bool)
| VInt (n : Z)
| VStr (s : string)
| VList (items : list value)
| VDict (entries : list (string * value)).

(** ** Strings *)

Definition char_in (lo hi : nat) (c : ascii) : bool :=
  let n := nat_of_ascii c in (Nat.leb lo n && Nat.leb n hi)%bool.

(** [str.isspace] on ASCII. *)
Definition is_space (c : ascii) : bool :=
  (char_in 9 13 c || char_in 28 32 c)%bool.

Definition is_digit (c : ascii) : bool := char_in 48 57 c.

Definition lower_char (c : ascii) : ascii :=
  if char_in 65 90 c then ascii_of_nat (nat_of_ascii c + 32)%nat else c.

(** [s.isascii()] *)
Definition isascii (s : string) : bool :=
  forallb (fun c => Nat.ltb (nat_of_ascii c) 128) (list_ascii_of_string s).

(** [s.lower()] on ASCII text. *)
Fixpoint lower (s : string) : string :=
  match s with
  | EmptyString => EmptyString
  | String c t => String (lower_char c) (lower t)
  end.

Fixpoint lstrip_by (p : ascii -> bool) (s : string) : string :=
  match s with
  | EmptyString => EmptyString
  | String c t => if p c then lstrip_by p t else s
  end.

Fixpoint rstrip_by (p : ascii -> bool) (s : string) : string :=
  match s with
  | EmptyString => EmptyString
  | String c t =>
      match rstrip_by p t with
      | EmptyString => if p c then EmptyString else String c EmptyString
      | t' => String c t'
      end
  end.

(** [s.strip()] *)
Definition strip (s : string) : string :=
  lstrip_by is_space (rstrip_by is_space s).

(** [s.rstrip(c)] for a one-character argument. *)
Definition rstrip (c : ascii) (s : string) : string :=
  rstrip_by (Ascii.eqb c) s.

(** [s.split(sep)] for a one-character separator. *)
Fixpoint split (sep : ascii) (s : string) : list string :=
  match s with
  | EmptyString => [EmptyString]
  | String c t =>
      if Ascii.eqb c sep then EmptyString :: split sep t
      else match split sep t with
           | h :: r => String c h :: r
           | [] => [String c EmptyString]
           end
  end.

(** [needle in hay] on strings. *)
Fixpoint contains (needle hay : string) : bool :=
  (String.prefix needle hay ||
   match hay with
   | EmptyString => false
   | String _ t => contains needle t
   end)%bool.

Fixpoint join (sep : string) (parts : list string) : string :=
  match parts with
  | [] => EmptyString
  | [p] => p
  | p :: rest => p ++ sep ++ join sep rest
  end.

Definition string_of_Z (n : Z) : string :=
  NilZero.string_of_int (Z.to_int n).

(** ** [repr] and [str] *)

Definition quote1 : ascii := ascii_of_nat 39.
Definition quote2 : ascii := ascii_of_nat 34.
Definition backslash : ascii := ascii_of_nat 92.

Definition hex_digit (n : nat) : ascii :=
  nth n (list_ascii_of_string "0123456789abcdef") "0"%char.

Definition repr_char (q c : ascii) : string :=
  let n := nat_of_ascii c in
  if Ascii.eqb c backslash then String backslash (String backslash EmptyString)
  else if Ascii.eqb c q then String backslash (String q EmptyString)
  else if Nat.eqb n 9 then String backslash "t"
  else if Nat.eqb n 10 then String backslash "n"
  else if Nat.eqb n 13 then String backslash "r"
  else if (Nat.ltb n 32 || Nat.eqb n 127)%bool then
    String backslash
      (String "x" (String (hex_digit (n / 16)%nat)
                   (String (hex_digit (n mod 16)%nat) EmptyString)))
  else String c EmptyString.

Fixpoint repr_chars (q : ascii) (s : string) : string :=
  match s with
  | EmptyString => EmptyString
  | String c t => repr_char q c ++ repr_chars q t
  end.

Definition has_char (c : ascii) (s : string) : bool :=
  contains (String c EmptyString) s.

Definition repr_str (s : string) : string :=
  let q := if (has_char quote1 s && negb (has_char quote2 s))%bool
           then quote2 else quote1 in
  String q (repr_chars q s ++ String q EmptyString).

Fixpoint repr (v : value) : string :=
  match v with
  | VNone => "None"
  | VBool true => "True"
  | VBool false => "False"
  | VInt n => string_of_Z n
  | VStr s => repr_str s
  | VList items => "[" ++ join ", " (map repr items) ++ "]"
  | VDict entries =>
      "{" ++ join ", "
               (map (fun kv => match kv with
                               | (k, x) => repr_str k ++ ": " ++ repr x
                               end) entries)
          ++ "}"
  end.

(** [str(v)], also what an f-string does with [{v}]. *)
Definition str (v : value) : string :=
  match v with
  | VStr s => s
  | _ => repr v
  end.

(** ** Truth value, attribute access, containers *)

(** [bool(v)], the test of [if v:] and [not v]. *)
Definition truthy (v : value) : bool :=
  match v with
  | VNone => false
  | VBool b => b
  | VInt n => negb (n =? 0)
  | VStr s => negb (String.eqb s EmptyString)
  | VList items => match items with [] => false | _ => true end
  | VDict entries => match entries with [] => false | _ => true end
  end.

Fixpoint lookup (key : string) (entries : list (string * value)) : option value :=
  match entries with
  | [] => None
  | (k, x) :: rest => if String.eqb k key then Some x else lookup key rest
  end.

(** [v.get(key, default)]: only a dict has the method. *)
Definition get (v : value) (key : string) (default : value) : result value :=
  match v with
  | VDict entries =>
      Ok (match lookup key entries with Some x => x | None => default end)
  | _ => Raise AttributeError
  end.

(** [isinstance(v, dict)] and [isinstance(v, str)] *)
Definition is_dict (v : value) : bool :=
  match v with VDict _ => true | _ => false end.

Definition is_str (v : value) : bool :=
  match v with VStr _ => true | _ => false end.

(** The number a value stands for in an arithmetic comparison with an
    [int]; a [bool] is an [int], every other class raises. *)
Definition as_number (v : value) : result Z :=
  match v with
  | VInt n => Ok n
  | VBool b => Ok (if b then 1 else 0)
  | _ => Raise TypeError
  end.

(** [v == n] for an integer literal [n]; equality never raises. *)
Definition eq_int (v : value) (n : Z) : bool :=
  match v with
  | VInt m => m =? n
  | VBool b => (if b then 1 else 0) =? n
  | _ => false
  end.

Definition chars (s : string) : list value :=
  map (fun c => VStr (String c EmptyString)) (list_ascii_of_string s).

(** [len(v)] *)
Definition len (v : value) : result Z :=
  match v with
  | VStr s => Ok (Z.of_nat (String.length s))
  | VList items => Ok (Z.of_nat (List.length items))
  | VDict entries => Ok (Z.of_nat (List.length entries))
  | _ => Raise TypeError
  end.

Definition seq_item (xs : list value) (i : value) : result value :=
  match i with
  | VInt _ | VBool _ =>
      n <- as_number i ;;
      let k := if n <? 0 then n + Z.of_nat (List.length xs) else n in
      if k <? 0 then Raise IndexError
      else match nth_error xs (Z.to_nat k) with
           | Some x => Ok x
           | None => Raise IndexError
           end
  | _ => Raise TypeError
  end.

(** [v[i]] *)
Definition getitem (v i : value) : result value :=
  match v with
  | VList items => seq_item items i
  | VStr s => seq_item (chars s) i
  | VDict entries =>
      match i with
      | VStr k => match lookup k entries with
                  | Some x => Ok x
                  | None => Raise KeyError
                  end
      | VList _ | VDict _ => Raise TypeError
      | _ => Raise KeyError
      end
  | _ => Raise TypeError
  end.

(** The elements [for x in v] visits. *)
Definition iter (v : value) : result (list value) :=
  match v with
  | VList items => Ok items
  | VStr s => Ok (chars s)
  | VDict entries => Ok (map (fun kv => VStr (fst kv)) entries)
  | _ => Raise TypeError
  end.

(** [xs[:n]] on a list. *)
Definition slice_to {A : Type} (xs : list A) (n : Z) : list A :=
  let k := if n <? 0 then Z.max 0 (Z.of_nat (List.length xs) + n) else n in
  firstn (Z.to_nat k) xs.

(** ** [int()] *)

Definition digit_value (c : ascii) : Z := Z.of_nat (nat_of_ascii c - 48)%nat.

(** Digits with single underscores between them; [acc] is the value so
    far and [after_digit] tells whether the previous character was a
    digit. *)
Fixpoint int_digits (s : string) (acc : Z) (after_digit : bool) : option Z :=
  match s with
  | EmptyString => if after_digit then Some acc else None
  | String c t =>
      if is_digit c then int_digits t (10 * acc + digit_value c) true
      else if (Ascii.eqb c "_" && after_digit)%bool then
        match t with
        | String d _ => if is_digit d then int_digits t acc false else None
        | EmptyString => None
        end
      else None
  end.

(** The white space [int()] skips around the digits of an ASCII text:
    tab, line feed, vertical tab, form feed, carriage return, space. *)
Definition is_int_space (c : ascii) : bool :=
  (char_in 9 13 c || char_in 32 32 c)%bool.

Definition int_of_string (s : string) : option Z :=
  match lstrip_by is_int_space (rstrip_by is_int_space s) with
  | String "-" t => option_map Z.opp (int_digits t 0 false)
  | String "+" t => int_digits t 0 false
  | t => int_digits t 0 false
  end.

(** [int(v)] *)
Definition int (v : value) : result Z :=
  match v with
  | VInt n => Ok n
  | VBool b => Ok (if b then 1 else 0)
  | VStr s => match int_of_string s with
              | Some n => Ok n
              | None => Raise ValueError
              end
  | _ => Raise TypeError
  end.

End Py.

Import Py.

(* ================================================================== *)
(** * [datetime.date] *)
(* ================================================================== *)

Module Datetime.

(** A date object; the interpreter only ever builds one through
    [make], so the dates of a run satisfy [valid]. *)
Record date : Type := mkdate { year : Z; month : Z; day : Z }.

Definition MINYEAR : Z := 1.
Definition MAXYEAR : Z := 9999.

Definition is_leap (y : Z) : bool :=
  ((y mod 4 =? 0) && (negb (y mod 100 =? 0) || (y mod 400 =? 0)))%bool.

Definition DAYS_IN_MONTH : list Z :=
  [31; 28; 31; 30; 31; 30; 31; 31; 30; 31; 30; 31].

Definition DAYS_BEFORE_MONTH : list Z :=
  [0; 31; 59; 90; 120; 151; 181; 212; 243; 273; 304; 334].

Definition days_in_month (y m : Z) : Z :=
  if ((m =? 2) && is_leap y)%bool then 29
  else nth (Z.to_nat (m - 1)) DAYS_IN_MONTH 0.

(** The arguments of [date(...)] are converted to C integers first. *)
Definition fits_c_int (n : Z) : bool :=
  ((- 2147483648 <=? n) && (n <=? 2147483647))%bool.

(** [date(y, m, d)] *)
Definition make (y m d : Z) : result date :=
  if negb (fits_c_int y && fits_c_int m && fits_c_int d) then Raise OverflowError
  else if negb ((MINYEAR <=? y) && (y <=? MAXYEAR)) then Raise ValueError
  else if negb ((1 <=? m) && (m <=? 12)) then Raise ValueError
  else if negb ((1 <=? d) && (d <=? days_in_month y m)) then Raise ValueError
  else Ok (mkdate y m d).

Definition valid (d : date) : Prop := make (year d) (month d) (day d) = Ok d.

(** [d.replace(year=y)] *)
Definition replace_year (d : date) (y : Z) : result date :=
  make y (month d) (day d).

(** [a < b]: dates compare as the triples (year, month, day). *)
Definition lt (a b : date) : bool :=
  ((year a <? year b) ||
   ((year a =? year b) &&
    ((month a <? month b) ||
     ((month a =? month b) && (day a <? day b)))))%bool.

Definition days_before_year (y : Z) : Z :=
  let p := y - 1 in p * 365 + p / 4 - p / 100 + p / 400.

Definition days_before_month (y m : Z) : Z :=
  nth (Z.to_nat (m - 1)) DAYS_BEFORE_MONTH 0
  + (if ((2 <? m) && is_leap y)%bool then 1 else 0).

(** [d.toordinal()]: January 1 of year 1 is day 1. *)
Definition toordinal (d : date) : Z :=
  days_before_year (year d) + days_before_month (year d) (month d) + day d.

(** [(a - b).days] *)
Definition sub_days (a b : date) : Z := toordinal a - toordinal b.

Fixpoint zeros (n : nat) : string :=
  match n with
  | O => EmptyString
  | S k => String "0" (zeros k)
  end.

(** [%0<width>d] for a number that is not negative. *)
Definition zero_pad (width : nat) (n : Z) : string :=
  let s := string_of_Z n in zeros (width - String.length s) ++ s.

(** [d.isoformat()] *)
Definition isoformat (d : date) : string :=
  zero_pad 4 (year d) ++ "-" ++ zero_pad 2 (month d) ++ "-" ++ zero_pad 2 (day d).

End Datetime.

Import Datetime.

(* ================================================================== *)
(** * class GrampsWebAPI *)
(* ================================================================== *)

Module Gramps.

(** What the methods read from [self] and from the world: the configured
    surname filter (already stripped by [__init__]), the answer of the
    upstream service to a GET on each endpoint ([Raise] for a failed
    request), and the calendar date [date.today()] returns. *)
Record GrampsWebAPI : Type := {
  surname_filter : string;
  upstream : string -> result value;
  today : date
}.

(** The dict [_calculate_next_birthday] returns. *)
Record BirthdayResult : Type := {
  person_name : string;
  birth_date : string;
  next_birthday : string;
  age : Z;
  days_until : Z
}.

(** [_get]: the decoded body, or the exception of a failed request,
    which the method logs and raises again. *)
Definition _get (self : GrampsWebAPI) (endpoint : string) : result value :=
  upstream self endpoint.

(** [handle.rstrip("/").split("/")[-1]] *)
Definition last_segment (handle : string) : string :=
  last (split "/" (rstrip "/" handle)) EmptyString.

(** The loop over the keys in [_resolve_event_handle]: the first value
    that is true, or [None] when the loop ends without a [break]. *)
Fixpoint first_candidate (event_ref : value) (keys : list string) : result value :=
  match keys with
  | [] => Ok VNone
  | key :: rest =>
      candidate <- get event_ref key VNone ;;
      if truthy candidate then Ok candidate
      else first_candidate event_ref rest
  end.

Definition _resolve_event_handle (event_ref : value) : result (option string) :=
  if negb (truthy event_ref) then Ok None
  else
    handle <- first_candidate event_ref ["ref"; "handle"; "hlink"] ;;
    if (negb (truthy handle) || negb (is_str handle))%bool then Ok None
    else match handle with
         | VStr h =>
             if contains "/" h then Ok (Some (last_segment h))
             else Ok (Some h)
         | _ => Ok None
         end.

(** [vals[i]] on the list of converted entries. *)
Definition item (vals : list Z) (i : nat) : result Z :=
  match nth_error vals i with
  | Some x => Ok x
  | None => Raise IndexError
  end.

Definition combinations : list (nat * nat * nat) :=
  [(2, 1, 0); (0, 1, 2); (0, 2, 1)]%nat.

(** The loop over [combinations] in [_parse_dateval]. *)
Fixpoint try_combinations (vals : list Z) (combos : list (nat * nat * nat))
  : result (option date) :=
  match combos with
  | [] => Ok None
  | (y_idx, m_idx, d_idx) :: rest =>
      year <- item vals y_idx ;;
      month <- item vals m_idx ;;
      day <- item vals d_idx ;;
      if year <? 100 then try_combinations vals rest
      else if negb ((1 <=? month) && (month <=? 12) && (1 <=? day) && (day <=? 31))
      then try_combinations vals rest
      else d <- Datetime.make year month day ;; Ok (Some d)
  end.

(** [[int(v) for v in vals]] *)
Fixpoint ints (vals : list value) : result (list Z) :=
  match vals with
  | [] => Ok []
  | v :: rest => n <- int v ;; ns <- ints rest ;; Ok (n :: ns)
  end.

Definition _parse_dateval (dateval : value) : option date :=
  try_except
    (match dateval with
     | VList items =>
         let vals := slice_to items 3 in
         if Z.of_nat (List.length vals) <? 3 then Ok None
         else match ints vals with
              | Raise _ => Ok None
              | Ok vals => try_combinations vals combinations
              end
     | _ => Ok None
     end)
    (fun _ => None).

(** The list branch of [_parse_dateval] with the builtin [int] as a
    parameter [to_int], on elements of any type: the method reaches the
    elements of its argument through [int()] only, so this is what it
    does on a list of any Python objects, floats among them. *)
Section ParseSequence.

Context {A : Type} (to_int : A -> result Z).

(** [[int(v) for v in vals]] *)
Fixpoint convert_all (vals : list A) : result (list Z) :=
  match vals with
  | [] => Ok []
  | v :: rest => n <- to_int v ;; ns <- convert_all rest ;; Ok (n :: ns)
  end.

Definition parse_sequence (dateval : list A) : option date :=
  try_except
    (let vals := slice_to dateval 3 in
     if Z.of_nat (List.length vals) <? 3 then Ok None
     else match convert_all vals with
          | Raise _ => Ok None
          | Ok vals => try_combinations vals combinations
          end)
    (fun _ => None).

End ParseSequence.

(** [if event_handle:] on what [_resolve_event_handle] returned. *)
Definition handle_truthy (event_handle : option string) : bool :=
  match event_handle with
  | Some h => truthy (VStr h)
  | None => false
  end.

(** [s.lower()] where [s] may be any value: only a [str] has the method. *)
Definition lower_of (v : value) : result string :=
  match v with
  | VStr s => Ok (lower s)
  | _ => Raise AttributeError
  end.

(** [event_type.get("string", "") if isinstance(event_type, dict)
     else str(event_type)] *)
Definition type_string_of (event_type : value) : result value :=
  if is_dict event_type then get event_type "string" (VStr EmptyString)
  else Ok (VStr (str event_type)).

Definition _fetch_event_date (self : GrampsWebAPI) (event_handle : option string)
    (require_birth : bool) : option date :=
  try_except
    (match event_handle with
     | Some h =>
         if negb (handle_truthy event_handle) then Ok None
         else
           let handle := if contains "/" h then last_segment h else h in
           event_data <- _get self ("events/" ++ handle) ;;
           is_birth <-
             (if require_birth then
                event_type <- get event_data "type" (VDict []) ;;
                type_string <- type_string_of event_type ;;
                lowered <- lower_of type_string ;;
                Ok (contains "birth" lowered)
              else Ok true) ;;
           if negb is_birth then Ok None
           else
             date_info <- get event_data "date" (VDict []) ;;
             dateval <- get date_info "dateval" (VList []) ;;
             Ok (_parse_dateval dateval)
     | None => Ok None
     end)
    (fun _ => None).

(** [i >= 0 and i < len(xs)]; [len] is not evaluated when the first
    comparison is false. *)
Definition index_in_range (i xs : value) : result bool :=
  n <- as_number i ;;
  if 0 <=? n then (l <- len xs ;; Ok (n <? l)) else Ok false.

Definition is_some {A : Type} (o : option A) : bool :=
  match o with Some _ => true | None => false end.

(** [_fetch_event_date] handles its own exceptions, so the [try] around
    the call inside the two loops below never sees one; a failure of
    [_resolve_event_handle] is outside that [try] and ends the method
    through its outer handler. *)
Definition _has_birth_date (self : GrampsWebAPI) (person : value) : bool :=
  try_except
    (birth_ref_index <- get person "birth_ref_index" (VInt (-1)) ;;
     event_ref_list <- get person "event_ref_list" (VList []) ;;
     valid_index <- index_in_range birth_ref_index event_ref_list ;;
     direct <-
       (if valid_index then
          event_ref <- getitem event_ref_list birth_ref_index ;;
          event_handle <- _resolve_event_handle event_ref ;;
          if handle_truthy event_handle
          then Ok (is_some (_fetch_event_date self event_handle false))
          else Ok false
        else Ok false) ;;
     if direct then Ok true
     else
       refs <- iter event_ref_list ;;
       found <-
         for_each
           (fun event_ref =>
              event_handle <- _resolve_event_handle event_ref ;;
              if negb (handle_truthy event_handle) then Ok None
              else if is_some (_fetch_event_date self event_handle false)
                   then Ok (Some true)
                   else Ok None)
           refs ;;
       Ok (match found with Some b => b | None => false end))
    (fun _ => false).

Definition _extract_birth_date (self : GrampsWebAPI) (person : value) : option date :=
  try_except
    (birth_ref_index <- get person "birth_ref_index" (VInt (-1)) ;;
     event_ref_list <- get person "event_ref_list" (VList []) ;;
     valid_index <- index_in_range birth_ref_index event_ref_list ;;
     direct <-
       (if valid_index then
          event_ref <- getitem event_ref_list birth_ref_index ;;
          event_handle <- _resolve_event_handle event_ref ;;
          if handle_truthy event_handle
          then Ok (_fetch_event_date self event_handle true)
          else Ok None
        else Ok None) ;;
     match direct with
     | Some parsed => Ok (Some parsed)
     | None =>
         refs <- iter event_ref_list ;;
         for_each
           (fun event_ref =>
              event_handle <- _resolve_event_handle event_ref ;;
              if negb (handle_truthy event_handle) then Ok None
              else Ok (_fetch_event_date self event_handle true))
           refs
     end)
    (fun _ => None).

Definition _is_person_alive (self : GrampsWebAPI) (person : value) : bool :=
  try_except
    (death_ref_index <- get person "death_ref_index" (VInt (-1)) ;;
     if eq_int death_ref_index (-1) then Ok true else Ok false)
    (fun _ => true).

Definition _get_person_name (self : GrampsWebAPI) (person : value) : string :=
  try_except
    (primary_name <- get person "primary_name" (VDict []) ;;
     first_name <- get primary_name "first_name" (VStr EmptyString) ;;
     surname_list <- get primary_name "surname_list" (VList []) ;;
     surname <-
       (if truthy surname_list then
          first <- getitem surname_list (VInt 0) ;;
          get first "surname" (VStr EmptyString)
        else Ok (VStr EmptyString)) ;;
     let full_name := strip (str first_name ++ " " ++ str surname) in
     Ok (if truthy (VStr full_name) then full_name else "Unknown"))
    (fun _ => "Unknown").

Definition _calculate_next_birthday (self : GrampsWebAPI) (birth : date)
    (name : string) : option BirthdayResult :=
  try_except
    (let current_year := year (today self) in
     this_year_birthday <- replace_year birth current_year ;;
     next <-
       (if Datetime.lt this_year_birthday (today self)
        then replace_year birth (current_year + 1)
        else Ok this_year_birthday) ;;
     Ok (Some {| person_name := name;
                 birth_date := isoformat birth;
                 next_birthday := isoformat next;
                 age := year next - year birth;
                 days_until := sub_days next (today self) |}))
    (fun _ => None).

(** [get_people]: what [_get("people/")] returns; a failure is logged
    and raised again. *)
Definition get_people (self : GrampsWebAPI) : result value :=
  _get self "people/".

(** The diagnostics loop of [get_birthdays].  Its counters only feed log
    lines; what matters is where it can raise.  [sampled] tells whether
    [sampled_event_type] has been set: the sample request sits in a
    [try] whose two branches both set it, so it is set as soon as a
    first reference resolves to a handle that is true. *)
Fixpoint diagnostics (self : GrampsWebAPI) (all_people : list value)
    (sampled : bool) : result unit :=
  match all_people with
  | [] => Ok tt
  | person :: rest =>
      refs <- get person "event_ref_list" (VList []) ;;
      let event_ref_list := if truthy refs then refs else VList [] in
      sampled' <-
        (if (truthy event_ref_list && negb sampled)%bool then
           first <- getitem event_ref_list (VInt 0) ;;
           handle <- _resolve_event_handle first ;;
           Ok (handle_truthy handle)
         else Ok sampled) ;;
      bri <- get person "birth_ref_index" (VInt (-1)) ;;
      _ <- index_in_range bri event_ref_list ;;
      diagnostics self rest sampled'
  end.

(** The arguments of the debug lines about the first retained person. *)
Definition log_sample (sample : value) : result unit :=
  _ <- get sample "birth_ref_index" VNone ;;
  refs <- get sample "event_ref_list" (VList []) ;;
  _ <- len refs ;;
  refs' <- get sample "event_ref_list" VNone ;;
  if truthy refs' then
    refs'' <- get sample "event_ref_list" VNone ;;
    _ <- getitem refs'' (VInt 0) ;;
    Ok tt
  else Ok tt.

(** The search for one person by name, which logs the record found. *)
Definition log_named_person (self : GrampsWebAPI) (people_data : list value)
  : result (option unit) :=
  for_each
    (fun p =>
       let pname := _get_person_name self p in
       if (contains "erdal" (lower pname) && contains "akkaya" (lower pname))%bool
       then
         _ <- get p "birth_ref_index" VNone ;;
         _ <- get p "death_ref_index" VNone ;;
         _ <- get p "event_ref_list" VNone ;;
         Ok (Some tt)
       else Ok None)
    people_data.

(** The body of the main loop of [get_birthdays] for one person: the
    record appended to [birthdays], or [None] when the iteration ends in
    a [continue] or appends nothing.  Every call in it handles its own
    exceptions. *)
Definition birthday_of (self : GrampsWebAPI) (person : value) : option BirthdayResult :=
  let name := _get_person_name self person in
  if (truthy (VStr (surname_filter self))
      && negb (contains (lower (surname_filter self)) (lower name)))%bool
  then None
  else match _extract_birth_date self person with
       | None => None
       | Some birth =>
           if _is_person_alive self person
           then _calculate_next_birthday self birth name
           else None
       end.

Fixpoint collect_birthdays (self : GrampsWebAPI) (people_data : list value)
  : list BirthdayResult :=
  match people_data with
  | [] => []
  | person :: rest =>
      match birthday_of self person with
      | Some info => info :: collect_birthdays self rest
      | None => collect_birthdays self rest
      end
  end.

(** [birthdays.sort(key=lambda x: x["days_until"])].  [list.sort] is
    stable, and a list has exactly one stable ascending arrangement, the
    one insertion from the right builds. *)
Fixpoint insert_by_days (x : BirthdayResult) (l : list BirthdayResult)
  : list BirthdayResult :=
  match l with
  | [] => [x]
  | y :: t =>
      if days_until x <=? days_until y then x :: l
      else y :: insert_by_days x t
  end.

Fixpoint sort_by_days_until (l : list BirthdayResult) : list BirthdayResult :=
  match l with
  | [] => []
  | x :: t => insert_by_days x (sort_by_days_until t)
  end.

(** The default of the parameter [limit]. *)
Definition default_limit : Z := 50.

Definition get_birthdays (self : GrampsWebAPI) (limit : Z) : list BirthdayResult :=
  try_except
    (match get_people self with
     | Raise _ => Ok []
     | Ok all_people =>
         if negb (truthy all_people) then Ok []
         else
           persons <- iter all_people ;;
           _ <- diagnostics self persons false ;;
           let people_data := filter (_has_birth_date self) persons in
           match people_data with
           | [] => Ok []
           | sample :: _ =>
               _ <- log_sample sample ;;
               _ <- log_named_person self people_data ;;
               let birthdays := collect_birthdays self people_data in
               Ok (slice_to (sort_by_days_until birthdays) limit)
           end
     end)
    (fun _ => []).

End Gramps.

Import Gramps.

(* ================================================================== *)
(** * Statements about the calculator *)
(* ================================================================== *)

(** The occurrence the calculator aims at: the birth date moved to the
    current year, or to the next one when that day is already past. *)
Definition this_year_birthday (today birth : date) : date :=
  mkdate (year today) (month birth) (day birth).

Definition next_occurrence (today birth : date) : date :=
  if Datetime.lt (this_year_birthday today birth) today
  then mkdate (year today + 1) (month birth) (day birth)
  else this_year_birthday today birth.

(** What the calculator promises for a birth date and a name. *)
Definition next_birthday_contract (self : GrampsWebAPI) (birth : date)
    (name : string) : Prop :=
  exists r,
    _calculate_next_birthday self birth name = Some r
    /\ person_name r = name
    /\ birth_date r = isoformat birth
    /\ next_birthday r = isoformat (next_occurrence (today self) birth)
    /\ days_until r
       = toordinal (next_occurrence (today self) birth) - toordinal (today self)
    /\ 0 <= days_until r
    /\ (days_until r = 0 <->
        month (today self) = month birth /\ day (today self) = day birth)
    /\ age r = year (next_occurrence (today self) birth) - year birth.

(** The birth date is a February 29. *)
Definition leap_day (birth : date) : bool :=
  ((month birth =? 2) && (day birth =? 29))%bool.

(** The birth date's month and day lie before today in the current year. *)
Definition already_past (today birth : date) : bool :=
  Datetime.lt (this_year_birthday today birth) today.

(** The days on which the calendar has no date for the calculator to
    move the birth date to: for a February 29, every day of a year that
    is not a leap year and every day after the February 29 of a leap
    year (the next year is not one); for every birth date, the days of
    the year 9999 after the birthday (there is no year 10000). *)
Definition no_occurrence (today birth : date) : bool :=
  ((leap_day birth && (negb (is_leap (year today)) || already_past today birth))
   || (already_past today birth && (year today =? MAXYEAR)))%bool.

(** An instance for examples: no surname filter, an upstream that
    answers from a table of endpoints and fails elsewhere, and a given
    calendar day. *)
Fixpoint serve (table : list (string * value)) (endpoint : string) : result value :=
  match table with
  | [] => Raise RequestException
  | (e, body) :: rest =>
      if String.eqb e endpoint then Ok body else serve rest endpoint
  end.

Definition api_on (table : list (string * value)) (day : date) : GrampsWebAPI :=
  {| surname_filter := EmptyString; upstream := serve table; today := day |}.

(** [person.get("death_ref_index", -1)] on a record. *)
Definition death_ref_index_of (entries : list (string * value)) : value :=
  match lookup "death_ref_index" entries with
  | Some v => v
  | None => VInt (-1)
  end.

(* ================================================================== *)
(** * Statements about the resolver *)
(* ================================================================== *)

(** The value a reference carries under [key]: the entry counts when it
    is present and true (not [None], not empty, not zero). *)
Definition found (entries : list (string * value)) (key : string) : option value :=
  match lookup key entries with
  | Some v => if truthy v then Some v else None
  | None => None
  end.

(** The candidate of a reference: the first value found under [ref],
    [handle], [hlink], in that order. *)
Definition candidate (entries : list (string * value)) : option value :=
  match found entries "ref" with
  | Some v => Some v
  | None =>
      match found entries "handle" with
      | Some v => Some v
      | None => found entries "hlink"
      end
  end.

Definition ends_with (c : ascii) (s : string) : Prop :=
  exists p, s = p ++ String c EmptyString.

(** [seg] is the final path segment of [s] once the trailing separators
    of [s] are dropped: [s] is [body] followed by separators only,
    [body] does not end with one, and [seg] is the part of [body] after
    its last separator. *)
Definition final_segment_of (s seg : string) : Prop :=
  exists body trailing pre,
    s = body ++ trailing
    /\ (forall c, In c (list_ascii_of_string trailing) -> c = "/"%char)
    /\ ~ ends_with "/" body
    /\ body = pre ++ seg
    /\ (pre = EmptyString \/ ends_with "/" pre)
    /\ has_char "/" seg = false.

(* ================================================================== *)
(** * Statements about the date parser *)
(* ================================================================== *)

(** The plausibility test on an assignment (year, month, day). *)
Definition plausible (ymd : Z * Z * Z) : bool :=
  match ymd with
  | (y, m, d) =>
      ((100 <=? y) && (1 <=? m) && (m <=? 12) && (1 <=? d) && (d <=? 31))%bool
  end.

(** The three readings of a triple [a, b, c] as (year, month, day), by
    priority: [a, b, c] is (day, month, year), then (year, month, day),
    then (year, day, month). *)
Definition orderings (a b c : Z) : list (Z * Z * Z) :=
  [(c, b, a); (a, b, c); (a, c, b)].

(** The calendar date of an assignment, when there is one. *)
Definition calendar_date (ymd : Z * Z * Z) : option date :=
  match ymd with
  | (y, m, d) =>
      match Datetime.make y m d with
      | Ok dt => Some dt
      | Raise _ => None
      end
  end.

(** The date of the first plausible reading, and nothing else. *)
Definition first_plausible_date (a b c : Z) : option date :=
  match find plausible (orderings a b c) with
  | Some ymd => calendar_date ymd
  | None => None
  end.

(** No reading is both plausible and a calendar date. *)
Definition no_reading_gives_a_date (a b c : Z) : Prop :=
  forall ymd, In ymd (orderings a b c) ->
    plausible ymd = true -> calendar_date ymd = None.

(** [isinstance(v, int)]: the value already is an integer. *)
Definition as_integer (v : value) : option Z :=
  match v with
  | VInt n => Some n
  | VBool b => Some (if b then 1 else 0)
  | _ => None
  end.

(** The value [int(v)] converts to, when the conversion succeeds. *)
Definition int_conversion (v : value) : option Z :=
  match int v with
  | Ok n => Some n
  | Raise _ => None
  end.

(** When the parser answers [None], for a given reading [integer_of] of
    "the element is an integer": fewer than three elements, or one of
    the first three is not an integer, or no reading of the first three
    gives a date. *)
Definition unparseable_exactly_when (integer_of : value -> option Z) : Prop :=
  forall items,
    _parse_dateval (VList items) = None
    <-> ((List.length items < 3)%nat
         \/ (exists v, In v (firstn 3 items) /\ integer_of v = None)
         \/ (exists a b c,
               map integer_of (firstn 3 items) = [Some a; Some b; Some c]
               /\ no_reading_gives_a_date a b c)).

(** The number [to_int] converts an element to, when it does not raise. *)
Definition converted {A : Type} (to_int : A -> result Z) (v : A) : option Z :=
  match to_int v with
  | Ok n => Some n
  | Raise _ => None
  end.

(** The same condition for a parser [parse] of lists over any element
    type [A]. *)
Definition unparseable_when {A : Type} (parse : list A -> option date)
    (integer_of : A -> option Z) : Prop :=
  forall items,
    parse items = None
    <-> ((List.length items < 3)%nat
         \/ (exists v, In v (firstn 3 items) /\ integer_of v = None)
         \/ (exists a b c,
               map integer_of (firstn 3 items) = [Some a; Some b; Some c]
               /\ no_reading_gives_a_date a b c)).

(** A JSON number as [json.loads] returns it: an [int], or a [float] for
    a number written with a fraction or an exponent.  A finite float is
    the rational [num / den]; [NaN] and [Infinity] are floats too. *)
Inductive number : Type :=
  | Int (n : Z)
  | Float (num : Z) (den : positive)
  | NaN
  | Infinity (negative : bool).

(** [int(x)] on a number: a float is truncated towards zero, and the
    floats that are no number raise. *)
Definition int_of_number (x : number) : result Z :=
  match x with
  | Int n => Ok n
  | Float num den => Ok (Z.quot num (Z.pos den))
  | NaN => Raise ValueError
  | Infinity _ => Raise OverflowError
  end.

(* ================================================================== *)
(** * Statements about the pipeline *)
(* ================================================================== *)

(** Ascending order on the sort key. *)
Definition days_le (r1 r2 : BirthdayResult) : Prop :=
  days_until r1 <= days_until r2.

Definition has_days (k : Z) (r : BirthdayResult) : bool := days_until r =? k.

(** [collected] is the list [birthdays] of a run of [get_birthdays]
    before it is sorted: what the main loop collects from the retained
    people, or nothing when the run ends before the loop. *)
Definition collected_in_cycle (self : GrampsWebAPI) (collected : list BirthdayResult)
  : Prop :=
  collected = []
  \/ exists all_people persons,
       get_people self = Ok all_people
       /\ iter all_people = Ok persons
       /\ collected
          = collect_birthdays self (filter (_has_birth_date self) persons).

(** [out] is the beginning of the stable ascending arrangement of
    [collected]: records with the same key keep their collection
    order. *)
Definition stable_sorted_prefix (collected out : list BirthdayResult) : Prop :=
  exists arranged,
    Permutation collected arranged
    /\ Sorted days_le arranged
    /\ (forall k, filter (has_days k) arranged = filter (has_days k) collected)
    /\ exists n, out = firstn n arranged.

(** What is promised of the list returned for [limit]. *)
Definition sorted_and_limited (self : GrampsWebAPI) (limit : Z) : Prop :=
  let out := get_birthdays self limit in
  Sorted days_le out
  /\ (exists collected,
        collected_in_cycle self collected /\ stable_sorted_prefix collected out)
  /\ Z.of_nat (List.length out) <= limit.

(** A small upstream for examples: two living people who share the
    birth event E0001 (July 10, 1990), the second with a death-typed
    event listed first, and a third record with a death event. *)
Definition event_record (label : string) (d m y : Z) : value :=
  VDict [("type", VDict [("string", VStr label)]);
         ("date", VDict [("dateval", VList [VInt d; VInt m; VInt y; VBool false])])].

Definition person_record (first last : string) (refs : list string)
    (birth_index death_index : Z) : value :=
  VDict [("primary_name",
          VDict [("first_name", VStr first);
                 ("surname_list", VList [VDict [("surname", VStr last)]])]);
         ("event_ref_list", VList (map (fun h => VDict [("ref", VStr h)]) refs));
         ("birth_ref_index", VInt birth_index);
         ("death_ref_index", VInt death_index)].

Definition family : list (string * value) :=
  [("people/",
    VList [person_record "Ann" "Lee" ["E0001"] 0 (-1);
           person_record "Bob" "Lee" ["E0002"; "E0001"] 0 (-1);
           person_record "Cy" "Lee" ["E0001"; "E0002"] 0 3]);
   ("events/E0001", event_record "Birth" 10 7 1990);
   ("events/E0002", event_record "Death" 1 2 2000)].

(* ================================================================== *)
(** * Statements about the person classifier *)
(* ================================================================== *)

(** The type label of an event record: the entry [string] of its
    [type] when that is a record (empty when missing), the text of
    [type] otherwise; there is none when the record or the entry has
    another shape. *)
Definition type_label (event_data : value) : option string :=
  match get event_data "type" (VDict []) with
  | Ok event_type =>
      match type_string_of event_type with
      | Ok (VStr s) => Some s
      | _ => None
      end
  | Raise _ => None
  end.

Definition is_birth_typed (event_data : value) : bool :=
  match type_label event_data with
  | Some label => contains "birth" (lower label)
  | None => false
  end.

(** The parsed date triple of an event record. *)
Definition date_of_event (event_data : value) : option date :=
  match get event_data "date" (VDict []) with
  | Ok date_info =>
      match get date_info "dateval" (VList []) with
      | Ok dateval => _parse_dateval dateval
      | Raise _ => None
      end
  | Raise _ => None
  end.

(** The reference resolves to a handle, the event behind it can be
    fetched, is birth-typed and carries the parseable date [d]. *)
Definition birth_event (self : GrampsWebAPI) (event_ref : value) (d : date) : Prop :=
  exists h event_data label,
    _resolve_event_handle event_ref = Ok (Some h)
    /\ h <> EmptyString
    /\ _get self ("events/" ++ h) = Ok event_data
    /\ type_label event_data = Some label
    /\ contains "birth" (lower label) = true
    /\ date_of_event event_data = Some d.

(** The same as a function of the reference. *)
Definition birth_date_of_reference (self : GrampsWebAPI) (event_ref : value)
  : option date :=
  match _resolve_event_handle event_ref with
  | Ok (Some h) =>
      if String.eqb h EmptyString then None
      else match _get self ("events/" ++ h) with
           | Ok event_data =>
               if is_birth_typed event_data then date_of_event event_data
               else None
           | Raise _ => None
           end
  | _ => None
  end.

(** The first candidate, in the order given, that is birth-typed and
    has a parseable date wins. *)
Fixpoint first_birth_date (self : GrampsWebAPI) (candidates : list value)
  : option date :=
  match candidates with
  | [] => None
  | event_ref :: rest =>
      match birth_date_of_reference self event_ref with
      | Some d => Some d
      | None => first_birth_date self rest
      end
  end.

(** The event references of a person record. *)
Definition event_refs_of (person : value) : list value :=
  match person with
  | VDict entries =>
      match lookup "event_ref_list" entries with
      | Some (VList refs) => refs
      | _ => []
      end
  | _ => []
  end.

(** [birth_ref_index] as a position in the list, when it is one. *)
Definition birth_position (person : value) : option nat :=
  match person with
  | VDict entries =>
      match lookup "birth_ref_index" entries with
      | Some v =>
          match as_number v with
          | Ok n =>
              if ((0 <=? n) && (n <? Z.of_nat (List.length (event_refs_of person))))%bool
              then Some (Z.to_nat n) else None
          | Raise _ => None
          end
      | None => None
      end
  | _ => None
  end.

(** The search order: the entry at [birth_ref_index] first when the
    index is valid, then every entry of the list in sequence. *)
Definition search_order (person : value) : list value :=
  match birth_position person with
  | Some i =>
      match nth_error (event_refs_of person) i with
      | Some event_ref => event_ref :: event_refs_of person
      | None => event_refs_of person
      end
  | None => event_refs_of person
  end.

(** A record of the expected shape: the index is an integer or missing,
    the references are a list or missing, and each reference is a
    record or is empty. *)
Definition reference_shaped (event_ref : value) : bool :=
  (is_dict event_ref || negb (truthy event_ref))%bool.

Definition well_formed_person (person : value) : Prop :=
  exists entries,
    person = VDict entries
    /\ (lookup "birth_ref_index" entries = None
        \/ exists n, lookup "birth_ref_index" entries = Some (VInt n))
    /\ (lookup "event_ref_list" entries = None
        \/ exists refs, lookup "event_ref_list" entries = Some (VList refs))
    /\ Forall (fun r => reference_shaped r = true) (event_refs_of person).

(* ================================================================== *)
(** * class GrampsWebAPI: the constructor and the text date parser *)
(* ================================================================== *)

Module GrampsInit.

(** [__init__]: [self.url = url.rstrip("/")]. *)
Definition init_url (url : string) : string := rstrip "/" url.

(** [__init__]:
    [self.surname_filter = surname_filter.strip() if surname_filter else ""]. *)
Definition init_surname_filter (surname_filter : string) : string :=
  if truthy (VStr surname_filter) then strip surname_filter else EmptyString.

(** The instance [__init__] builds, with the upstream it will talk to
    and the calendar day of the run. *)
Definition new_api (surname_filter : string) (service : string -> result value)
    (day : date) : GrampsWebAPI :=
  {| surname_filter := init_surname_filter surname_filter;
     upstream := service;
     today := day |}.

End GrampsInit.

Module Strptime.

(** [datetime.strptime(s, "%Y-%m-%d")] matches [s] against the pattern
    the format compiles to,
    [(\d\d\d\d)-(1[0-2]|0[1-9]|[1-9])-(3[0-1]|[1-2]\d|0[1-9]|[1-9]| [1-9])],
    alternatives tried from the left; the whole text must be consumed. *)
Definition year_field (s : string) : option (Z * string) :=
  match s with
  | String a (String b (String c (String e rest))) =>
      if (is_digit a && is_digit b && is_digit c && is_digit e)%bool
      then Some (1000 * digit_value a + 100 * digit_value b
                 + 10 * digit_value c + digit_value e, rest)
      else None
  | _ => None
  end.

Definition expect (c : ascii) (s : string) : option string :=
  match s with
  | String x rest => if Ascii.eqb x c then Some rest else None
  | EmptyString => None
  end.

(** One alternative made of a first character in [lo1..hi1] and a second
    in [lo2..hi2]. *)
Definition two_chars (lo1 hi1 lo2 hi2 : nat) (value : ascii -> ascii -> Z)
    (s : string) : list (Z * string) :=
  match s with
  | String a (String b rest) =>
      if (char_in lo1 hi1 a && char_in lo2 hi2 b)%bool
      then [(value a b, rest)] else []
  | _ => []
  end.

Definition one_char (lo hi : nat) (s : string) : list (Z * string) :=
  match s with
  | String a rest => if char_in lo hi a then [(digit_value a, rest)] else []
  | EmptyString => []
  end.

Definition two_digits (a b : ascii) : Z := 10 * digit_value a + digit_value b.

(** [1[0-2]|0[1-9]|[1-9]] *)
Definition month_alternatives (s : string) : list (Z * string) :=
  (two_chars 49 49 48 50 two_digits s
   ++ two_chars 48 48 49 57 two_digits s
   ++ one_char 49 57 s)%list.

(** [3[0-1]|[1-2]\d|0[1-9]|[1-9]| [1-9]] *)
Definition day_alternatives (s : string) : list (Z * string) :=
  (two_chars 51 51 48 49 two_digits s
   ++ two_chars 49 50 48 57 two_digits s
   ++ two_chars 48 48 49 57 two_digits s
   ++ one_char 49 57 s
   ++ two_chars 32 32 49 57 (fun _ b => digit_value b) s)%list.

Fixpoint first_match {A B : Type} (f : A -> option B) (l : list A) : option B :=
  match l with
  | [] => None
  | x :: rest =>
      match f x with
      | Some y => Some y
      | None => first_match f rest
      end
  end.

(** The part of the pattern after the year: a hyphen, the month, a
    hyphen, the day.  The month alternatives are tried in turn until the
    rest matches; the day is the last group, so its first alternative
    that matches is kept. *)
Definition match_month_day (s : string) : option (Z * Z * string) :=
  match expect "-" s with
  | Some r2 =>
      first_match
        (fun mr =>
           match expect "-" (snd mr) with
           | Some r4 =>
               match day_alternatives r4 with
               | (d, r5) :: _ => Some (fst mr, d, r5)
               | [] => None
               end
           | None => None
           end)
        (month_alternatives r2)
  | None => None
  end.

(** The match: year, month, day and the text left over. *)
Definition match_ymd (s : string) : option (Z * Z * Z * string) :=
  match year_field s with
  | Some (y, r1) =>
      match match_month_day r1 with
      | Some (m, d, rest) => Some (y, m, d, rest)
      | None => None
      end
  | None => None
  end.

(** [datetime.strptime(s, "%Y-%m-%d").date()] *)
Definition strptime_date (s : string) : result date :=
  match match_ymd s with
  | Some (y, m, d, rest) =>
      if String.eqb rest EmptyString then Datetime.make y m d
      else Raise ValueError
  | None => Raise ValueError
  end.

End Strptime.

Definition _parse_gramps_date (date_str : string) : option date :=
  try_except
    (if (contains "-" date_str
         && (Z.of_nat (String.length date_str) =? 10))%bool
     then d <- Strptime.strptime_date date_str ;; Ok (Some d)
     else Ok None)
    (fun _ => None).

(* ================================================================== *)
(** * sensor.py and the coordinator *)
(* ================================================================== *)

Module Sensor.

(** const.py *)
Definition ATTR_PERSON_NAME : string := "person_name".
Definition ATTR_BIRTH_DATE : string := "birth_date".
Definition ATTR_AGE : string := "age".
Definition ATTR_DAYS_UNTIL : string := "days_until".

(** [coordinator.data]: [None] until the first refresh, then what
    [_async_update_data] returned, that is [api.get_birthdays()] with
    the default limit. *)
Definition coordinator_data : Type := option (list BirthdayResult).

Definition _async_update_data (api : GrampsWebAPI) : coordinator_data :=
  Some (get_birthdays api default_limit).

(** [if not self.coordinator.data] *)
Definition no_data (data : coordinator_data) : bool :=
  match data with
  | Some (_ :: _) => false
  | _ => true
  end.

Definition birthdays_of (data : coordinator_data) : list BirthdayResult :=
  match data with
  | Some l => l
  | None => []
  end.

(** [data[index]] on the list of records. *)
Definition entry (l : list BirthdayResult) (index : Z) : result BirthdayResult :=
  let k := if index <? 0 then index + Z.of_nat (List.length l) else index in
  if k <? 0 then Raise IndexError
  else match nth_error l (Z.to_nat k) with
       | Some b => Ok b
       | None => Raise IndexError
       end.

(** The indices of the sensors [async_setup_entry] creates:
    [range(5)]. *)
Definition sensor_indices : list Z := [0; 1; 2; 3; 4].

(** [GrampsWebNextBirthdaySensor.extra_state_attributes] *)
Definition next_birthday_attributes (data : coordinator_data) (index : Z)
  : result (list (string * value)) :=
  if no_data data then Ok []
  else if Z.of_nat (List.length (birthdays_of data)) <=? index then Ok []
  else
    birthday <- entry (birthdays_of data) index ;;
    Ok [(ATTR_PERSON_NAME, VStr (person_name birthday));
        (ATTR_BIRTH_DATE, VStr (birth_date birthday));
        (ATTR_AGE, VInt (age birthday));
        (ATTR_DAYS_UNTIL, VInt (days_until birthday));
        ("next_birthday", VStr (next_birthday birthday))].

(** [GrampsWebAllBirthdaysSensor.native_value] *)
Definition all_birthdays_value (data : coordinator_data) : Z :=
  if no_data data then 0 else Z.of_nat (List.length (birthdays_of data)).

(** [GrampsWebAllBirthdaysSensor.extra_state_attributes]: the list
    under the key [birthdays]. *)
Definition all_birthdays_attributes (data : coordinator_data)
  : list BirthdayResult :=
  if no_data data then [] else birthdays_of data.

End Sensor.

(* ================================================================== *)
(** * config_flow.py *)
(* ================================================================== *)

Module ConfigFlow.

Definition CONF_URL : string := "url".
Definition CONF_USERNAME : string := "username".
Definition CONF_PASSWORD : string := "password".

(** [v.rstrip("/")]: only a [str] has the method. *)
Definition rstrip_of (v : value) : result string :=
  match v with
  | VStr s => Ok (rstrip "/" s)
  | _ => Raise AttributeError
  end.

(** [validate_input]: [connect] is what [api.get_people()] does for the
    client built on the given URL; its failure is logged and ignored.
    The outer handler logs and raises again.  The value returned is the
    title of the mapping [{"title": "Gramps HA"}]. *)
Definition validate_input (connect : string -> result value) (data : value)
  : result string :=
  raw <- get data CONF_URL (VStr EmptyString) ;;
  url <- rstrip_of raw ;;
  if negb (truthy (VStr url)) then Raise ValueError
  else
    _ <- get data CONF_USERNAME VNone ;;
    _ <- get data CONF_PASSWORD VNone ;;
    match connect (GrampsInit.init_url url) with
    | Ok _ => Ok "Gramps HA"
    | Raise _ => Ok "Gramps HA"
    end.

(** What a step of the flow returns: the entry created, or the form
    shown again with its errors. *)
Inductive flow_result : Type :=
| CreateEntry (title : string) (data : value)
| ShowForm (errors : list (string * string)).

(** [async_step_user] *)
Definition async_step_user (connect : string -> result value)
    (user_input : option value) : flow_result :=
  match user_input with
  | Some input =>
      match validate_input connect input with
      | Ok title => CreateEntry title input
      | Raise ValueError => ShowForm [("base", "invalid_url")]
      | Raise _ => ShowForm [("base", "unknown")]
      end
  | None => ShowForm []
  end.

End ConfigFlow.

(* ================================================================== *)
(** * Statements about the two searches of the classifier *)
(* ================================================================== *)

(** The reference resolves to a handle, and the event behind it can be
    fetched and carries the parseable date [d], whatever its type. *)
Definition dated_event (self : GrampsWebAPI) (event_ref : value) (d : date) : Prop :=
  exists h event_data,
    _resolve_event_handle event_ref = Ok (Some h)
    /\ h <> EmptyString
    /\ _get self ("events/" ++ h) = Ok event_data
    /\ date_of_event event_data = Some d.

(** What one candidate contributes to a search: the date
    [_fetch_event_date] finds behind the reference. *)
Definition search_step (self : GrampsWebAPI) (require_birth : bool)
    (event_ref : value) : result (option date) :=
  event_handle <- _resolve_event_handle event_ref ;;
  if negb (handle_truthy event_handle) then Ok None
  else Ok (_fetch_event_date self event_handle require_birth).

(** The skeleton [_has_birth_date] and [_extract_birth_date] share: the
    entry at a valid [birth_ref_index] first, then the whole list. *)
Definition search (self : GrampsWebAPI) (require_birth : bool) (person : value)
  : result (option date) :=
  birth_ref_index <- get person "birth_ref_index" (VInt (-1)) ;;
  event_ref_list <- get person "event_ref_list" (VList []) ;;
  valid_index <- index_in_range birth_ref_index event_ref_list ;;
  direct <-
    (if valid_index then
       event_ref <- getitem event_ref_list birth_ref_index ;;
       search_step self require_birth event_ref
     else Ok None) ;;
  match direct with
  | Some parsed => Ok (Some parsed)
  | None =>
      refs <- iter event_ref_list ;;
      for_each (search_step self require_birth) refs
  end.

(** The same upstream with one entry of the list of people damaged: a
    record whose [birth_ref_index] is [None]. *)
Definition damaged_family : list (string * value) :=
  [("people/",
    VList [person_record "Ann" "Lee" ["E0001"] 0 (-1);
           VDict [("birth_ref_index", VNone)]]);
   ("events/E0001", event_record "Birth" 10 7 1990)].

(** The service at the time of the pre-filter ([pre]) and at the time of
    the main loop ([main]): every request the main loop gets an answer
    to was answered with the same body when the pre-filter sent it. *)
Definition answered_alike (pre main : GrampsWebAPI) : Prop :=
  forall endpoint body,
    _get main endpoint = Ok body -> _get pre endpoint = Ok body.

(** The upstream of [family] after the event E0002 has been deleted. *)
Definition family_later : list (string * value) :=
  [("people/",
    VList [person_record "Ann" "Lee" ["E0001"] 0 (-1);
           person_record "Bob" "Lee" ["E0002"; "E0001"] 0 (-1);
           person_record "Cy" "Lee" ["E0001"; "E0002"] 0 3]);
   ("events/E0001", event_record "Birth" 10 7 1990)].

(* ================================================================== *)
(** * class GrampsWebAPI: authentication and requests *)
(* ================================================================== *)

Module Transport.

(** The service as the client sees it: the answer to the token request
    for a user name and a password, and the answer to a GET on an
    endpoint under a given [Authorization] header.  An answer is the
    decoded body, or the exception of a failed request (no connection,
    error status, body that is not JSON). *)
Record service : Type := {
  token_endpoint : string -> string -> result value;
  api_endpoint : option string -> string -> result value
}.

(** The fields of [self] the two methods use: the credentials,
    [self.token], and the [Authorization] header of the session.
    [token_requests] counts the token requests sent so far; the code
    has no such field, it is kept to speak about them.  In [Gramps]
    the answer of [_get] is read from [upstream]; here the way to that
    answer is spelled out. *)
Record client : Type := {
  username : option string;
  password : option string;
  token : value;
  authorization : option string;
  token_requests : nat
}.

(** The client [__init__] leaves behind. *)
Definition fresh_client (user pass : option string) : client :=
  {| username := user; password := pass; token := VNone;
     authorization := None; token_requests := 0 |}.

(** [if text:] for a field that is a string or [None]. *)
Definition given (text : option string) : bool :=
  match text with
  | Some t => truthy (VStr t)
  | None => false
  end.

Definition text_of (text : option string) : string :=
  match text with
  | Some t => t
  | None => EmptyString
  end.

Definition count_request (c : client) : client :=
  {| username := username c; password := password c; token := token c;
     authorization := authorization c;
     token_requests := S (token_requests c) |}.

Definition set_token (c : client) (t : value) : client :=
  {| username := username c; password := password c; token := t;
     authorization := authorization c;
     token_requests := token_requests c |}.

Definition set_authorization (c : client) (header : string) : client :=
  {| username := username c; password := password c; token := token c;
     authorization := Some header;
     token_requests := token_requests c |}.

(** [_authenticate]: the value returned and the client afterwards. *)
Definition _authenticate (srv : service) (c : client) : bool * client :=
  if (negb (given (username c)) || negb (given (password c)))%bool
  then (true, c)
  else
    let sent := count_request c in
    match token_endpoint srv (text_of (username c)) (text_of (password c)) with
    | Raise _ => (false, sent)
    | Ok data =>
        match get data "access_token" VNone with
        | Raise _ => (false, sent)
        | Ok t =>
            let stored := set_token sent t in
            if truthy t
            then (true, set_authorization stored ("Bearer " ++ str t))
            else (true, stored)
        end
    end.

(** [_get]: the decoded body or the exception raised again, and the
    client afterwards.  What [_authenticate] returns is not looked at. *)
Definition _get (srv : service) (c : client) (endpoint : string)
  : result value * client :=
  let c' :=
    if (negb (truthy (token c)) && given (username c))%bool
    then snd (_authenticate srv c)
    else c in
  (api_endpoint srv (authorization c') endpoint, c').

(** The client after a series of requests. *)
Fixpoint after_requests (srv : service) (c : client) (endpoints : list string)
  : client :=
  match endpoints with
  | [] => c
  | e :: rest => after_requests srv (snd (_get srv c e)) rest
  end.

End Transport.

(* ================================================================== *)
(** * The model on known values *)
(* ================================================================== *)

Example toordinal_first_day : toordinal (mkdate 1 1 1) = 1.
Proof. reflexivity. Qed.

Example toordinal_2000 : toordinal (mkdate 2000 1 1) = 730120.
Proof. reflexivity. Qed.

Example isoformat_padded : isoformat (mkdate 987 6 5) = "0987-06-05".
Proof. reflexivity. Qed.

Example make_rejects_april_31 : Datetime.make 1990 4 31 = Raise ValueError.
Proof. reflexivity. Qed.

Example int_of_padded_text : int (VStr " 1_990 ") = Ok 1990.
Proof. reflexivity. Qed.

Example int_of_bad_text : int (VStr "19 90") = Raise ValueError.
Proof. reflexivity. Qed.

(** [int()] skips tabs and line ends around the digits, not the
    separator characters 28 to 31 that [strip] removes. *)
Example int_of_text_with_separators :
  int (VStr (String (ascii_of_nat 9) ("15" ++ String (ascii_of_nat 13) EmptyString)))
  = Ok 15
  /\ int (VStr (String (ascii_of_nat 28) "15")) = Raise ValueError
  /\ strip (String (ascii_of_nat 28) "15") = "15".
Proof. repeat split; reflexivity. Qed.

Example str_of_list :
  str (VList [VStr "birth"; VInt (-5); VDict [("a", VNone)]])
  = "['birth', -5, {'a': None}]".
Proof. reflexivity. Qed.

Example last_segment_of_path : last_segment "/api/events/E0001//" = "E0001".
Proof. reflexivity. Qed.

Example negative_slice : slice_to [1; 2; 3] (-1) = [1; 2].
Proof. reflexivity. Qed.

Example family_birthdays :
  map person_name (get_birthdays (api_on family (mkdate 2024 7 1)) 50)
  = ["Ann Lee"; "Bob Lee"].
Proof. reflexivity. Qed.

(* ================================================================== *)
(** * Calendar lemmas *)
(* ================================================================== *)

Lemma make_inv y m d dt :
  Datetime.make y m d = Ok dt ->
  dt = mkdate y m d
  /\ 1 <= y <= 9999 /\ 1 <= m <= 12 /\ 1 <= d <= days_in_month y m.
Proof.
  unfold Datetime.make, MINYEAR, MAXYEAR.
  destruct (fits_c_int y && fits_c_int m && fits_c_int d)%bool; cbn; [|discriminate].
  destruct (1 <=? y) eqn:Y1; cbn; [|discriminate].
  destruct (y <=? 9999) eqn:Y2; cbn; [|discriminate].
  destruct (1 <=? m) eqn:M1; cbn; [|discriminate].
  destruct (m <=? 12) eqn:M2; cbn; [|discriminate].
  destruct (1 <=? d) eqn:D1; cbn; [|discriminate].
  destruct (d <=? days_in_month y m) eqn:D2; cbn; [|discriminate].
  intros [= <-]. repeat split; lia.
Qed.

Lemma month_cases m :
  1 <= m <= 12 ->
  m = 1 \/ m = 2 \/ m = 3 \/ m = 4 \/ m = 5 \/ m = 6 \/
  m = 7 \/ m = 8 \/ m = 9 \/ m = 10 \/ m = 11 \/ m = 12.
Proof. lia. Qed.

Ltac each_month H :=
  apply month_cases in H;
  repeat (destruct H as [H | H]); subst.

(** Evaluates the table lookups once the month is a numeral. *)
Ltac month_tables :=
  unfold days_before_month, days_in_month, DAYS_BEFORE_MONTH, DAYS_IN_MONTH;
  repeat match goal with
    | |- context [Z.to_nat ?e] =>
        let v := eval vm_compute in (Z.to_nat e) in
        progress change (Z.to_nat e) with v
    | |- context [?a =? ?b] =>
        let v := eval vm_compute in (a =? b) in
        progress change (a =? b) with v
    | |- context [?a <? ?b] =>
        let v := eval vm_compute in (a <? b) in
        progress change (a <? b) with v
    end;
  cbn [nth andb orb negb].

Lemma days_in_month_bounds y m :
  1 <= m <= 12 -> 28 <= days_in_month y m <= 31.
Proof.
  intros H.
  each_month H; month_tables; destruct (is_leap y); lia.
Qed.

Lemma make_ok y m d :
  1 <= y <= 9999 -> 1 <= m <= 12 -> 1 <= d <= days_in_month y m ->
  Datetime.make y m d = Ok (mkdate y m d).
Proof.
  intros Hy Hm Hd. pose proof (days_in_month_bounds y m Hm) as Hb.
  unfold Datetime.make, fits_c_int, MINYEAR, MAXYEAR.
  repeat match goal with
    | |- context [?lo <=? ?hi] =>
        replace (lo <=? hi) with true by (symmetry; apply Z.leb_le; lia)
    end.
  reflexivity.
Qed.

Lemma make_fails y m d :
  ~ (1 <= y <= 9999 /\ 1 <= m <= 12 /\ 1 <= d <= days_in_month y m) ->
  exists e, Datetime.make y m d = Raise e.
Proof.
  intros H. destruct (Datetime.make y m d) as [dt|e] eqn:E.
  - destruct (make_inv _ _ _ _ E) as (_ & Hy & Hm & Hd). exfalso. auto.
  - now exists e.
Qed.

Lemma valid_inv d :
  valid d ->
  1 <= year d <= 9999 /\ 1 <= month d <= 12
  /\ 1 <= day d <= days_in_month (year d) (month d).
Proof. intros H. destruct (make_inv _ _ _ _ H) as (_ & Hy & Hm & Hd). auto. Qed.

Lemma is_leap_spec y :
  is_leap y = true <-> (y mod 4 = 0 /\ (y mod 100 <> 0 \/ y mod 400 = 0)).
Proof.
  unfold is_leap.
  rewrite andb_true_iff, orb_true_iff, negb_true_iff, !Z.eqb_eq, Z.eqb_neq.
  tauto.
Qed.

Lemma days_before_year_succ y :
  days_before_year (y + 1)
  = days_before_year y + 365 + (if is_leap y then 1 else 0).
Proof.
  unfold days_before_year.
  replace (y + 1 - 1) with y by lia.
  destruct (is_leap y) eqn:L.
  - apply is_leap_spec in L. Z.div_mod_to_equations. lia.
  - assert (N : ~ (y mod 4 = 0 /\ (y mod 100 <> 0 \/ y mod 400 = 0))).
    { intros C. apply is_leap_spec in C. congruence. }
    Z.div_mod_to_equations. lia.
Qed.

Lemma days_before_year_mono y1 y2 :
  y1 <= y2 -> days_before_year y1 <= days_before_year y2.
Proof.
  intros H. unfold days_before_year. Z.div_mod_to_equations. lia.
Qed.

Lemma days_before_month_step y m1 m2 :
  1 <= m1 -> m1 < m2 -> m2 <= 12 ->
  days_before_month y m1 + days_in_month y m1 <= days_before_month y m2.
Proof.
  intros H1 H12 H2.
  assert (A : 1 <= m1 <= 12) by lia.
  assert (B : 1 <= m2 <= 12) by lia.
  each_month A; each_month B; try lia; month_tables; destruct (is_leap y); lia.
Qed.

Lemma day_of_year_bounds y m d :
  1 <= m <= 12 -> 1 <= d <= days_in_month y m ->
  1 <= days_before_month y m + d <= 365 + (if is_leap y then 1 else 0).
Proof.
  intros Hm.
  each_month Hm; month_tables; destruct (is_leap y); lia.
Qed.

(** The ordinal is strictly increasing along the order on dates. *)
Lemma toordinal_lt a b :
  valid a -> valid b -> Datetime.lt a b = true -> toordinal a < toordinal b.
Proof.
  intros Va Vb.
  destruct (valid_inv _ Va) as (Ya & Ma & Da).
  destruct (valid_inv _ Vb) as (Yb & Mb & Db).
  unfold Datetime.lt, toordinal.
  rewrite orb_true_iff, andb_true_iff, orb_true_iff, andb_true_iff.
  rewrite !Z.ltb_lt, !Z.eqb_eq.
  intros [Hy | [Ey [Hm | [Em Hd]]]].
  - pose proof (day_of_year_bounds _ _ _ Ma Da).
    pose proof (day_of_year_bounds _ _ _ Mb Db).
    pose proof (days_before_year_succ (year a)).
    pose proof (days_before_year_mono (year a + 1) (year b)).
    lia.
  - rewrite Ey in *.
    pose proof (days_before_month_step (year b) (month a) (month b)).
    lia.
  - rewrite Ey, Em. lia.
Qed.

Lemma lt_trichotomy a b :
  Datetime.lt a b = false -> a = b \/ Datetime.lt b a = true.
Proof.
  destruct a as [ya ma da], b as [yb mb db]. unfold Datetime.lt. cbn.
  intros H.
  destruct (Z.ltb_spec ya yb); [discriminate|].
  destruct (Z.ltb_spec yb ya); [right; reflexivity|].
  assert (ya = yb) by lia. subst yb.
  rewrite Z.eqb_refl in *. cbn in *.
  destruct (Z.ltb_spec ma mb); [discriminate|].
  destruct (Z.ltb_spec mb ma); [right; reflexivity|].
  assert (ma = mb) by lia. subst mb.
  rewrite Z.eqb_refl in *. cbn in *.
  destruct (Z.ltb_spec da db); [discriminate|].
  destruct (Z.ltb_spec db da); [right; reflexivity|].
  left. f_equal. lia.
Qed.

Lemma toordinal_le a b :
  valid a -> valid b -> Datetime.lt a b = false -> toordinal b <= toordinal a.
Proof.
  intros Va Vb H. destruct (lt_trichotomy _ _ H) as [-> | L]; [lia|].
  pose proof (toordinal_lt _ _ Vb Va L). lia.
Qed.

Lemma lt_irrefl a : Datetime.lt a a = false.
Proof.
  unfold Datetime.lt. rewrite !Z.ltb_irrefl, !Z.eqb_refl. reflexivity.
Qed.

Lemma days_in_month_other_year y y' m d :
  1 <= m <= 12 -> d <= days_in_month y m -> ~ (m = 2 /\ d = 29) ->
  d <= days_in_month y' m.
Proof.
  intros Hm Hd Hn.
  assert (C : m = 2 \/ m <> 2) by lia. destruct C as [-> | C].
  - revert Hd. month_tables. destruct (is_leap y), (is_leap y'); lia.
  - revert Hd. unfold days_in_month.
    replace (m =? 2) with false by (symmetry; apply Z.eqb_neq; exact C).
    cbn [andb]. trivial.
Qed.

Lemma february_29 y : 29 <= days_in_month y 2 <-> is_leap y = true.
Proof. month_tables. destruct (is_leap y); split; (lia || congruence || trivial). Qed.

Lemma leap_year_next y : is_leap y = true -> is_leap (y + 1) = false.
Proof.
  intros L. apply is_leap_spec in L.
  destruct (is_leap (y + 1)) eqn:E; [|reflexivity].
  apply is_leap_spec in E. Z.div_mod_to_equations. lia.
Qed.

Lemma calculate_unfold self birth name :
  _calculate_next_birthday self birth name =
  match replace_year birth (year (today self)) with
  | Raise _ => None
  | Ok this =>
      match (if Datetime.lt this (today self)
             then replace_year birth (year (today self) + 1)
             else Ok this) with
      | Raise _ => None
      | Ok next =>
          Some {| person_name := name;
                  birth_date := isoformat birth;
                  next_birthday := isoformat next;
                  age := year next - year birth;
                  days_until := sub_days next (today self) |}
      end
  end.
Proof.
  unfold _calculate_next_birthday, try_except, bind.
  destruct (replace_year birth (year (today self))) as [this|e]; [|reflexivity].
  destruct (if Datetime.lt this (today self)
            then replace_year birth (year (today self) + 1) else Ok this);
    reflexivity.
Qed.

Lemma replace_year_ok birth y :
  valid birth -> 1 <= y <= 9999 ->
  (leap_day birth && negb (is_leap y))%bool = false ->
  replace_year birth y = Ok (mkdate y (month birth) (day birth)).
Proof.
  intros Vb Hy H. destruct (valid_inv _ Vb) as (Yb & Mb & Db).
  apply make_ok; [lia | exact Mb |]. split; [lia|].
  unfold leap_day in H.
  destruct (Z.eqb_spec (month birth) 2) as [M|M]; cbn [andb] in H.
  - destruct (Z.eqb_spec (day birth) 29) as [D|D]; cbn [andb] in H.
    + apply negb_false_iff in H. rewrite M, D. apply february_29. exact H.
    + eapply days_in_month_other_year; [exact Mb | apply Db | lia].
  - eapply days_in_month_other_year; [exact Mb | apply Db | lia].
Qed.

Lemma replace_year_leap_day_fails birth y :
  leap_day birth = true -> is_leap y = false ->
  exists e, replace_year birth y = Raise e.
Proof.
  unfold leap_day. rewrite andb_true_iff, !Z.eqb_eq. intros [M D] L.
  apply make_fails. rewrite M, D. intros (_ & _ & _ & H).
  apply february_29 in H. congruence.
Qed.

Lemma replace_year_past_max birth y :
  9999 < y -> exists e, replace_year birth y = Raise e.
Proof. intros H. apply make_fails. lia. Qed.

(** C3, amended: for every valid birth date and every today, the
    calculator either returns the record of the contract or returns
    [None], and it returns [None] exactly on the days of
    [no_occurrence]: a February 29 birth date in a year that is not a
    leap year or after the February 29 of a leap year, and a birthday
    already past in the year 9999.  On every other day the record's
    [next_birthday] is the birth date moved to the current year when that
    day is not before today and to the next year otherwise, its
    [days_until] is the distance in days from today to it, never negative
    and zero exactly on the birthday, and its [age] is the difference of
    the two years. *)
Theorem calculate_next_birthday_correct self birth name :
  valid birth -> valid (today self) ->
  (no_occurrence (today self) birth = false ->
   next_birthday_contract self birth name)
  /\ (no_occurrence (today self) birth = true ->
      _calculate_next_birthday self birth name = None).
Proof.
  intros Vb Vt.
  destruct (valid_inv _ Vt) as (Yt & Mt & Dt).
  unfold no_occurrence, already_past, this_year_birthday, MAXYEAR.
  set (cy := year (today self)) in *.
  assert (Et : today self = mkdate cy (month (today self)) (day (today self)))
    by (subst cy; destruct (today self); reflexivity).
  split.
  - intros No. apply orb_false_iff in No. destruct No as [NoLeap NoMax].
    assert (R0 : replace_year birth cy = Ok (mkdate cy (month birth) (day birth))).
    { apply replace_year_ok; [exact Vb | lia |].
      destruct (leap_day birth); [|reflexivity].
      cbn [andb] in *. apply orb_false_iff in NoLeap. apply NoLeap. }
    assert (V0 : valid (mkdate cy (month birth) (day birth))) by exact R0.
    unfold next_birthday_contract.
    rewrite calculate_unfold. fold cy. rewrite R0.
    unfold next_occurrence, this_year_birthday. fold cy.
    destruct (Datetime.lt (mkdate cy (month birth) (day birth)) (today self)) eqn:L.
    + cbn [andb] in NoMax. apply Z.eqb_neq in NoMax.
      assert (NL : leap_day birth = false).
      { destruct (leap_day birth); [|reflexivity].
        cbn [andb] in NoLeap. rewrite orb_true_r in NoLeap. discriminate. }
      assert (R1 : replace_year birth (cy + 1)
                   = Ok (mkdate (cy + 1) (month birth) (day birth))).
      { apply replace_year_ok; [exact Vb | lia |]. rewrite NL. reflexivity. }
      assert (V1 : valid (mkdate (cy + 1) (month birth) (day birth))) by exact R1.
      rewrite R1. eexists. split; [reflexivity|]. cbn.
      assert (L' : Datetime.lt (today self)
                     (mkdate (cy + 1) (month birth) (day birth)) = true).
      { unfold Datetime.lt. cbn. fold cy.
        replace (cy <? cy + 1) with true by (symmetry; apply Z.ltb_lt; lia).
        reflexivity. }
      pose proof (toordinal_lt _ _ Vt V1 L') as O.
      unfold sub_days.
      do 4 (split; [reflexivity|]). split; [lia|]. split; [|reflexivity].
      split; [lia|].
      intros [Em Ed]. rewrite Et, <- Em, <- Ed, lt_irrefl in L. discriminate.
    + eexists. split; [reflexivity|]. cbn.
      pose proof (toordinal_le _ _ V0 Vt L) as O.
      unfold sub_days.
      do 4 (split; [reflexivity|]). split; [lia|]. split; [|reflexivity].
      split.
      * intros Z0. destruct (lt_trichotomy _ _ L) as [E | L'].
        -- rewrite <- E. cbn. split; reflexivity.
        -- pose proof (toordinal_lt _ _ Vt V0 L'). lia.
      * intros [Em Ed]. rewrite <- Em, <- Ed, <- Et. lia.
  - intros No. rewrite calculate_unfold. fold cy.
    destruct (leap_day birth) eqn:LD, (is_leap cy) eqn:LY; cbn [andb negb orb] in No.
    + (* a February 29 in a leap year, already past *)
      rewrite (replace_year_ok birth cy Vb) by (lia || (rewrite LD, LY; reflexivity)).
      destruct (Datetime.lt (mkdate cy (month birth) (day birth)) (today self));
        [|cbn in No; discriminate No].
      destruct (replace_year_leap_day_fails birth (cy + 1) LD (leap_year_next _ LY))
        as (e & ->).
      reflexivity.
    + (* a February 29 in a year that is not a leap year *)
      destruct (replace_year_leap_day_fails birth cy LD LY) as (e & ->).
      reflexivity.
    + apply andb_true_iff in No. destruct No as [L Max]. apply Z.eqb_eq in Max.
      rewrite (replace_year_ok birth cy Vb) by (lia || (rewrite LD; reflexivity)).
      rewrite L.
      destruct (replace_year_past_max birth (cy + 1)) as (e & ->); [lia|].
      reflexivity.
    + apply andb_true_iff in No. destruct No as [L Max]. apply Z.eqb_eq in Max.
      rewrite (replace_year_ok birth cy Vb) by (lia || (rewrite LD; reflexivity)).
      rewrite L.
      destruct (replace_year_past_max birth (cy + 1)) as (e & ->); [lia|].
      reflexivity.
Qed.

(** C3 as stated, for every valid birth date and every today, fails:
    a person born on February 29, 2000 gets no record on June 1, 2023. *)
Lemma calculate_next_birthday_leap_day_fails :
  ~ (forall self birth name,
       valid birth -> valid (today self) ->
       next_birthday_contract self birth name).
Proof.
  intros H.
  destruct (H (api_on [] (mkdate 2023 6 1))
              (mkdate 2000 2 29) "Ann Lee") as (r & E & _).
  - reflexivity.
  - reflexivity.
  - vm_compute in E. discriminate E.
Qed.

Lemma calculate_next_birthday_correct_witness :
  next_birthday_contract
    (api_on [] (mkdate 2024 7 1)) (mkdate 1990 7 10) "Ann Lee"
  /\ next_birthday_contract
       (api_on [] (mkdate 2024 2 10)) (mkdate 2000 2 29) "Ann Lee"
  /\ next_birthday_contract
       (api_on [] (mkdate 9999 6 1)) (mkdate 1990 12 31) "Ann Lee"
  /\ _calculate_next_birthday
       (api_on [] (mkdate 2024 3 1)) (mkdate 2000 2 29) "Ann Lee" = None
  /\ _calculate_next_birthday
       (api_on [] (mkdate 9999 6 1)) (mkdate 1990 5 31) "Ann Lee" = None.
Proof.
  split; [|split; [|split; [|split]]].
  - apply (proj1 (calculate_next_birthday_correct
                    (api_on [] (mkdate 2024 7 1)) (mkdate 1990 7 10) "Ann Lee"
                    eq_refl eq_refl)).
    reflexivity.
  - apply (proj1 (calculate_next_birthday_correct
                    (api_on [] (mkdate 2024 2 10)) (mkdate 2000 2 29) "Ann Lee"
                    eq_refl eq_refl)).
    reflexivity.
  - apply (proj1 (calculate_next_birthday_correct
                    (api_on [] (mkdate 9999 6 1)) (mkdate 1990 12 31) "Ann Lee"
                    eq_refl eq_refl)).
    reflexivity.
  - apply (proj2 (calculate_next_birthday_correct
                    (api_on [] (mkdate 2024 3 1)) (mkdate 2000 2 29) "Ann Lee"
                    eq_refl eq_refl)).
    reflexivity.
  - apply (proj2 (calculate_next_birthday_correct
                    (api_on [] (mkdate 9999 6 1)) (mkdate 1990 5 31) "Ann Lee"
                    eq_refl eq_refl)).
    reflexivity.
Defined.

(** C10: for a birth date on February 29 the calculator returns a record
    exactly when the current year is a leap year and its February 29 is
    not before today.  Otherwise it returns [None], in particular when
    the current year is not a leap year and the next one is, and the main
    loop then appends nothing for a person with that birth date. *)
Theorem leap_day_birthday self birth name :
  valid birth -> valid (today self) ->
  month birth = 2 -> day birth = 29 ->
  let cy := year (today self) in
  let upcoming :=
    (is_leap cy && negb (Datetime.lt (mkdate cy 2 29) (today self)))%bool in
  ((exists r, _calculate_next_birthday self birth name = Some r)
   <-> upcoming = true)
  /\ (upcoming = false ->
      _calculate_next_birthday self birth name = None
      /\ forall person,
           _extract_birth_date self person = Some birth ->
           birthday_of self person = None)
  /\ (is_leap cy = false -> is_leap (cy + 1) = true ->
      _calculate_next_birthday self birth name = None).
Proof.
  intros Vb Vt Em Ed cy upcoming.
  destruct (valid_inv _ Vt) as (Yt & Mt & Dt). fold cy in Yt.
  assert (Calc : forall nm,
            _calculate_next_birthday self birth nm
            = if upcoming
              then Some {| person_name := nm;
                           birth_date := isoformat birth;
                           next_birthday := isoformat (mkdate cy 2 29);
                           age := cy - year birth;
                           days_until := sub_days (mkdate cy 2 29) (today self) |}
              else None).
  { intros nm. rewrite calculate_unfold. fold cy.
    unfold replace_year, upcoming. rewrite Em, Ed.
    destruct (is_leap cy) eqn:L; cbn [andb].
    - rewrite make_ok; [| lia | lia | split; [lia | apply february_29; exact L]].
      destruct (Datetime.lt (mkdate cy 2 29) (today self)); cbn [negb].
      + destruct (make_fails (cy + 1) 2 29) as [e ->]; [|reflexivity].
        intros (_ & _ & _ & D). apply february_29 in D.
        rewrite (leap_year_next _ L) in D. discriminate.
      + reflexivity.
    - destruct (make_fails cy 2 29) as [e ->]; [|reflexivity].
      intros (_ & _ & _ & D). apply february_29 in D. congruence. }
  split; [|split].
  - rewrite Calc. destruct upcoming; split.
    + reflexivity.
    + intros _. eexists. reflexivity.
    + intros [r H]. discriminate H.
    + discriminate.
  - intros U. split.
    + rewrite Calc, U. reflexivity.
    + intros person E. unfold birthday_of. rewrite E.
      destruct (truthy (VStr (surname_filter self))
                && negb (contains (lower (surname_filter self))
                           (lower (_get_person_name self person))))%bool;
        [reflexivity|].
      destruct (_is_person_alive self person); [|reflexivity].
      rewrite Calc, U. reflexivity.
  - intros L _. rewrite Calc. unfold upcoming. rewrite L. reflexivity.
Qed.

Lemma leap_day_birthday_witness :
  (exists r,
     _calculate_next_birthday
       (api_on [] (mkdate 2024 2 10))
       (mkdate 2000 2 29) "Ann Lee" = Some r)
  /\ _calculate_next_birthday
       (api_on [] (mkdate 2023 2 10))
       (mkdate 2000 2 29) "Ann Lee" = None.
Proof.
  split.
  - apply (leap_day_birthday
             (api_on [] (mkdate 2024 2 10))
             (mkdate 2000 2 29) "Ann Lee");
      reflexivity.
  - apply (leap_day_birthday
             (api_on [] (mkdate 2023 2 10))
             (mkdate 2000 2 29) "Ann Lee");
      reflexivity.
Defined.

(* ================================================================== *)
(** * Life status *)
(* ================================================================== *)

Lemma eq_int_minus_one v : eq_int v (-1) = true <-> v = VInt (-1).
Proof.
  destruct v as [ | [|] | n | s | l | d]; cbn; split; intros H;
    try discriminate; try reflexivity.
  - apply Z.eqb_eq in H. now subst.
  - injection H as ->. reflexivity.
Qed.

Lemma is_person_alive_record self entries :
  _is_person_alive self (VDict entries)
  = eq_int (death_ref_index_of entries) (-1).
Proof.
  unfold _is_person_alive, death_ref_index_of. cbn.
  destruct (lookup "death_ref_index" entries) as [v|]; cbn.
  - destruct (eq_int v (-1)); reflexivity.
  - reflexivity.
Qed.

(** C5: on a record, [_is_person_alive] is true exactly when
    [death_ref_index] is -1, a missing entry counting as -1; any other
    value, 0 included, gives false; the answer does not depend on the
    upstream service, so not on whether the death event can be fetched;
    and when reading the field raises, the answer is true. *)
Theorem is_person_alive_iff self entries :
  (_is_person_alive self (VDict entries) = true
   <-> death_ref_index_of entries = VInt (-1))
  /\ (lookup "death_ref_index" entries = None ->
      _is_person_alive self (VDict entries) = true)
  /\ (lookup "death_ref_index" entries = Some (VInt 0) ->
      _is_person_alive self (VDict entries) = false)
  /\ (forall self' person,
        _is_person_alive self' person = _is_person_alive self person)
  /\ (forall person e,
        get person "death_ref_index" (VInt (-1)) = Raise e ->
        _is_person_alive self person = true).
Proof.
  split; [|split; [|split; [|split]]].
  - rewrite is_person_alive_record. apply eq_int_minus_one.
  - intros H. rewrite is_person_alive_record.
    unfold death_ref_index_of. rewrite H. reflexivity.
  - intros H. rewrite is_person_alive_record.
    unfold death_ref_index_of. rewrite H. reflexivity.
  - intros self' person. reflexivity.
  - intros person e H. unfold _is_person_alive. rewrite H. reflexivity.
Qed.

Lemma is_person_alive_iff_witness :
  _is_person_alive
    (api_on [] (mkdate 2024 7 1))
    (VDict [("death_ref_index", VInt 0)]) = false
  /\ _is_person_alive
       (api_on [] (mkdate 2024 7 1))
       (VDict [("handle", VStr "I0001")]) = true
  /\ _is_person_alive
       (api_on [] (mkdate 2024 7 1))
       VNone = true.
Proof.
  split; [|split].
  - apply (is_person_alive_iff (api_on [] (mkdate 2024 7 1)) [("death_ref_index", VInt 0)]);
      reflexivity.
  - apply (is_person_alive_iff (api_on [] (mkdate 2024 7 1)) [("handle", VStr "I0001")]);
      reflexivity.
  - eapply (is_person_alive_iff (api_on [] (mkdate 2024 7 1)) []);
      reflexivity.
Defined.

(* ================================================================== *)
(** * Strings *)
(* ================================================================== *)

Lemma append_nil_r (s : string) : s ++ EmptyString = s.
Proof. induction s as [|c t IH]; cbn; [reflexivity | now rewrite IH]. Qed.

Lemma append_assoc (a b c : string) : (a ++ b) ++ c = a ++ (b ++ c).
Proof. induction a as [|x t IH]; cbn; [reflexivity | now rewrite IH]. Qed.

Lemma prefix_one c s :
  String.prefix (String c EmptyString) s = true ->
  exists t, s = String c t.
Proof.
  destruct s as [|d t]; cbn; [discriminate|].
  destruct (ascii_dec c d) as [->|]; [|discriminate].
  intros _. now exists t.
Qed.

Lemma has_char_cons c d t :
  has_char c (String d t) = (Ascii.eqb d c || has_char c t)%bool.
Proof.
  unfold has_char. cbn [contains String.prefix].
  destruct (ascii_dec c d) as [->|N].
  - rewrite Ascii.eqb_refl. destruct t; reflexivity.
  - replace (Ascii.eqb d c) with false
      by (symmetry; apply Ascii.eqb_neq; congruence).
    reflexivity.
Qed.

Lemma has_char_app c a b :
  has_char c (a ++ b) = (has_char c a || has_char c b)%bool.
Proof.
  induction a as [|d t IH]; cbn [append].
  - reflexivity.
  - rewrite !has_char_cons, IH. now rewrite orb_assoc.
Qed.

Lemma split_not_nil sep s : split sep s <> [].
Proof.
  destruct s as [|c t]; cbn; [discriminate|].
  destruct (Ascii.eqb c sep); [discriminate|].
  destruct (split sep t); discriminate.
Qed.

Lemma split_no_separator sep s :
  Forall (fun seg => has_char sep seg = false) (split sep s).
Proof.
  induction s as [|c t IH]; cbn.
  - constructor; [reflexivity | constructor].
  - destruct (Ascii.eqb c sep) eqn:E.
    + constructor; [reflexivity | exact IH].
    + destruct (split sep t) as [|h r].
      * constructor; [|constructor]. rewrite has_char_cons, E. reflexivity.
      * inversion IH as [|? ? Hh Hr]; subst. constructor; [|exact Hr].
        rewrite has_char_cons, E. exact Hh.
Qed.

Lemma join_cons sep a b l :
  join sep (a :: b :: l) = a ++ sep ++ join sep (b :: l).
Proof. reflexivity. Qed.

Lemma join_split sep s :
  join (String sep EmptyString) (split sep s) = s.
Proof.
  induction s as [|c t IH]; cbn [split].
  - reflexivity.
  - pose proof (split_not_nil sep t) as N.
    destruct (Ascii.eqb c sep) eqn:E.
    + apply Ascii.eqb_eq in E. subst c.
      destruct (split sep t) as [|h r]; [congruence|].
      rewrite <- IH. reflexivity.
    + destruct (split sep t) as [|h r]; [congruence|].
      rewrite <- IH. destruct r as [|h' r']; reflexivity.
Qed.

Lemma join_last sep (l : list string) :
  l <> [] ->
  exists pre,
    join (String sep EmptyString) l = pre ++ last l EmptyString
    /\ (pre = EmptyString \/ ends_with sep pre).
Proof.
  induction l as [|a l IH]; [congruence|]. intros _.
  destruct l as [|b l'].
  - exists EmptyString. cbn. split; [reflexivity | now left].
  - destruct IH as (pre & E & P); [discriminate|].
    exists (a ++ String sep EmptyString ++ pre). split.
    + rewrite join_cons, E. change (last (a :: b :: l') EmptyString) with (last (b :: l') EmptyString).
      now rewrite !append_assoc.
    + right. destruct P as [-> | (p & ->)].
      * exists a. now rewrite append_nil_r.
      * exists (a ++ String sep EmptyString ++ p). now rewrite !append_assoc.
Qed.

Lemma rstrip_by_spec p s :
  exists trailing,
    s = rstrip_by p s ++ trailing
    /\ (forall c, In c (list_ascii_of_string trailing) -> p c = true)
    /\ (forall q c, rstrip_by p s = q ++ String c EmptyString -> p c = false).
Proof.
  induction s as [|a t (tr & E & A & B)]; cbn [rstrip_by].
  - exists EmptyString. split; [reflexivity|]. split.
    + intros c [].
    + intros [|? ?] c H; discriminate H.
  - destruct (rstrip_by p t) as [|b t'] eqn:R.
    + destruct (p a) eqn:Pa.
      * exists (String a tr). cbn in E. split; [cbn; now rewrite <- E|]. split.
        -- intros c [<- | H]; [exact Pa | now apply A].
        -- intros [|? ?] c H; discriminate H.
      * exists tr. cbn in E. split; [cbn; now rewrite <- E|]. split; [exact A|].
        intros [|x [|? ?]] c H; cbn in H; try discriminate H.
        injection H as <-. exact Pa.
    + exists tr. split; [cbn [append] in *; now rewrite <- E|]. split; [exact A|].
      intros [|x q] c H; cbn in H; [discriminate H|].
      injection H as <- H. now apply (B q c).
Qed.

(** [last_segment] computes the final path segment. *)
Lemma last_segment_spec s : final_segment_of s (last_segment s).
Proof.
  unfold final_segment_of, last_segment, rstrip.
  destruct (rstrip_by_spec (Ascii.eqb "/") s) as (tr & E & A & B).
  remember (rstrip_by (Ascii.eqb "/") s) as body eqn:Hb. clear Hb.
  destruct (join_last "/" (split "/" body) (split_not_nil _ _)) as (pre & J & P).
  rewrite join_split in J.
  exists body, tr, pre. repeat split.
  - exact E.
  - intros c H. apply A in H. apply Ascii.eqb_eq in H. now subst.
  - intros (q & H). apply B in H. now rewrite Ascii.eqb_refl in H.
  - exact J.
  - exact P.
  - pose proof (split_no_separator "/" body) as F.
    rewrite Forall_forall in F. apply F.
    destruct (split "/" body) as [|h r] eqn:S; [now apply split_not_nil in S|].
    clear. generalize h. induction r as [|x r IH]; intros h0; cbn.
    + now left.
    + right. apply IH.
Qed.

(* ================================================================== *)
(** * The event reference resolver *)
(* ================================================================== *)

Lemma found_truthy entries key v : found entries key = Some v -> truthy v = true.
Proof.
  unfold found. destruct (lookup key entries) as [x|]; [|discriminate].
  destruct (truthy x) eqn:T; [|discriminate]. intros [= <-]. exact T.
Qed.

Lemma candidate_truthy entries v : candidate entries = Some v -> truthy v = true.
Proof.
  unfold candidate.
  destruct (found entries "ref") eqn:R.
  { intros [= <-]. eapply found_truthy; eassumption. }
  destruct (found entries "handle") eqn:H.
  { intros [= <-]. eapply found_truthy; eassumption. }
  apply found_truthy.
Qed.

Lemma get_found entries key :
  get (VDict entries) key VNone
  = Ok (match lookup key entries with Some x => x | None => VNone end).
Proof. reflexivity. Qed.

(** The loop over the three keys computes the candidate. *)
Lemma first_candidate_dict entries :
  first_candidate (VDict entries) ["ref"; "handle"; "hlink"]
  = Ok (match candidate entries with Some v => v | None => VNone end).
Proof.
  unfold candidate, found. cbn [first_candidate]. rewrite !get_found. cbn [bind].
  destruct (lookup "ref" entries) as [a|]; cbn [truthy].
  - destruct (truthy a); [reflexivity|].
    destruct (lookup "handle" entries) as [b|]; cbn [truthy].
    + destruct (truthy b); [reflexivity|].
      destruct (lookup "hlink" entries) as [c|]; cbn [truthy]; [|reflexivity].
      destruct (truthy c); reflexivity.
    + destruct (lookup "hlink" entries) as [c|]; cbn [truthy]; [|reflexivity].
      destruct (truthy c); reflexivity.
  - destruct (lookup "handle" entries) as [b|]; cbn [truthy].
    + destruct (truthy b); [reflexivity|].
      destruct (lookup "hlink" entries) as [c|]; cbn [truthy]; [|reflexivity].
      destruct (truthy c); reflexivity.
    + destruct (lookup "hlink" entries) as [c|]; cbn [truthy]; [|reflexivity].
      destruct (truthy c); reflexivity.
Qed.

Lemma resolve_dict entries :
  _resolve_event_handle (VDict entries)
  = match candidate entries with
    | Some (VStr s) => Ok (Some (if contains "/" s then last_segment s else s))
    | _ => Ok None
    end.
Proof.
  unfold _resolve_event_handle.
  destruct entries as [|e es]; [reflexivity|].
  cbn [truthy negb]. rewrite first_candidate_dict. cbn [bind].
  destruct (candidate (e :: es)) as [v|] eqn:C; [|reflexivity].
  rewrite (candidate_truthy _ _ C).
  destruct v; cbn; try reflexivity.
  destruct (contains "/" s); reflexivity.
Qed.

(** C9: the resolver takes the first value found under [ref], [handle],
    [hlink]; a string without separator is returned as it is, a string
    with a separator gives its final path segment after the trailing
    separators are dropped, and the answer is [None] when the value found
    is not a string, when nothing is found, and when the reference is
    absent or empty. *)
Theorem resolve_event_handle_spec entries :
  (forall s, candidate entries = Some (VStr s) ->
     contains "/" s = false ->
     _resolve_event_handle (VDict entries) = Ok (Some s))
  /\ (forall s, candidate entries = Some (VStr s) ->
        contains "/" s = true ->
        exists seg,
          _resolve_event_handle (VDict entries) = Ok (Some seg)
          /\ final_segment_of s seg)
  /\ (forall v, candidate entries = Some v ->
        is_str v = false ->
        _resolve_event_handle (VDict entries) = Ok None)
  /\ (candidate entries = None ->
      _resolve_event_handle (VDict entries) = Ok None)
  /\ _resolve_event_handle VNone = Ok None
  /\ _resolve_event_handle (VDict []) = Ok None.
Proof.
  rewrite resolve_dict.
  split; [|split; [|split; [|split; [|split]]]].
  - intros s -> ->. reflexivity.
  - intros s -> ->. exists (last_segment s). split; [reflexivity|].
    apply last_segment_spec.
  - intros v -> S. destruct v; try reflexivity. discriminate S.
  - intros ->. reflexivity.
  - reflexivity.
  - reflexivity.
Qed.

Lemma resolve_event_handle_spec_witness :
  exists seg,
    _resolve_event_handle
      (VDict [("ref", VStr EmptyString); ("hlink", VStr "/api/events/E0001//")])
    = Ok (Some seg)
    /\ final_segment_of "/api/events/E0001//" seg.
Proof.
  apply (resolve_event_handle_spec
           [("ref", VStr EmptyString); ("hlink", VStr "/api/events/E0001//")]);
    reflexivity.
Defined.

(* ================================================================== *)
(** * The date heuristic parser *)
(* ================================================================== *)

(** The two tests of the loop body are the plausibility test. *)
Lemma plausibility_test y m d (A : Type) (yes no : A) :
  (if y <? 100 then no
   else if negb ((1 <=? m) && (m <=? 12) && (1 <=? d) && (d <=? 31))
        then no else yes)
  = if plausible (y, m, d) then yes else no.
Proof.
  unfold plausible. rewrite Z.ltb_antisym.
  destruct (100 <=? y), (1 <=? m), (m <=? 12), (1 <=? d), (d <=? 31);
    reflexivity.
Qed.

(** The loop over [combinations], on a list of three integers. *)
Lemma try_combinations_triple a b c :
  try_except (try_combinations [a; b; c] combinations) (fun _ => None)
  = first_plausible_date a b c.
Proof.
  unfold first_plausible_date, orderings, combinations, calendar_date.
  cbn [try_combinations item nth_error bind find].
  rewrite !plausibility_test.
  destruct (plausible (c, b, a)).
  { destruct (Datetime.make c b a); reflexivity. }
  destruct (plausible (a, b, c)).
  { destruct (Datetime.make a b c); reflexivity. }
  destruct (plausible (a, c, b)).
  { destruct (Datetime.make a c b); reflexivity. }
  reflexivity.
Qed.

Lemma plausible_spec y m d :
  plausible (y, m, d) = true <-> 100 <= y /\ 1 <= m <= 12 /\ 1 <= d <= 31.
Proof.
  unfold plausible. rewrite !andb_true_iff, !Z.leb_le. tauto.
Qed.

Lemma calendar_date_some y m d :
  (exists dt, calendar_date (y, m, d) = Some dt)
  <-> 1 <= y <= 9999 /\ 1 <= m <= 12 /\ 1 <= d <= days_in_month y m.
Proof.
  unfold calendar_date. split.
  - intros [dt H]. destruct (Datetime.make y m d) as [x|e] eqn:E; [|discriminate].
    destruct (make_inv _ _ _ _ E) as (_ & Hy & Hm & Hd). auto.
  - intros (Hy & Hm & Hd). rewrite make_ok by assumption. eauto.
Qed.

Lemma calendar_date_none y m d :
  calendar_date (y, m, d) = None
  <-> ~ (1 <= y <= 9999 /\ 1 <= m <= 12 /\ 1 <= d <= days_in_month y m).
Proof.
  rewrite <- calendar_date_some. split.
  - intros H [dt E]. congruence.
  - intros H. destruct (calendar_date (y, m, d)) as [dt|]; [|reflexivity].
    exfalso. apply H. eauto.
Qed.

(** When the first plausible reading is not a calendar date, no other
    reading is both plausible and a calendar date: the parser loses
    nothing by stopping there. *)
Lemma first_reading_decides a b c :
  first_plausible_date a b c = None <-> no_reading_gives_a_date a b c.
Proof.
  unfold first_plausible_date, no_reading_gives_a_date, orderings. split.
  - cbn [find].
    destruct (plausible (c, b, a)) eqn:P1; [|destruct (plausible (a, b, c)) eqn:P2;
      [|destruct (plausible (a, c, b)) eqn:P3]];
      intros N ymd [<- | [<- | [<- | []]]] P; try congruence.
    + apply plausible_spec in P1, P. lia.
    + apply plausible_spec in P1, P. lia.
    + apply plausible_spec in P2, P.
      apply calendar_date_none. apply calendar_date_none in N.
      intros (Hy & Hm & Hd). apply N.
      pose proof (days_in_month_bounds a b). lia.
  - intros H.
    destruct (find plausible [(c, b, a); (a, b, c); (a, c, b)]) as [ymd|] eqn:F;
      [|reflexivity].
    apply find_some in F. destruct F as [I P]. now apply H.
Qed.

Lemma parse_dateval_list items :
  _parse_dateval (VList items)
  = match firstn 3 items with
    | [x; y; z] =>
        match int_conversion x, int_conversion y, int_conversion z with
        | Some a, Some b, Some c => first_plausible_date a b c
        | _, _, _ => None
        end
    | _ => None
    end.
Proof.
  unfold _parse_dateval, slice_to. cbn [Z.ltb Z.compare Z.to_nat].
  change (Pos.to_nat 3) with 3%nat.
  destruct items as [|x [|y [|z rest]]]; try reflexivity.
  cbn [firstn List.length ints]. unfold int_conversion.
  change (Z.of_nat 3 <? 3) with false. cbv iota.
  destruct (int x) as [a|]; cbn [bind]; [|reflexivity].
  destruct (int y) as [b|]; cbn [bind]; [|reflexivity].
  destruct (int z) as [c|]; cbn [bind]; [|reflexivity].
  apply try_combinations_triple.
Qed.

(** C2: on a triple of integers the parser reads the fields as
    (day, month, year), then (year, month, day), then (year, day, month),
    and answers with the calendar date of the first reading whose year
    is at least 100, month between 1 and 12 and day between 1 and 31;
    later readings are not consulted. *)
Theorem parse_dateval_first_plausible a b c :
  _parse_dateval (VList [VInt a; VInt b; VInt c]) = first_plausible_date a b c
  /\ orderings a b c = [(c, b, a); (a, b, c); (a, c, b)]
  /\ (plausible (c, b, a) = true ->
      _parse_dateval (VList [VInt a; VInt b; VInt c]) = calendar_date (c, b, a))
  /\ (plausible (c, b, a) = false -> plausible (a, b, c) = true ->
      _parse_dateval (VList [VInt a; VInt b; VInt c]) = calendar_date (a, b, c))
  /\ (plausible (c, b, a) = false -> plausible (a, b, c) = false ->
      plausible (a, c, b) = true ->
      _parse_dateval (VList [VInt a; VInt b; VInt c]) = calendar_date (a, c, b))
  /\ (plausible (c, b, a) = false -> plausible (a, b, c) = false ->
      plausible (a, c, b) = false ->
      _parse_dateval (VList [VInt a; VInt b; VInt c]) = None).
Proof.
  rewrite parse_dateval_list. cbn [firstn int_conversion int].
  unfold first_plausible_date, orderings. cbn [find].
  split; [reflexivity|]. split; [reflexivity|].
  split; [|split; [|split]].
  - intros ->. reflexivity.
  - intros -> ->. reflexivity.
  - intros -> -> ->. reflexivity.
  - intros -> -> ->. reflexivity.
Qed.

Lemma parse_dateval_first_plausible_witness :
  _parse_dateval (VList [VInt 15; VInt 6; VInt 1990])
  = calendar_date (1990, 6, 15)
  /\ _parse_dateval (VList [VInt 1990; VInt 6; VInt 15])
     = calendar_date (1990, 6, 15)
  /\ _parse_dateval (VList [VInt 1990; VInt 15; VInt 6])
     = calendar_date (1990, 6, 15)
  /\ _parse_dateval (VList [VInt 15; VInt 6; VInt 90]) = None.
Proof.
  split; [|split; [|split]].
  - apply (parse_dateval_first_plausible 15 6 1990); reflexivity.
  - apply (parse_dateval_first_plausible 1990 6 15); reflexivity.
  - apply (parse_dateval_first_plausible 1990 15 6); reflexivity.
  - apply (parse_dateval_first_plausible 15 6 90); reflexivity.
Defined.

Lemma parse_sequence_list (A : Type) (to_int : A -> result Z) items :
  parse_sequence to_int items
  = match firstn 3 items with
    | [x; y; z] =>
        match converted to_int x, converted to_int y, converted to_int z with
        | Some a, Some b, Some c => first_plausible_date a b c
        | _, _, _ => None
        end
    | _ => None
    end.
Proof.
  unfold parse_sequence, slice_to. cbn [Z.ltb Z.compare Z.to_nat].
  change (Pos.to_nat 3) with 3%nat.
  destruct items as [|x [|y [|z rest]]]; try reflexivity.
  cbn [firstn List.length convert_all]. unfold converted.
  change (Z.of_nat 3 <? 3) with false. cbv iota.
  destruct (to_int x) as [a|]; cbn [bind]; [|reflexivity].
  destruct (to_int y) as [b|]; cbn [bind]; [|reflexivity].
  destruct (to_int z) as [c|]; cbn [bind]; [|reflexivity].
  apply try_combinations_triple.
Qed.

(** C8, amended: whatever [int()] does on the elements, the parser
    answers [None] on a list exactly when the list has fewer than three
    elements, or [int()] raises on one of the first three, or no reading
    of the three numbers [int()] returned is both plausible and a
    calendar date; elements after the third are ignored.  The statement
    is for every element type and every conversion [to_int] in the place
    of [int()], and [_parse_dateval] on a list is that parser at [int]. *)
Theorem parse_dateval_none_iff :
  (forall (A : Type) (to_int : A -> result Z),
     unparseable_when (parse_sequence to_int) (converted to_int))
  /\ (forall (A : Type) (to_int : A -> result Z) x y z rest,
        parse_sequence to_int (x :: y :: z :: rest)
        = parse_sequence to_int [x; y; z])
  /\ (forall items, _parse_dateval (VList items) = parse_sequence int items).
Proof.
  split; [|split].
  - intros A to_int items. rewrite parse_sequence_list.
    destruct items as [|x [|y [|z rest]]]; cbn [firstn List.length].
    1-3: split; [intros _; left; lia | reflexivity].
    destruct (converted to_int x) as [a|] eqn:Ex.
    2:{ split; [|reflexivity]. intros _. right. left.
        exists x. split; [now left | exact Ex]. }
    destruct (converted to_int y) as [b|] eqn:Ey.
    2:{ split; [|reflexivity]. intros _. right. left.
        exists y. split; [right; now left | exact Ey]. }
    destruct (converted to_int z) as [c|] eqn:Ez.
    2:{ split; [|reflexivity]. intros _. right. left.
        exists z. split; [right; right; now left | exact Ez]. }
    rewrite first_reading_decides. split.
    + intros N. right. right. exists a, b, c. split; [|exact N].
      cbn [map]. now rewrite Ex, Ey, Ez.
    + intros [L | [(v & I & E) | (a' & b' & c' & M & N)]].
      * lia.
      * destruct I as [<- | [<- | [<- | []]]]; congruence.
      * cbn [map] in M. rewrite Ex, Ey, Ez in M.
        injection M as <- <- <-. exact N.
  - intros A to_int x y z rest. now rewrite !parse_sequence_list.
  - intros items. rewrite parse_dateval_list, parse_sequence_list. reflexivity.
Qed.

(** A float among the elements is truncated by [int()], a float that is
    no number makes the list unparseable. *)
Example parse_sequence_floats :
  parse_sequence int_of_number [Float 159 10; Int 6; Int 1990]
  = Some (mkdate 1990 6 15)
  /\ parse_sequence int_of_number [Int 1990; Float (-159) 10; Int 6] = None
  /\ parse_sequence int_of_number [NaN; Int 6; Int 1990] = None.
Proof. repeat split; reflexivity. Qed.

(** C8 as stated, with "is not an integer" read on the elements as they
    come, fails: the strings "15", "6", "1990" are parsed as June 15,
    1990. *)
Lemma parse_dateval_numeric_strings :
  ~ unparseable_exactly_when as_integer.
Proof.
  intros H.
  assert (E : _parse_dateval (VList [VStr "15"; VStr "6"; VStr "1990"]) = None).
  { apply H. right. left. exists (VStr "15"). split; [now left | reflexivity]. }
  vm_compute in E. discriminate E.
Qed.

(* ================================================================== *)
(** * Sorting and truncation *)
(* ================================================================== *)

Lemma insert_by_days_perm x l : Permutation (x :: l) (insert_by_days x l).
Proof.
  induction l as [|y t IH]; cbn.
  - apply Permutation_refl.
  - destruct (days_until x <=? days_until y).
    + apply Permutation_refl.
    + eapply perm_trans; [apply perm_swap|]. now apply perm_skip.
Qed.

Lemma sort_by_days_until_perm l : Permutation l (sort_by_days_until l).
Proof.
  induction l as [|x t IH]; cbn.
  - apply perm_nil.
  - eapply perm_trans; [apply perm_skip, IH | apply insert_by_days_perm].
Qed.

Lemma insert_by_days_hd x y l :
  days_le y x -> HdRel days_le y l -> HdRel days_le y (insert_by_days x l).
Proof.
  intros Hyx H. destruct l as [|z t]; cbn.
  - now constructor.
  - destruct (days_until x <=? days_until z).
    + now constructor.
    + constructor. now inversion H.
Qed.

Lemma insert_by_days_sorted x l :
  Sorted days_le l -> Sorted days_le (insert_by_days x l).
Proof.
  induction 1 as [|y t St IH Hd]; cbn.
  - repeat constructor.
  - destruct (Z.leb_spec (days_until x) (days_until y)) as [L|L].
    + constructor; [now constructor | now constructor].
    + constructor; [exact IH|].
      apply insert_by_days_hd; [unfold days_le; lia | exact Hd].
Qed.

Lemma sort_by_days_until_sorted l : Sorted days_le (sort_by_days_until l).
Proof.
  induction l as [|x t IH]; cbn; [constructor | now apply insert_by_days_sorted].
Qed.

(** Insertion never moves a record across one with the same key. *)
Lemma insert_by_days_filter k x l :
  filter (has_days k) (insert_by_days x l) = filter (has_days k) (x :: l).
Proof.
  induction l as [|y t IH]; [reflexivity|]. cbn [insert_by_days].
  destruct (Z.leb_spec (days_until x) (days_until y)) as [L|L]; [reflexivity|].
  cbn [filter] in *. rewrite IH. unfold has_days.
  destruct (Z.eqb_spec (days_until x) k) as [Ex|Ex];
    destruct (Z.eqb_spec (days_until y) k) as [Ey|Ey]; try reflexivity.
  lia.
Qed.

Lemma sort_by_days_until_stable k l :
  filter (has_days k) (sort_by_days_until l) = filter (has_days k) l.
Proof.
  induction l as [|x t IH]; [reflexivity|]. cbn [sort_by_days_until].
  rewrite insert_by_days_filter. cbn [filter]. now rewrite IH.
Qed.

Lemma firstn_sorted n (l : list BirthdayResult) :
  Sorted days_le l -> Sorted days_le (firstn n l).
Proof.
  revert l. induction n as [|n IH]; intros l S; cbn; [constructor|].
  destruct l as [|x t]; [constructor|].
  inversion S as [|? ? St Hd]; subst. constructor; [now apply IH|].
  destruct t as [|y t'], n as [|n']; cbn; constructor. now inversion Hd.
Qed.

Lemma slice_to_length {A} (xs : list A) limit :
  0 <= limit -> Z.of_nat (List.length (slice_to xs limit)) <= limit.
Proof.
  intros H. unfold slice_to.
  replace (limit <? 0) with false by (symmetry; apply Z.ltb_ge; exact H).
  rewrite length_firstn. lia.
Qed.

Lemma sort_then_slice collected limit :
  stable_sorted_prefix collected
    (slice_to (sort_by_days_until collected) limit).
Proof.
  exists (sort_by_days_until collected). split; [|split; [|split]].
  - apply sort_by_days_until_perm.
  - apply sort_by_days_until_sorted.
  - intros k. apply sort_by_days_until_stable.
  - unfold slice_to. eexists. reflexivity.
Qed.

Lemma nothing_collected : stable_sorted_prefix [] [].
Proof.
  exists []. split; [constructor|]. split; [constructor|].
  split; [reflexivity|]. now exists 0%nat.
Qed.

(** Every run of [get_birthdays] returns either nothing or the sorted,
    truncated list of what the main loop collected. *)
Lemma get_birthdays_cases self limit :
  get_birthdays self limit = []
  \/ exists all_people persons,
       get_people self = Ok all_people
       /\ iter all_people = Ok persons
       /\ get_birthdays self limit
          = slice_to
              (sort_by_days_until
                 (collect_birthdays self (filter (_has_birth_date self) persons)))
              limit.
Proof.
  unfold get_birthdays.
  destruct (get_people self) as [all_people|e] eqn:P; [|now left].
  destruct (truthy all_people); cbn [negb]; [|now left].
  destruct (iter all_people) as [persons|e] eqn:I; cbn [bind try_except]; [|now left].
  destruct (diagnostics self persons false) as [[]|e]; cbn [bind]; [|now left].
  destruct (filter (_has_birth_date self) persons) as [|sample rest] eqn:F;
    [now left|].
  destruct (log_sample sample) as [[]|e]; cbn [bind]; [|now left].
  destruct (log_named_person self (sample :: rest)) as [o|e]; cbn [bind];
    [|now left].
  right. exists all_people, persons. rewrite F. auto.
Qed.

(* ================================================================== *)
(** * The pipeline: order, limit and failure of the list request *)
(* ================================================================== *)

(** C6, amended: for every limit that is not negative, the list
    [get_birthdays] returns is in ascending order of [days_until], is
    the beginning of the stable arrangement of what the main loop
    collected, and has at most [limit] entries; the default limit is
    50. *)
Theorem get_birthdays_sorted_limited self limit :
  0 <= limit ->
  sorted_and_limited self limit
  /\ default_limit = 50
  /\ Z.of_nat (List.length (get_birthdays self default_limit)) <= 50.
Proof.
  intros H.
  assert (A : forall lim, 0 <= lim -> sorted_and_limited self lim).
  { intros lim Hl. unfold sorted_and_limited.
    destruct (get_birthdays_cases self lim)
      as [-> | (all_people & persons & P & I & ->)].
    - split; [constructor|]. split; [|cbn; lia].
      exists []. split; [now left | apply nothing_collected].
    - split; [|split].
      + unfold slice_to. apply firstn_sorted, sort_by_days_until_sorted.
      + eexists. split; [|apply sort_then_slice].
        right. exists all_people, persons. auto.
      + now apply slice_to_length. }
  split; [now apply A|]. split; [reflexivity|].
  apply (A default_limit). unfold default_limit. lia.
Qed.

(** C6 as stated, for every limit, fails: with the limit -1 the last
    record is dropped and the one that remains is more than -1. *)
Lemma get_birthdays_negative_limit :
  ~ (forall self limit, sorted_and_limited self limit).
Proof.
  intros H.
  destruct (H (api_on family (mkdate 2024 7 1)) (-1)) as (_ & _ & L).
  vm_compute in L. apply L. reflexivity.
Qed.

Lemma get_birthdays_sorted_limited_witness :
  sorted_and_limited (api_on family (mkdate 2024 7 1)) 1.
Proof.
  apply (get_birthdays_sorted_limited (api_on family (mkdate 2024 7 1)) 1).
  lia.
Defined.

(** C7: when the request for the list of people fails, whatever the
    error, [get_birthdays] returns the empty list: the result is a
    list, so nothing is raised to the caller.  The same holds when the
    answer is empty or [None]. *)
Theorem get_birthdays_fail_soft self limit :
  (forall e, get_people self = Raise e -> get_birthdays self limit = [])
  /\ (forall all_people,
        get_people self = Ok all_people -> truthy all_people = false ->
        get_birthdays self limit = [])
  /\ (get_people self = Ok (VList []) -> get_birthdays self limit = [])
  /\ (get_people self = Ok VNone -> get_birthdays self limit = []).
Proof.
  unfold get_birthdays.
  split; [|split; [|split]].
  - intros e ->. reflexivity.
  - intros all_people -> ->. reflexivity.
  - intros ->. reflexivity.
  - intros ->. reflexivity.
Qed.

Lemma get_birthdays_fail_soft_witness :
  get_birthdays (api_on [] (mkdate 2024 7 1)) 50 = []
  /\ get_birthdays (api_on [("people/", VList [])] (mkdate 2024 7 1)) 50 = [].
Proof.
  split.
  - apply (get_birthdays_fail_soft (api_on [] (mkdate 2024 7 1)) 50)
      with (e := RequestException).
    reflexivity.
  - apply (proj1 (proj2 (proj2
             (get_birthdays_fail_soft
                (api_on [("people/", VList [])] (mkdate 2024 7 1)) 50)))).
    reflexivity.
Defined.

(* ================================================================== *)
(** * The person classifier *)
(* ================================================================== *)

(** A reference that is not a record either counts as absent or makes
    the resolver raise. *)
Lemma resolve_not_dict v :
  is_dict v = false ->
  _resolve_event_handle v
  = if truthy v then Raise AttributeError else Ok None.
Proof.
  unfold _resolve_event_handle.
  destruct v; cbn; intros H; try reflexivity; try discriminate H.
  - destruct b; reflexivity.
  - destruct (n =? 0); reflexivity.
  - destruct (String.eqb s EmptyString); reflexivity.
  - destruct items; reflexivity.
Qed.

Lemma resolve_reference_shaped v :
  reference_shaped v = true -> exists r, _resolve_event_handle v = Ok r.
Proof.
  unfold reference_shaped. destruct (is_dict v) eqn:D.
  - intros _. destruct v; try discriminate D. rewrite resolve_dict.
    destruct (candidate entries) as [[]|]; eauto.
  - cbn. intros T. rewrite (resolve_not_dict _ D).
    destruct (truthy v); [discriminate T | eauto].
Qed.

(** A resolved handle has no separator left, so cleaning it again in
    [_fetch_event_date] changes nothing. *)
Lemma resolved_handle_clean event_ref h :
  _resolve_event_handle event_ref = Ok (Some h) -> contains "/" h = false.
Proof.
  destruct (is_dict event_ref) eqn:D.
  - destruct event_ref; try discriminate D. rewrite resolve_dict.
    destruct (candidate entries) as [[]|]; try discriminate.
    destruct (contains "/" s) eqn:C; intros [= <-]; [|exact C].
    destruct (last_segment_spec s) as (? & ? & ? & _ & _ & _ & _ & _ & N).
    exact N.
  - rewrite (resolve_not_dict _ D). destruct (truthy event_ref); discriminate.
Qed.

Lemma fetch_birth_event_date self h :
  h <> EmptyString -> contains "/" h = false ->
  _fetch_event_date self (Some h) true
  = match _get self ("events/" ++ h) with
    | Ok event_data =>
        if is_birth_typed event_data then date_of_event event_data else None
    | Raise _ => None
    end.
Proof.
  intros Hne Hc. unfold _fetch_event_date, handle_truthy. cbn [truthy].
  replace (String.eqb h EmptyString) with false
    by (symmetry; apply String.eqb_neq; exact Hne).
  cbn [negb]. rewrite Hc.
  destruct (_get self ("events/" ++ h)) as [ev|e]; cbn [bind try_except];
    [|reflexivity].
  unfold is_birth_typed, type_label, date_of_event.
  destruct (get ev "type" (VDict [])) as [ty|e]; cbn [bind]; [|reflexivity].
  destruct (type_string_of ty) as [ts|e]; cbn [bind]; [|reflexivity].
  destruct ts; cbn [lower_of bind]; try reflexivity.
  destruct (contains "birth" (lower s)); cbn [negb]; [|reflexivity].
  destruct (get ev "date" (VDict [])) as [di|e]; cbn [bind]; [|reflexivity].
  destruct (get di "dateval" (VList [])) as [dv|e]; cbn [bind]; reflexivity.
Qed.

(** One candidate of [_extract_birth_date]: unless the resolver raises,
    the step yields the birth date the reference leads to. *)
Lemma extract_step self event_ref :
  (event_handle <- _resolve_event_handle event_ref ;;
   if negb (handle_truthy event_handle) then Ok None
   else Ok (_fetch_event_date self event_handle true))
  = match _resolve_event_handle event_ref with
    | Ok _ => Ok (birth_date_of_reference self event_ref)
    | Raise e => Raise e
    end.
Proof.
  unfold birth_date_of_reference.
  destruct (_resolve_event_handle event_ref) as [[h|]|e] eqn:R; cbn [bind];
    try reflexivity.
  unfold handle_truthy. cbn [truthy].
  destruct (String.eqb_spec h EmptyString) as [->|N]; cbn [negb]; [reflexivity|].
  rewrite fetch_birth_event_date;
    [reflexivity | exact N | now apply (resolved_handle_clean event_ref)].
Qed.

Lemma extract_step_direct self event_ref :
  (event_handle <- _resolve_event_handle event_ref ;;
   if handle_truthy event_handle
   then Ok (_fetch_event_date self event_handle true)
   else Ok None)
  = match _resolve_event_handle event_ref with
    | Ok _ => Ok (birth_date_of_reference self event_ref)
    | Raise e => Raise e
    end.
Proof.
  rewrite <- extract_step.
  destruct (_resolve_event_handle event_ref) as [eh|e]; cbn [bind]; [|reflexivity].
  destruct (handle_truthy eh); reflexivity.
Qed.

Lemma birth_date_of_reference_iff self event_ref d :
  birth_date_of_reference self event_ref = Some d <-> birth_event self event_ref d.
Proof.
  unfold birth_date_of_reference, birth_event, is_birth_typed. split.
  - destruct (_resolve_event_handle event_ref) as [[h|]|e]; try discriminate.
    destruct (String.eqb_spec h EmptyString) as [->|N]; [discriminate|].
    destruct (_get self ("events/" ++ h)) as [ev|e] eqn:G; [|discriminate].
    destruct (type_label ev) as [label|] eqn:L; [|discriminate].
    destruct (contains "birth" (lower label)) eqn:B; [|discriminate].
    intros D. exists h, ev, label. auto 10.
  - intros (h & ev & label & -> & N & -> & -> & -> & D).
    replace (String.eqb h EmptyString) with false
      by (symmetry; apply String.eqb_neq; exact N).
    exact D.
Qed.

(** The scan of the list. *)
Lemma scan_sound self refs d :
  for_each
    (fun event_ref =>
       event_handle <- _resolve_event_handle event_ref ;;
       if negb (handle_truthy event_handle) then Ok None
       else Ok (_fetch_event_date self event_handle true))
    refs = Ok (Some d) ->
  first_birth_date self refs = Some d.
Proof.
  induction refs as [|r rest IH]; cbn [for_each first_birth_date].
  - discriminate.
  - rewrite extract_step.
    destruct (_resolve_event_handle r) as [eh|e]; cbn [bind]; [|discriminate].
    destruct (birth_date_of_reference self r) as [d'|]; [congruence | exact IH].
Qed.

Lemma scan_complete self refs :
  Forall (fun r => reference_shaped r = true) refs ->
  for_each
    (fun event_ref =>
       event_handle <- _resolve_event_handle event_ref ;;
       if negb (handle_truthy event_handle) then Ok None
       else Ok (_fetch_event_date self event_handle true))
    refs = Ok (first_birth_date self refs).
Proof.
  induction 1 as [|r rest Hr _ IH]; cbn [for_each first_birth_date].
  - reflexivity.
  - rewrite extract_step.
    destruct (resolve_reference_shaped _ Hr) as [eh ->]. cbn [bind].
    destruct (birth_date_of_reference self r); [reflexivity | exact IH].
Qed.

Lemma birth_date_not_dict self v :
  is_dict v = false -> birth_date_of_reference self v = None.
Proof.
  intros D. unfold birth_date_of_reference. rewrite (resolve_not_dict _ D).
  destruct (truthy v); reflexivity.
Qed.

Lemma first_birth_date_not_dict self xs :
  Forall (fun v => is_dict v = false) xs -> first_birth_date self xs = None.
Proof.
  induction 1 as [|v rest D _ IH]; cbn; [reflexivity|].
  now rewrite (birth_date_not_dict _ _ D).
Qed.

Lemma chars_not_dict s : Forall (fun v => is_dict v = false) (chars s).
Proof. unfold chars. apply Forall_forall. intros v H. apply in_map_iff in H.
  destruct H as (c & <- & _). reflexivity.
Qed.

Lemma keys_not_dict (entries : list (string * value)) :
  Forall (fun v => is_dict v = false) (map (fun kv => VStr (fst kv)) entries).
Proof. apply Forall_forall. intros v H. apply in_map_iff in H.
  destruct H as (kv & <- & _). reflexivity.
Qed.

Lemma seq_item_in xs i x : seq_item xs i = Ok x -> In x xs.
Proof.
  unfold seq_item. destruct i; try discriminate.
  - cbn. destruct (_ <? 0); [discriminate|].
    destruct (nth_error xs _) eqn:N; [|discriminate].
    intros [= <-]. eapply nth_error_In; eassumption.
  - cbn. destruct (_ <? 0); [discriminate|].
    destruct (nth_error xs _) eqn:N; [|discriminate].
    intros [= <-]. eapply nth_error_In; eassumption.
Qed.

(** What the subscript yields once the index test has passed: on a list
    the entry at that position; on anything else nothing a birth date
    can come from. *)
Lemma getitem_in_range refs_value index x :
  index_in_range index refs_value = Ok true ->
  getitem refs_value index = Ok x ->
  (exists refs n,
     refs_value = VList refs /\ as_number index = Ok n
     /\ 0 <= n < Z.of_nat (List.length refs)
     /\ nth_error refs (Z.to_nat n) = Some x)
  \/ exists s, refs_value = VStr s.
Proof.
  unfold index_in_range.
  destruct (as_number index) as [n|e] eqn:A; cbn [bind]; [|discriminate].
  destruct (Z.leb_spec 0 n) as [P|P]; [|discriminate].
  destruct refs_value as [ | b | k | s | refs | d]; cbn [len bind getitem];
    try discriminate.
  - intros _ G. right. now exists s.
  - intros [= L] G. left. exists refs, n. apply Z.ltb_lt in L.
    repeat split; try lia.
    unfold seq_item in G.
    destruct index; try discriminate A; rewrite A in G; cbn [bind] in G;
      (replace (n <? 0) with false in G by (symmetry; apply Z.ltb_ge; lia));
      (replace (n <? 0) with false in G by (symmetry; apply Z.ltb_ge; lia));
      destruct (nth_error refs (Z.to_nat n)); congruence.
  - intros _ G. destruct index; try discriminate A; discriminate G.
Qed.

Lemma search_order_list entries refs :
  match lookup "event_ref_list" entries with
  | Some v => v
  | None => VList []
  end = VList refs ->
  event_refs_of (VDict entries) = refs
  /\ forall n,
       as_number (match lookup "birth_ref_index" entries with
                  | Some v => v
                  | None => VInt (-1)
                  end) = Ok n ->
       search_order (VDict entries)
       = if ((0 <=? n) && (n <? Z.of_nat (List.length refs)))%bool
         then match nth_error refs (Z.to_nat n) with
              | Some x => x :: refs
              | None => refs
              end
         else refs.
Proof.
  intros E.
  assert (R : event_refs_of (VDict entries) = refs).
  { unfold event_refs_of.
    destruct (lookup "event_ref_list" entries) as [v|].
    - now subst v.
    - now injection E as <-. }
  split; [exact R|]. intros n A.
  unfold search_order, birth_position. rewrite R.
  destruct (lookup "birth_ref_index" entries) as [v|].
  - rewrite A.
    destruct ((0 <=? n) && (n <? Z.of_nat (List.length refs)))%bool; reflexivity.
  - cbn in A. injection A as <-. reflexivity.
Qed.

Lemma try_except_some {A} (m : result (option A)) (d : A) :
  try_except m (fun _ => None) = Some d -> m = Ok (Some d).
Proof. destruct m as [o|e]; cbn; [now intros -> | discriminate]. Qed.

(** Whatever [_extract_birth_date] returns is the date of the first
    candidate, in the search order, that is birth-typed and has a
    parseable date. *)
Lemma extract_sound self person d :
  _extract_birth_date self person = Some d ->
  first_birth_date self (search_order person) = Some d.
Proof.
  unfold _extract_birth_date. intros H. apply try_except_some in H. revert H.
  destruct person as [ | | | | | entries]; try discriminate.
  cbn [get bind].
  set (index := match lookup "birth_ref_index" entries with
                | Some x => x | None => VInt (-1) end).
  set (refs_value := match lookup "event_ref_list" entries with
                     | Some x => x | None => VList [] end).
  assert (Scan : forall xs,
            iter refs_value = Ok xs ->
            first_birth_date self xs = Some d ->
            exists refs, refs_value = VList refs /\ xs = refs).
  { intros xs I F. destruct refs_value as [ | b | k | s | refs | dd];
      try discriminate I; injection I as <-.
    - now rewrite (first_birth_date_not_dict _ _ (chars_not_dict s)) in F.
    - eauto.
    - now rewrite (first_birth_date_not_dict _ _ (keys_not_dict dd)) in F. }
  destruct (index_in_range index refs_value) as [[|]|e] eqn:V;
    cbn [bind]; [| |discriminate].
  - destruct (getitem refs_value index) as [x|e] eqn:G; cbn [bind];
      [|discriminate].
    rewrite extract_step_direct.
    destruct (_resolve_event_handle x) as [eh|e]; cbn [bind]; [|discriminate].
    destruct (getitem_in_range _ _ _ V G)
      as [(refs & n & E & A & Rg & N) | (s & E)].
    + destruct (search_order_list entries refs E) as [_ S].
      rewrite (S n A).
      replace ((0 <=? n) && (n <? Z.of_nat (List.length refs)))%bool with true
        by (symmetry; apply andb_true_iff; split;
            [apply Z.leb_le | apply Z.ltb_lt]; lia).
      rewrite N. cbn [first_birth_date].
      destruct (birth_date_of_reference self x) as [p|]; [congruence|].
      destruct (iter refs_value) as [xs|e] eqn:I; cbn [bind]; [|discriminate].
      intros F. apply scan_sound in F.
      destruct (Scan xs eq_refl F) as (refs' & E' & ->). congruence.
    + destruct (birth_date_of_reference self x) as [p|] eqn:B.
      * exfalso. rewrite E in G. cbn [getitem] in G. apply seq_item_in in G.
        pose proof (chars_not_dict s) as F. rewrite Forall_forall in F.
        rewrite (birth_date_not_dict _ _ (F _ G)) in B. discriminate.
      * destruct (iter refs_value) as [xs|e] eqn:I; cbn [bind]; [|discriminate].
        intros F. apply scan_sound in F.
        destruct (Scan xs eq_refl F) as (refs & E' & _). congruence.
  - destruct (iter refs_value) as [xs|e] eqn:I; cbn [bind]; [|discriminate].
    intros F. apply scan_sound in F.
    destruct (Scan xs eq_refl F) as (refs & E & ->).
    destruct (search_order_list entries refs E) as [_ S].
    unfold index_in_range in V.
    destruct (as_number index) as [n|e] eqn:A; [|discriminate V].
    rewrite (S n A). cbn [bind] in V. rewrite E in V. cbn [len bind] in V.
    destruct (0 <=? n); cbn [andb]; [|exact F].
    injection V as ->. exact F.
Qed.

(** On a record of the expected shape nothing raises on the way, and
    the method computes exactly the first birth date of the search
    order. *)
Lemma extract_complete self person :
  well_formed_person person ->
  _extract_birth_date self person = first_birth_date self (search_order person).
Proof.
  intros (entries & -> & Hi & Hr & Hs).
  assert (E : exists refs,
            match lookup "event_ref_list" entries with
            | Some v => v | None => VList [] end = VList refs).
  { destruct Hr as [-> | (refs & ->)]; eauto. }
  destruct E as (refs & E).
  assert (A : exists n,
            match lookup "birth_ref_index" entries with
            | Some v => v | None => VInt (-1) end = VInt n).
  { destruct Hi as [-> | (n & ->)]; eauto. }
  destruct A as (n & A).
  destruct (search_order_list entries refs E) as [R S].
  rewrite R in Hs. rewrite (S n) by (rewrite A; reflexivity).
  unfold _extract_birth_date. cbn [get bind]. rewrite E, A.
  unfold index_in_range. cbn [as_number bind len].
  destruct (Z.leb_spec 0 n) as [P|P]; cbn [andb bind].
  - destruct (Z.ltb_spec n (Z.of_nat (List.length refs))) as [L|L].
    + cbn [getitem seq_item as_number bind].
      replace (n <? 0) with false by (symmetry; apply Z.ltb_ge; lia).
      replace (n <? 0) with false by (symmetry; apply Z.ltb_ge; lia).
      destruct (nth_error refs (Z.to_nat n)) as [x|] eqn:N.
      2:{ apply nth_error_None in N. lia. }
      cbn [bind]. rewrite extract_step_direct.
      assert (Hx : reference_shaped x = true).
      { rewrite Forall_forall in Hs. apply Hs. eapply nth_error_In; eassumption. }
      destruct (resolve_reference_shaped _ Hx) as [eh ->]. cbn [bind first_birth_date].
      destruct (birth_date_of_reference self x); [reflexivity|].
      cbn [iter bind]. now rewrite scan_complete.
    + cbn [iter bind]. now rewrite scan_complete.
  - cbn [iter bind]. now rewrite scan_complete.
Qed.

Lemma first_birth_date_in self refs d :
  first_birth_date self refs = Some d ->
  exists event_ref, In event_ref refs /\ birth_date_of_reference self event_ref = Some d.
Proof.
  induction refs as [|r rest IH]; cbn; [discriminate|].
  destruct (birth_date_of_reference self r) as [p|] eqn:B.
  - intros [= ->]. exists r. auto.
  - intros F. destruct (IH F) as (x & I & H). exists x. auto.
Qed.

Lemma search_order_in person event_ref :
  In event_ref (search_order person) -> In event_ref (event_refs_of person).
Proof.
  unfold search_order.
  destruct (birth_position person) as [i|]; [|trivial].
  destruct (nth_error (event_refs_of person) i) as [x|] eqn:N; [|trivial].
  intros [<- | H]; [eapply nth_error_In; eassumption | exact H].
Qed.

(** C4: a date [_extract_birth_date] returns is the date of the first
    candidate of the search order that resolves to a birth-typed event
    with a parseable date, so it never comes from an event whose label
    lacks "birth"; when no candidate is of that kind the method returns
    [None], whatever [_has_birth_date] answered; and on a record of the
    expected shape the method returns exactly that first date. *)
Theorem extract_birth_date_first_birth_event self person :
  (forall d,
     _extract_birth_date self person = Some d ->
     first_birth_date self (search_order person) = Some d
     /\ exists event_ref,
          In event_ref (search_order person) /\ birth_event self event_ref d)
  /\ (first_birth_date self (search_order person) = None ->
      _extract_birth_date self person = None)
  /\ (well_formed_person person ->
      _extract_birth_date self person
      = first_birth_date self (search_order person))
  /\ (forall event_ref d,
        birth_date_of_reference self event_ref = Some d
        <-> birth_event self event_ref d).
Proof.
  split; [|split; [|split]].
  - intros d H. apply extract_sound in H. split; [exact H|].
    destruct (first_birth_date_in _ _ _ H) as (x & I & B).
    exists x. split; [exact I | now apply birth_date_of_reference_iff].
  - intros N. destruct (_extract_birth_date self person) as [d|] eqn:E;
      [|reflexivity].
    apply extract_sound in E. congruence.
  - apply extract_complete.
  - intros event_ref d. apply birth_date_of_reference_iff.
Qed.

Lemma extract_birth_date_first_birth_event_witness :
  _has_birth_date (api_on family (mkdate 2024 7 1))
    (person_record "Bob" "Lee" ["E0002"; "E0001"] 0 (-1)) = true
  /\ first_birth_date (api_on family (mkdate 2024 7 1))
       (search_order (person_record "Bob" "Lee" ["E0002"; "E0001"] 0 (-1)))
     = Some (mkdate 1990 7 10)
  /\ _extract_birth_date (api_on family (mkdate 2024 7 1))
       (person_record "Dee" "Lee" ["E0002"] 0 (-1)) = None.
Proof.
  split; [reflexivity|]. split.
  - apply (proj1 (extract_birth_date_first_birth_event
                    (api_on family (mkdate 2024 7 1))
                    (person_record "Bob" "Lee" ["E0002"; "E0001"] 0 (-1)))).
    reflexivity.
  - apply (proj1 (proj2 (extract_birth_date_first_birth_event
                           (api_on family (mkdate 2024 7 1))
                           (person_record "Dee" "Lee" ["E0002"] 0 (-1))))).
    reflexivity.
Defined.

(* ================================================================== *)
(** * The pipeline: who gets a record *)
(* ================================================================== *)

Lemma collect_birthdays_in self people_data r :
  In r (collect_birthdays self people_data) ->
  exists person, In person people_data /\ birthday_of self person = Some r.
Proof.
  induction people_data as [|p rest IH]; cbn; [contradiction|].
  destruct (birthday_of self p) as [info|] eqn:B.
  - intros [<- | H].
    + exists p. auto.
    + destruct (IH H) as (q & I & E). exists q. auto.
  - intros H. destruct (IH H) as (q & I & E). exists q. auto.
Qed.

Lemma slice_to_in {A} (xs : list A) n x : In x (slice_to xs n) -> In x xs.
Proof.
  unfold slice_to. intros H.
  rewrite <- (firstn_skipn (Z.to_nat
                (if n <? 0 then Z.max 0 (Z.of_nat (List.length xs) + n) else n)) xs).
  apply in_or_app. now left.
Qed.

(** A record is appended only for a person whose birth date was
    extracted and who counts as alive. *)
Lemma birthday_of_some self person r :
  birthday_of self person = Some r ->
  exists birth,
    _extract_birth_date self person = Some birth
    /\ _is_person_alive self person = true
    /\ _calculate_next_birthday self birth (_get_person_name self person) = Some r.
Proof.
  unfold birthday_of.
  destruct (truthy (VStr (surname_filter self))
            && negb (contains (lower (surname_filter self))
                       (lower (_get_person_name self person))))%bool;
    [discriminate|].
  destruct (_extract_birth_date self person) as [birth|]; [|discriminate].
  destruct (_is_person_alive self person); [|discriminate].
  intros H. exists birth. auto.
Qed.

(** C1: every record [get_birthdays] returns was appended for a person
    of the fetched list who has an event reference that resolves to a
    birth-typed event with a parseable date, and whose
    [death_ref_index] is -1 (missing counting as -1); for a person with
    [death_ref_index] 3 the loop appends nothing, whatever the birth
    date. *)
Theorem birthdays_only_for_living_with_birth_event self limit :
  (forall r,
     In r (get_birthdays self limit) ->
     exists all_people persons entries birth,
       get_people self = Ok all_people
       /\ iter all_people = Ok persons
       /\ In (VDict entries) persons
       /\ birthday_of self (VDict entries) = Some r
       /\ (exists event_ref,
             In event_ref (event_refs_of (VDict entries))
             /\ birth_event self event_ref birth)
       /\ death_ref_index_of entries = VInt (-1))
  /\ (forall entries,
        lookup "death_ref_index" entries = Some (VInt 3) ->
        birthday_of self (VDict entries) = None).
Proof.
  split.
  - intros r H.
    destruct (get_birthdays_cases self limit)
      as [E | (all_people & persons & P & I & E)]; rewrite E in H;
      [contradiction|].
    apply slice_to_in in H.
    apply (Permutation_in _ (Permutation_sym (sort_by_days_until_perm _))) in H.
    apply collect_birthdays_in in H. destruct H as (person & Hp & B).
    apply filter_In in Hp. destruct Hp as [Hp _].
    destruct (birthday_of_some _ _ _ B) as (birth & X & L & _).
    apply extract_sound in X.
    destruct (first_birth_date_in _ _ _ X) as (event_ref & Io & Bd).
    destruct person as [ | | | | | entries]; try contradiction.
    exists all_people, persons, entries, birth.
    repeat split; try assumption.
    + exists event_ref. split; [now apply search_order_in|].
      now apply birth_date_of_reference_iff.
    + rewrite is_person_alive_record in L. now apply eq_int_minus_one.
  - intros entries D. unfold birthday_of.
    rewrite is_person_alive_record. unfold death_ref_index_of. rewrite D.
    destruct (truthy (VStr (surname_filter self))
              && negb (contains (lower (surname_filter self))
                         (lower (_get_person_name self (VDict entries)))))%bool;
      [reflexivity|].
    destruct (_extract_birth_date self (VDict entries)); reflexivity.
Qed.

Lemma birthdays_only_for_living_with_birth_event_witness :
  birthday_of (api_on family (mkdate 2024 7 1))
    (person_record "Cy" "Lee" ["E0001"; "E0002"] 0 3) = None
  /\ exists all_people persons entries birth,
       get_people (api_on family (mkdate 2024 7 1)) = Ok all_people
       /\ iter all_people = Ok persons
       /\ In (VDict entries) persons
       /\ birthday_of (api_on family (mkdate 2024 7 1)) (VDict entries)
          = Some {| person_name := "Ann Lee";
                    birth_date := "1990-07-10";
                    next_birthday := "2024-07-10";
                    age := 34;
                    days_until := 9 |}
       /\ (exists event_ref,
             In event_ref (event_refs_of (VDict entries))
             /\ birth_event (api_on family (mkdate 2024 7 1)) event_ref birth)
       /\ death_ref_index_of entries = VInt (-1).
Proof.
  split.
  - apply (proj2 (birthdays_only_for_living_with_birth_event
                    (api_on family (mkdate 2024 7 1)) 50)).
    reflexivity.
  - apply (proj1 (birthdays_only_for_living_with_birth_event
                    (api_on family (mkdate 2024 7 1)) 50)).
    left. reflexivity.
Defined.

(* ================================================================== *)
(** * Further properties of the resolver and the date parser *)
(* ================================================================== *)

(** X1: a handle the resolver returns has no separator left, so the
    second clean-up in [_fetch_event_date] leaves it as it is, and
    resolving a reference that carries that handle under [ref] gives
    the same handle again. *)
Theorem resolve_event_handle_idempotent event_ref h :
  _resolve_event_handle event_ref = Ok (Some h) ->
  contains "/" h = false
  /\ (if contains "/" h then last_segment h else h) = h
  /\ (h <> EmptyString ->
      _resolve_event_handle (VDict [("ref", VStr h)]) = Ok (Some h)).
Proof.
  intros R. pose proof (resolved_handle_clean _ _ R) as C.
  split; [exact C|]. split; [now rewrite C|].
  intros N. rewrite resolve_dict. unfold candidate, found. cbn [lookup].
  cbn [String.eqb Ascii.eqb Bool.eqb]. cbn [truthy].
  replace (String.eqb h EmptyString) with false
    by (symmetry; apply String.eqb_neq; exact N).
  cbn [negb]. now rewrite C.
Qed.

Lemma resolve_event_handle_idempotent_witness :
  _resolve_event_handle (VDict [("ref", VStr "E0001")]) = Ok (Some "E0001").
Proof.
  apply (proj2 (proj2 (resolve_event_handle_idempotent
                         (VDict [("hlink", VStr "/api/events/E0001/")])
                         "E0001" eq_refl))).
  discriminate.
Defined.

Lemma extract_unfold_no_index self entries refs :
  lookup "birth_ref_index" entries = None ->
  lookup "event_ref_list" entries = Some (VList refs) ->
  _extract_birth_date self (VDict entries)
  = try_except
      (for_each
         (fun event_ref =>
            event_handle <- _resolve_event_handle event_ref ;;
            if negb (handle_truthy event_handle) then Ok None
            else Ok (_fetch_event_date self event_handle true))
         refs)
      (fun _ => None).
Proof.
  intros Hi Hr. unfold _extract_birth_date. cbn [get bind]. rewrite Hi, Hr.
  reflexivity.
Qed.

(** X2: a reference that is true but is not a mapping (a bare string,
    a number, a list) makes the resolver raise [AttributeError]; when
    such a reference is the first entry of a person's list and no birth
    index is given, [_has_birth_date] answers false and
    [_extract_birth_date] answers [None], whatever the later entries
    are. *)
Theorem malformed_reference_hides_the_rest self entries bad rest :
  is_dict bad = false -> truthy bad = true ->
  lookup "birth_ref_index" entries = None ->
  lookup "event_ref_list" entries = Some (VList (bad :: rest)) ->
  _resolve_event_handle bad = Raise AttributeError
  /\ _has_birth_date self (VDict entries) = false
  /\ _extract_birth_date self (VDict entries) = None.
Proof.
  intros D T Hi Hr.
  assert (R : _resolve_event_handle bad = Raise AttributeError)
    by (rewrite (resolve_not_dict _ D), T; reflexivity).
  split; [exact R|]. split.
  - unfold _has_birth_date. cbn [get bind]. rewrite Hi, Hr.
    cbn [index_in_range as_number bind Z.leb Z.compare iter for_each].
    rewrite R. reflexivity.
  - rewrite (extract_unfold_no_index _ _ _ Hi Hr). cbn [for_each].
    rewrite R. reflexivity.
Qed.

Lemma malformed_reference_hides_the_rest_witness :
  _has_birth_date (api_on family (mkdate 2024 7 1))
    (VDict [("event_ref_list", VList [VStr "E0001"; VDict [("ref", VStr "E0001")]])])
  = false
  /\ _extract_birth_date (api_on family (mkdate 2024 7 1))
       (VDict [("event_ref_list", VList [VDict [("ref", VStr "E0001")]])])
     = Some (mkdate 1990 7 10).
Proof.
  split.
  - apply (proj1 (proj2 (malformed_reference_hides_the_rest
                           (api_on family (mkdate 2024 7 1))
                           [("event_ref_list",
                             VList [VStr "E0001"; VDict [("ref", VStr "E0001")]])]
                           (VStr "E0001") [VDict [("ref", VStr "E0001")]]
                           eq_refl eq_refl eq_refl eq_refl))).
  - reflexivity.
Defined.

Lemma first_plausible_date_some a b c d :
  first_plausible_date a b c = Some d ->
  valid d /\ 100 <= year d <= 9999
  /\ In (year d, month d, day d) (orderings a b c).
Proof.
  unfold first_plausible_date.
  destruct (find plausible (orderings a b c)) as [[[y m] dd]|] eqn:F;
    [|discriminate].
  apply find_some in F. destruct F as [I P].
  unfold calendar_date.
  destruct (Datetime.make y m dd) as [dt|e] eqn:M; [|discriminate].
  intros [= <-]. destruct (make_inv _ _ _ _ M) as (-> & Hy & Hm & Hd).
  apply plausible_spec in P. cbn [year month day].
  split; [exact M|]. split; [lia | exact I].
Qed.

Lemma parse_dateval_valid dateval d :
  _parse_dateval dateval = Some d -> valid d.
Proof.
  destruct dateval as [ | | | | items | ]; try discriminate.
  rewrite parse_dateval_list.
  destruct (firstn 3 items) as [|x [|y [|z [|w rest]]]]; try discriminate.
  destruct (int_conversion x), (int_conversion y), (int_conversion z);
    try discriminate.
  intros F. now destruct (first_plausible_date_some _ _ _ _ F).
Qed.

(** X3: a date [_parse_dateval] returns is a calendar date whose year is
    between 100 and 9999, and its year, month and day are one of the
    three readings of the first three entries as [int()] converts
    them. *)
Theorem parse_dateval_result_plausible dateval d :
  _parse_dateval dateval = Some d ->
  valid d
  /\ 100 <= year d <= 9999
  /\ exists x y z rest a b c,
       dateval = VList (x :: y :: z :: rest)
       /\ int x = Ok a /\ int y = Ok b /\ int z = Ok c
       /\ In (year d, month d, day d) (orderings a b c).
Proof.
  destruct dateval as [ | | | | items | ]; try discriminate.
  rewrite parse_dateval_list.
  destruct items as [|x [|y [|z rest]]]; try discriminate.
  cbn [firstn]. unfold int_conversion.
  destruct (int x) as [a|] eqn:Ex; [|discriminate].
  destruct (int y) as [b|] eqn:Ey; [|discriminate].
  destruct (int z) as [c|] eqn:Ez; [|discriminate].
  intros F. destruct (first_plausible_date_some _ _ _ _ F) as (V & Y & I).
  split; [exact V|]. split; [exact Y|].
  exists x, y, z, rest, a, b, c. auto 10.
Qed.

Lemma parse_dateval_result_plausible_witness :
  valid (mkdate 1990 6 15).
Proof.
  apply (parse_dateval_result_plausible
           (VList [VStr "15"; VInt 6; VInt 1990; VBool false]) (mkdate 1990 6 15)).
  reflexivity.
Defined.

(* ================================================================== *)
(** * The pre-filter and the extraction *)
(* ================================================================== *)

Lemma fetch_unfold self h require_birth :
  _fetch_event_date self (Some h) require_birth
  = if String.eqb h EmptyString then None
    else match _get self ("events/" ++ (if contains "/" h then last_segment h else h)) with
         | Ok event_data =>
             if (negb require_birth || is_birth_typed event_data)%bool
             then date_of_event event_data else None
         | Raise _ => None
         end.
Proof.
  unfold _fetch_event_date, handle_truthy. cbn [truthy].
  destruct (String.eqb h EmptyString); cbn [negb]; [reflexivity|].
  destruct (_get self _) as [ev|e]; cbn [bind try_except]; [|reflexivity].
  unfold is_birth_typed, type_label, date_of_event.
  destruct require_birth; cbn [negb orb bind].
  - destruct (get ev "type" (VDict [])) as [ty|e]; cbn [bind]; [|reflexivity].
    destruct (type_string_of ty) as [ts|e]; cbn [bind]; [|reflexivity].
    destruct ts; cbn [lower_of bind]; try reflexivity.
    destruct (contains "birth" (lower s)); cbn [negb]; [|reflexivity].
    destruct (get ev "date" (VDict [])) as [di|e]; cbn [bind]; [|reflexivity].
    destruct (get di "dateval" (VList [])) as [dv|e]; cbn [bind]; reflexivity.
  - destruct (get ev "date" (VDict [])) as [di|e]; cbn [bind]; [|reflexivity].
    destruct (get di "dateval" (VList [])) as [dv|e]; cbn [bind]; reflexivity.
Qed.

Lemma fetch_birth_then_any self event_handle d :
  _fetch_event_date self event_handle true = Some d ->
  _fetch_event_date self event_handle false = Some d.
Proof.
  destruct event_handle as [h|]; [|discriminate]. rewrite !fetch_unfold.
  destruct (String.eqb h EmptyString); [discriminate|].
  destruct (_get self _) as [ev|e]; [|discriminate].
  cbn [negb orb]. destruct (is_birth_typed ev); [trivial | discriminate].
Qed.

(** X4: [_fetch_event_date] never raises: a failed request gives
    [None]; an absent or empty handle gives [None] without a request;
    and asking for a birth event only restricts the answer, a date
    found with [require_birth] is found without it. *)
Theorem fetch_event_date_fail_soft self require_birth :
  (forall h e,
     _get self ("events/" ++ (if contains "/" h then last_segment h else h))
     = Raise e ->
     _fetch_event_date self (Some h) require_birth = None)
  /\ _fetch_event_date self None require_birth = None
  /\ _fetch_event_date self (Some EmptyString) require_birth = None
  /\ (forall event_handle d,
        _fetch_event_date self event_handle true = Some d ->
        _fetch_event_date self event_handle false = Some d).
Proof.
  split; [|split; [|split]].
  - intros h e G. rewrite fetch_unfold, G.
    destruct (String.eqb h EmptyString); reflexivity.
  - reflexivity.
  - reflexivity.
  - apply fetch_birth_then_any.
Qed.

Lemma fetch_event_date_fail_soft_witness :
  _fetch_event_date (api_on family (mkdate 2024 7 1)) (Some "E0009") false = None
  /\ _fetch_event_date (api_on family (mkdate 2024 7 1)) (Some "/api/events/E0001/") false
     = Some (mkdate 1990 7 10).
Proof.
  split.
  - apply (proj1 (fetch_event_date_fail_soft
                    (api_on family (mkdate 2024 7 1)) false)
             "E0009" RequestException).
    reflexivity.
  - apply (proj2 (proj2 (proj2 (fetch_event_date_fail_soft
                                  (api_on family (mkdate 2024 7 1)) false)))).
    reflexivity.
Defined.

Lemma extract_as_search self person :
  _extract_birth_date self person
  = try_except (search self true person) (fun _ => None).
Proof.
  unfold _extract_birth_date, search, search_step.
  destruct (get person "birth_ref_index" (VInt (-1))) as [i|e]; cbn [bind];
    [|reflexivity].
  destruct (get person "event_ref_list" (VList [])) as [l|e]; cbn [bind];
    [|reflexivity].
  destruct (index_in_range i l) as [[|]|e]; cbn [bind]; try reflexivity.
  destruct (getitem l i) as [x|e]; cbn [bind]; [|reflexivity].
  destruct (_resolve_event_handle x) as [eh|e]; cbn [bind]; [|reflexivity].
  destruct (handle_truthy eh); reflexivity.
Qed.

Lemma has_scan self refs :
  for_each
    (fun event_ref =>
       event_handle <- _resolve_event_handle event_ref ;;
       if negb (handle_truthy event_handle) then Ok None
       else if is_some (_fetch_event_date self event_handle false)
            then Ok (Some true) else Ok None)
    refs
  = (found <- for_each (search_step self false) refs ;;
     Ok (if is_some found then Some true else None)).
Proof.
  induction refs as [|r rest IH]; cbn [for_each]; [reflexivity|].
  unfold search_step at 1.
  destruct (_resolve_event_handle r) as [eh|e]; cbn [bind]; [|reflexivity].
  destruct (handle_truthy eh); cbn [negb bind]; [|exact IH].
  destruct (_fetch_event_date self eh false); cbn [is_some]; [reflexivity | exact IH].
Qed.

Lemma has_as_search self person :
  _has_birth_date self person
  = try_except (found <- search self false person ;; Ok (is_some found))
      (fun _ => false).
Proof.
  unfold _has_birth_date, search.
  destruct (get person "birth_ref_index" (VInt (-1))) as [i|e]; cbn [bind];
    [|reflexivity].
  destruct (get person "event_ref_list" (VList [])) as [l|e]; cbn [bind];
    [|reflexivity].
  assert (Scan :
    try_except
      (refs <- iter l ;;
       found <-
         for_each
           (fun event_ref =>
              event_handle <- _resolve_event_handle event_ref ;;
              if negb (handle_truthy event_handle) then Ok None
              else if is_some (_fetch_event_date self event_handle false)
                   then Ok (Some true) else Ok None)
           refs ;;
       Ok (match found with Some b => b | None => false end))
      (fun _ => false)
    = try_except
        (found <- (refs <- iter l ;; for_each (search_step self false) refs) ;;
         Ok (is_some found))
        (fun _ => false)).
  { destruct (iter l) as [refs|e]; cbn [bind]; [|reflexivity].
    rewrite has_scan.
    destruct (for_each (search_step self false) refs) as [[d|]|e]; reflexivity. }
  destruct (index_in_range i l) as [[|]|e]; cbn [bind]; try reflexivity.
  - destruct (getitem l i) as [x|e]; cbn [bind]; [|reflexivity].
    unfold search_step at 1.
    destruct (_resolve_event_handle x) as [eh|e]; cbn [bind]; [|reflexivity].
    destruct (handle_truthy eh); cbn [negb bind].
    + destruct (_fetch_event_date self eh false); cbn [is_some]; [reflexivity|].
      exact Scan.
    + exact Scan.
  - exact Scan.
Qed.

(** A date the main loop finds with the birth requirement is found
    without it by the pre-filter, when the pre-filter got every answer
    the main loop gets; a candidate raises in the one where it raises in
    the other. *)
Lemma fetch_across pre main event_handle d :
  answered_alike pre main ->
  _fetch_event_date main event_handle true = Some d ->
  _fetch_event_date pre event_handle false = Some d.
Proof.
  intros S. destruct event_handle as [h|]; [|discriminate]. rewrite !fetch_unfold.
  destruct (String.eqb h EmptyString); [discriminate|].
  destruct (_get main _) as [ev|e] eqn:G; [|discriminate].
  rewrite (S _ _ G). cbn [negb orb].
  destruct (is_birth_typed ev); [trivial | discriminate].
Qed.

Lemma search_step_across pre main event_ref :
  answered_alike pre main ->
  match search_step main true event_ref with
  | Raise e => search_step pre false event_ref = Raise e
  | Ok (Some d) => search_step pre false event_ref = Ok (Some d)
  | Ok None => exists o, search_step pre false event_ref = Ok o
  end.
Proof.
  intros S. unfold search_step.
  destruct (_resolve_event_handle event_ref) as [eh|e]; cbn [bind]; [|reflexivity].
  destruct (handle_truthy eh); cbn [negb]; [|eauto].
  destruct (_fetch_event_date main eh true) as [d|] eqn:F; [|eauto].
  now rewrite (fetch_across _ _ _ _ S F).
Qed.

Lemma for_each_across pre main refs d :
  answered_alike pre main ->
  for_each (search_step main true) refs = Ok (Some d) ->
  exists d', for_each (search_step pre false) refs = Ok (Some d').
Proof.
  intros S. induction refs as [|r rest IH]; cbn [for_each]; [discriminate|].
  pose proof (search_step_across pre main r S) as R.
  destruct (search_step main true r) as [[p|]|e]; cbn [bind]; [| |discriminate].
  - intros _. rewrite R. cbn [bind]. eauto.
  - destruct R as [o ->]. cbn [bind]. intros H.
    destruct o as [p|]; [eauto | now apply IH].
Qed.

Lemma search_across pre main person d :
  answered_alike pre main ->
  search main true person = Ok (Some d) ->
  exists d', search pre false person = Ok (Some d').
Proof.
  intros S. unfold search.
  destruct (get person "birth_ref_index" (VInt (-1))) as [i|e]; cbn [bind];
    [|discriminate].
  destruct (get person "event_ref_list" (VList [])) as [l|e]; cbn [bind];
    [|discriminate].
  assert (Scan :
            (refs <- iter l ;; for_each (search_step main true) refs) = Ok (Some d) ->
            exists d', (refs <- iter l ;; for_each (search_step pre false) refs)
                       = Ok (Some d')).
  { destruct (iter l) as [refs|e]; cbn [bind];
      [now apply for_each_across | discriminate]. }
  destruct (index_in_range i l) as [[|]|e]; cbn [bind]; [| exact Scan | discriminate].
  destruct (getitem l i) as [x|e]; cbn [bind]; [|discriminate].
  pose proof (search_step_across pre main x S) as R.
  destruct (search_step main true x) as [[p|]|e]; cbn [bind]; [| |discriminate].
  - intros _. rewrite R. cbn [bind]. eauto.
  - destruct R as [o ->]. cbn [bind]. destruct o as [p|]; [eauto | exact Scan].
Qed.

Lemma serve_family_later endpoint body :
  serve family_later endpoint = Ok body -> serve family endpoint = Ok body.
Proof.
  unfold family, family_later. cbn [serve].
  destruct (String.eqb "people/" endpoint); [trivial|].
  destruct (String.eqb "events/E0001" endpoint); [trivial|].
  discriminate.
Qed.

(** X5: the pre-filter is looser than the extraction.  The two run at
    different times and send their own requests; with [pre] the service
    as the pre-filter sees it and [main] the service as the main loop
    sees it, a person whose birth date [_extract_birth_date] finds in
    the main loop passed [_has_birth_date], provided every request
    answered in the main loop was answered with the same body in the
    pre-filter. *)
Theorem extracted_person_passes_filter pre main person d :
  answered_alike pre main ->
  _extract_birth_date main person = Some d ->
  _has_birth_date pre person = true.
Proof.
  intros S. rewrite extract_as_search, has_as_search. intros H.
  apply try_except_some in H. destruct (search_across _ _ _ _ S H) as [d' ->].
  reflexivity.
Qed.

Lemma extracted_person_passes_filter_witness :
  _has_birth_date (api_on family (mkdate 2024 6 30))
    (person_record "Bob" "Lee" ["E0002"; "E0001"] 0 (-1)) = true.
Proof.
  apply (extracted_person_passes_filter
           (api_on family (mkdate 2024 6 30))
           (api_on family_later (mkdate 2024 7 1))
           (person_record "Bob" "Lee" ["E0002"; "E0001"] 0 (-1))
           (mkdate 1990 7 10)).
  - intros endpoint body. apply serve_family_later.
  - reflexivity.
Defined.

Lemma birthday_needs_filter_across pre main person r :
  answered_alike pre main ->
  birthday_of main person = Some r -> _has_birth_date pre person = true.
Proof.
  intros S B. destruct (birthday_of_some _ _ _ B) as (birth & E & _).
  rewrite extract_as_search in E. rewrite has_as_search.
  apply try_except_some in E. destruct (search_across _ _ _ _ S E) as [d' ->].
  reflexivity.
Qed.

(** X6: the pre-filter of [get_birthdays] drops only people for whom
    the main loop would append nothing, provided every request answered
    in the main loop ([main]) was answered with the same body in the
    pre-filter ([pre]): collecting from the filtered list then gives the
    same records, in the same order, as collecting from the whole
    list. *)
Theorem prefilter_loses_nothing pre main persons :
  answered_alike pre main ->
  collect_birthdays main (filter (_has_birth_date pre) persons)
  = collect_birthdays main persons.
Proof.
  intros S. induction persons as [|p rest IH]; [reflexivity|]. cbn [filter].
  destruct (_has_birth_date pre p) eqn:H; cbn [collect_birthdays].
  - now rewrite IH.
  - destruct (birthday_of main p) as [r|] eqn:B; [|exact IH].
    rewrite (birthday_needs_filter_across _ _ _ _ S B) in H. discriminate.
Qed.

Lemma prefilter_loses_nothing_witness :
  collect_birthdays (api_on family_later (mkdate 2024 7 1))
    (filter (_has_birth_date (api_on family (mkdate 2024 6 30)))
       [person_record "Ann" "Lee" ["E0001"] 0 (-1);
        person_record "Dee" "Lee" ["E0002"] 0 (-1);
        person_record "Eve" "Lee" [] (-1) (-1)])
  = collect_birthdays (api_on family_later (mkdate 2024 7 1))
      [person_record "Ann" "Lee" ["E0001"] 0 (-1);
       person_record "Dee" "Lee" ["E0002"] 0 (-1);
       person_record "Eve" "Lee" [] (-1) (-1)].
Proof.
  apply (prefilter_loses_nothing
           (api_on family (mkdate 2024 6 30))
           (api_on family_later (mkdate 2024 7 1))).
  intros endpoint body. apply serve_family_later.
Defined.

(** Without that proviso the pre-filter does lose people: when the
    requests of the pre-filter fail and those of the main loop succeed,
    a person the main loop would list is dropped. *)
Example prefilter_request_failure :
  collect_birthdays (api_on family (mkdate 2024 7 1))
    (filter (_has_birth_date (api_on [] (mkdate 2024 7 1)))
       [person_record "Ann" "Lee" ["E0001"] 0 (-1)])
  = []
  /\ collect_birthdays (api_on family (mkdate 2024 7 1))
       [person_record "Ann" "Lee" ["E0001"] 0 (-1)]
     = [{| person_name := "Ann Lee";
           birth_date := "1990-07-10";
           next_birthday := "2024-07-10";
           age := 34;
           days_until := 9 |}].
Proof. split; reflexivity. Qed.

Lemma for_each_some {A R} (f : A -> result (option R)) xs d :
  for_each f xs = Ok (Some d) -> exists x, In x xs /\ f x = Ok (Some d).
Proof.
  induction xs as [|x rest IH]; cbn [for_each]; [discriminate|].
  destruct (f x) as [[p|]|e] eqn:F; cbn [bind]; [| |discriminate].
  - intros [= ->]. exists x. split; [now left | exact F].
  - intros H. destruct (IH H) as (y & I & E). exists y. split; [now right | exact E].
Qed.

Lemma search_step_some self require_birth event_ref d :
  search_step self require_birth event_ref = Ok (Some d) ->
  is_dict event_ref = true
  /\ exists h,
       _resolve_event_handle event_ref = Ok (Some h)
       /\ h <> EmptyString
       /\ _fetch_event_date self (Some h) require_birth = Some d.
Proof.
  unfold search_step. destruct (is_dict event_ref) eqn:D.
  - destruct (_resolve_event_handle event_ref) as [[h|]|e]; cbn [bind];
      try discriminate.
    unfold handle_truthy. cbn [truthy].
    destruct (String.eqb_spec h EmptyString) as [->|N]; cbn [negb]; [discriminate|].
    intros [= F]. split; [reflexivity|]. exists h. auto.
  - rewrite (resolve_not_dict _ D). destruct (truthy event_ref); discriminate.
Qed.

Lemma search_sound self require_birth person d :
  search self require_birth person = Ok (Some d) ->
  exists event_ref,
    In event_ref (event_refs_of person)
    /\ search_step self require_birth event_ref = Ok (Some d).
Proof.
  unfold search. destruct person as [ | | | | | entries]; try discriminate.
  cbn [get bind event_refs_of].
  set (index := match lookup "birth_ref_index" entries with
                | Some x => x | None => VInt (-1) end).
  destruct (lookup "event_ref_list" entries) as [l|]; cbn [bind].
  2:{ destruct (index_in_range index (VList [])) as [[|]|e] eqn:V; cbn [bind];
        try discriminate.
      unfold index_in_range in V.
      destruct (as_number index) as [n|]; cbn [bind len] in V; [|discriminate].
      destruct (0 <=? n) eqn:P; [|discriminate].
      injection V as V. apply Z.ltb_lt in V. apply Z.leb_le in P. cbn in V. lia. }
  assert (Scan : (refs <- iter l ;; for_each (search_step self require_birth) refs)
                 = Ok (Some d) ->
                 exists event_ref,
                   In event_ref match l with VList refs => refs | _ => [] end
                   /\ search_step self require_birth event_ref = Ok (Some d)).
  { destruct (iter l) as [xs|e] eqn:I; cbn [bind]; [|discriminate].
    intros F. destruct (for_each_some _ _ _ F) as (x & Ix & Sx).
    destruct (search_step_some _ _ _ _ Sx) as [D _].
    destruct l as [ | b | k | s | refs | dd]; try discriminate I;
      injection I as <-.
    - pose proof (chars_not_dict s) as N. rewrite Forall_forall in N.
      rewrite (N _ Ix) in D. discriminate.
    - eauto.
    - pose proof (keys_not_dict dd) as N. rewrite Forall_forall in N.
      rewrite (N _ Ix) in D. discriminate. }
  destruct (index_in_range index l) as [[|]|e] eqn:V; cbn [bind];
    [| exact Scan | discriminate].
  destruct (getitem l index) as [x|e] eqn:G; cbn [bind]; [|discriminate].
  destruct (search_step self require_birth x) as [[p|]|e] eqn:Sx; cbn [bind];
    [| exact Scan | discriminate].
  intros [= ->]. destruct (search_step_some _ _ _ _ Sx) as [D _].
  destruct (getitem_in_range _ _ _ V G) as [(refs & n & -> & _ & _ & N) | (s & ->)].
  - exists x. split; [eapply nth_error_In; eassumption | exact Sx].
  - cbn [getitem] in G. apply seq_item_in in G.
    pose proof (chars_not_dict s) as F. rewrite Forall_forall in F.
    rewrite (F _ G) in D. discriminate.
Qed.

(** X7: when [_has_birth_date] answers true, one of the person's event
    references resolves to a handle whose event can be fetched and has
    a parseable date. *)
Theorem has_birth_date_sound self person :
  _has_birth_date self person = true ->
  exists event_ref d,
    In event_ref (event_refs_of person) /\ dated_event self event_ref d.
Proof.
  rewrite has_as_search.
  destruct (search self false person) as [[d|]|e] eqn:S; cbn; try discriminate.
  intros _. destruct (search_sound _ _ _ _ S) as (x & I & Sx).
  destruct (search_step_some _ _ _ _ Sx) as (_ & h & R & N & F).
  exists x, d. split; [exact I|]. exists h.
  rewrite fetch_unfold in F.
  replace (String.eqb h EmptyString) with false in F
    by (symmetry; apply String.eqb_neq; exact N).
  rewrite (resolved_handle_clean _ _ R) in F.
  destruct (_get self ("events/" ++ h)) as [ev|e] eqn:G; [|discriminate].
  exists ev. cbn [negb orb] in F. auto.
Qed.

Lemma has_birth_date_sound_witness :
  exists event_ref d,
    In event_ref
      (event_refs_of (person_record "Dee" "Lee" ["E0002"] 0 (-1)))
    /\ dated_event (api_on family (mkdate 2024 7 1)) event_ref d.
Proof.
  apply (has_birth_date_sound (api_on family (mkdate 2024 7 1))
           (person_record "Dee" "Lee" ["E0002"] 0 (-1))).
  reflexivity.
Defined.

(* ================================================================== *)
(** * Further properties of the pipeline *)
(* ================================================================== *)

Lemma diagnostics_raises_at self p persons :
  In p persons ->
  (forall sampled, exists e, diagnostics self [p] sampled = Raise e) ->
  forall sampled, exists e, diagnostics self persons sampled = Raise e.
Proof.
  intros I Bad. induction persons as [|q rest IH]; [contradiction|].
  intros sampled. destruct I as [-> | I].
  - destruct (Bad sampled) as [e E]. revert E. cbn [diagnostics].
    destruct (get p "event_ref_list" (VList [])) as [refs|e1]; cbn [bind];
      [|eauto].
    destruct (if (truthy (if truthy refs then refs else VList []) && negb sampled)%bool
              then first <- getitem (if truthy refs then refs else VList []) (VInt 0) ;;
                   handle <- _resolve_event_handle first ;;
                   Ok (handle_truthy handle)
              else Ok sampled) as [s'|e2]; cbn [bind]; [|eauto].
    destruct (get p "birth_ref_index" (VInt (-1))) as [bri|e3]; cbn [bind];
      [|eauto].
    destruct (index_in_range bri (if truthy refs then refs else VList []))
      as [v|e4]; cbn [bind]; [discriminate | eauto].
  - cbn [diagnostics].
    destruct (get q "event_ref_list" (VList [])) as [refs|e1]; cbn [bind];
      [|eauto].
    destruct (if (truthy (if truthy refs then refs else VList []) && negb sampled)%bool
              then first <- getitem (if truthy refs then refs else VList []) (VInt 0) ;;
                   handle <- _resolve_event_handle first ;;
                   Ok (handle_truthy handle)
              else Ok sampled) as [s'|e2]; cbn [bind]; [|eauto].
    destruct (get q "birth_ref_index" (VInt (-1))) as [bri|e3]; cbn [bind];
      [|eauto].
    destruct (index_in_range bri (if truthy refs then refs else VList []))
      as [v|e4]; cbn [bind]; [|eauto].
    now apply IH.
Qed.

Lemma get_birthdays_diagnostics_raise self limit all_people persons e :
  get_people self = Ok all_people ->
  iter all_people = Ok persons ->
  diagnostics self persons false = Raise e ->
  get_birthdays self limit = [].
Proof.
  intros P I D. unfold get_birthdays. rewrite P.
  destruct (truthy all_people); cbn [negb]; [|reflexivity].
  rewrite I. cbn [bind]. rewrite D. reflexivity.
Qed.

(** X8: one malformed entry in the list of people empties the whole
    result: when an entry is not a record, or is a record whose
    [birth_ref_index] is present but is not a number (for instance
    [None]), the diagnostics loop raises and [get_birthdays] returns the
    empty list, whoever else is in the list. *)
Theorem malformed_person_empties_result self limit all_people persons :
  get_people self = Ok all_people ->
  iter all_people = Ok persons ->
  (forall p, In p persons -> is_dict p = false ->
     get_birthdays self limit = [])
  /\ (forall entries v e,
        In (VDict entries) persons ->
        lookup "birth_ref_index" entries = Some v ->
        as_number v = Raise e ->
        get_birthdays self limit = []).
Proof.
  intros P I. split.
  - intros p Ip D.
    destruct (diagnostics_raises_at self p persons Ip) with (sampled := false)
      as [e E].
    + intros s. destruct p; try discriminate D; cbn; eauto.
    + eapply get_birthdays_diagnostics_raise; eassumption.
  - intros entries v e Ip L A.
    destruct (diagnostics_raises_at self (VDict entries) persons Ip)
      with (sampled := false) as [e' E].
    + intros s. cbn [diagnostics get bind]. rewrite L.
      set (refs := if truthy _ then _ else VList []).
      destruct (if (truthy refs && negb s)%bool
                then first <- getitem refs (VInt 0) ;;
                     handle <- _resolve_event_handle first ;;
                     Ok (handle_truthy handle)
                else Ok s) as [s'|e2]; cbn [bind]; [|eauto].
      unfold index_in_range. rewrite A. cbn [bind]. eauto.
    + eapply get_birthdays_diagnostics_raise; eassumption.
Qed.

Lemma malformed_person_empties_result_witness :
  get_birthdays (api_on damaged_family (mkdate 2024 7 1)) 50 = [].
Proof.
  apply (proj2 (malformed_person_empties_result
                  (api_on damaged_family (mkdate 2024 7 1)) 50
                  (VList [person_record "Ann" "Lee" ["E0001"] 0 (-1);
                          VDict [("birth_ref_index", VNone)]])
                  [person_record "Ann" "Lee" ["E0001"] 0 (-1);
                   VDict [("birth_ref_index", VNone)]]
                  eq_refl eq_refl)
           [("birth_ref_index", VNone)] VNone TypeError).
  - right. left. reflexivity.
  - reflexivity.
  - reflexivity.
Defined.

Lemma calculate_person_name self birth name r :
  _calculate_next_birthday self birth name = Some r -> person_name r = name.
Proof.
  rewrite calculate_unfold.
  destruct (replace_year birth (year (today self))) as [this|e]; [|discriminate].
  destruct (if Datetime.lt this (today self)
            then replace_year birth (year (today self) + 1) else Ok this)
    as [next|e]; [|discriminate].
  intros [= <-]. reflexivity.
Qed.

Lemma in_get_birthdays self limit r :
  In r (get_birthdays self limit) ->
  exists person, birthday_of self person = Some r.
Proof.
  intros H.
  destruct (get_birthdays_cases self limit)
    as [E | (all_people & persons & P & I & E)]; rewrite E in H; [contradiction|].
  apply slice_to_in in H.
  apply (Permutation_in _ (Permutation_sym (sort_by_days_until_perm _))) in H.
  apply collect_birthdays_in in H. destruct H as (person & _ & B). eauto.
Qed.

(** X9: with a surname filter configured, every record
    [get_birthdays] returns carries a name that contains the filter, the
    comparison ignoring the case of the letters A to Z; this is the
    comparison the source makes when the filter and the name are ASCII
    text. *)
Theorem surname_filter_applies self limit r :
  surname_filter self <> EmptyString ->
  isascii (surname_filter self) = true ->
  isascii (person_name r) = true ->
  In r (get_birthdays self limit) ->
  contains (lower (surname_filter self)) (lower (person_name r)) = true.
Proof.
  intros N _ _ H. destruct (in_get_birthdays _ _ _ H) as (person & B).
  unfold birthday_of in B. cbn [truthy] in B.
  replace (String.eqb (surname_filter self) EmptyString) with false in B
    by (symmetry; apply String.eqb_neq; exact N).
  cbn [negb andb] in B.
  destruct (contains (lower (surname_filter self))
              (lower (_get_person_name self person))) eqn:C;
    cbn [negb] in B; [|discriminate].
  destruct (_extract_birth_date self person) as [birth|]; [|discriminate].
  destruct (_is_person_alive self person); [|discriminate].
  now rewrite (calculate_person_name _ _ _ _ B).
Qed.

Lemma surname_filter_applies_witness :
  contains "lee" (lower "Ann Lee") = true.
Proof.
  apply (surname_filter_applies
           (GrampsInit.new_api " Lee " (serve family) (mkdate 2024 7 1)) 1
           {| person_name := "Ann Lee";
              birth_date := "1990-07-10";
              next_birthday := "2024-07-10";
              age := 34;
              days_until := 9 |}).
  - discriminate.
  - reflexivity.
  - reflexivity.
  - left. reflexivity.
Defined.

Lemma toordinal_next_year y m d :
  toordinal (mkdate (y + 1) m d) - toordinal (mkdate y m d) <= 366.
Proof.
  unfold toordinal, days_before_month. cbn [year month day].
  rewrite days_before_year_succ.
  destruct (is_leap y) eqn:L.
  - rewrite (leap_year_next _ L). destruct (2 <? m); cbn [andb]; lia.
  - destruct (2 <? m), (is_leap (y + 1)); cbn [andb]; lia.
Qed.

(** Whatever record the calculator returns, the birthday is at most a
    year away. *)
Lemma calculate_bounds self birth name r :
  valid birth -> valid (today self) ->
  _calculate_next_birthday self birth name = Some r ->
  0 <= days_until r <= 365
  /\ year (today self) - year birth <= age r <= year (today self) - year birth + 1.
Proof.
  intros Vb Vt. rewrite calculate_unfold. unfold replace_year.
  destruct (valid_inv _ Vt) as (Yt & Mt & Dt).
  set (cy := year (today self)) in *.
  destruct (Datetime.make cy (month birth) (day birth)) as [this|e] eqn:R0;
    [|discriminate].
  destruct (make_inv _ _ _ _ R0) as (-> & Y0 & M0 & D0).
  assert (V0 : valid (mkdate cy (month birth) (day birth))) by exact R0.
  assert (Et : today self = mkdate cy (month (today self)) (day (today self)))
    by (subst cy; destruct (today self); reflexivity).
  destruct (Datetime.lt (mkdate cy (month birth) (day birth)) (today self)) eqn:L.
  - destruct (Datetime.make (cy + 1) (month birth) (day birth)) as [next|e] eqn:R1;
      [|discriminate].
    destruct (make_inv _ _ _ _ R1) as (-> & Y1 & M1 & D1).
    assert (V1 : valid (mkdate (cy + 1) (month birth) (day birth))) by exact R1.
    intros [= <-]. cbn [days_until age year]. unfold sub_days.
    pose proof (toordinal_lt _ _ V0 Vt L) as O1.
    pose proof (toordinal_next_year cy (month birth) (day birth)) as O2.
    assert (L' : Datetime.lt (today self)
                   (mkdate (cy + 1) (month birth) (day birth)) = true).
    { unfold Datetime.lt. cbn. fold cy.
      replace (cy <? cy + 1) with true by (symmetry; apply Z.ltb_lt; lia).
      reflexivity. }
    pose proof (toordinal_lt _ _ Vt V1 L') as O3.
    lia.
  - intros [= <-]. cbn [days_until age year]. unfold sub_days.
    pose proof (toordinal_le _ _ V0 Vt L) as O1.
    pose proof (day_of_year_bounds cy _ _ M0 D0) as B0.
    pose proof (day_of_year_bounds cy _ _ Mt Dt) as B1.
    unfold toordinal in *. cbn [year month day] in *. fold cy in O1 |- *.
    destruct (is_leap cy); lia.
Qed.

(** X10: for valid dates, a record the calculator returns describes an
    occurrence of the birthday: a valid date with the month and day of
    the birth date, in the current year or the next, not before today;
    [days_until] is the distance to it, between 0 and 365, and [age] is
    the difference of its year and the birth year. *)
Theorem calculate_next_birthday_within_a_year self birth name r :
  valid birth -> valid (today self) ->
  _calculate_next_birthday self birth name = Some r ->
  exists next,
    valid next
    /\ month next = month birth /\ day next = day birth
    /\ (year next = year (today self) \/ year next = year (today self) + 1)
    /\ Datetime.lt next (today self) = false
    /\ next_birthday r = isoformat next
    /\ days_until r = toordinal next - toordinal (today self)
    /\ 0 <= days_until r <= 365
    /\ age r = year next - year birth.
Proof.
  intros Vb Vt C.
  destruct (calculate_bounds _ _ _ _ Vb Vt C) as [B _].
  revert C. rewrite calculate_unfold. unfold replace_year.
  destruct (Datetime.make (year (today self)) (month birth) (day birth))
    as [this|e] eqn:R0; [|discriminate].
  destruct (make_inv _ _ _ _ R0) as (-> & _).
  destruct (Datetime.lt (mkdate (year (today self)) (month birth) (day birth))
              (today self)) eqn:L.
  - destruct (Datetime.make (year (today self) + 1) (month birth) (day birth))
      as [next|e] eqn:R1; [|discriminate].
    destruct (make_inv _ _ _ _ R1) as (-> & _).
    intros [= <-]. cbn [days_until] in B.
    exists (mkdate (year (today self) + 1) (month birth) (day birth)).
    split; [exact R1|]. do 2 (split; [reflexivity|]).
    split; [right; reflexivity|]. split.
    + unfold Datetime.lt. cbn [year month day].
      replace (year (today self) + 1 <? year (today self)) with false
        by (symmetry; apply Z.ltb_ge; lia).
      replace (year (today self) + 1 =? year (today self)) with false
        by (symmetry; apply Z.eqb_neq; lia).
      reflexivity.
    + split; [reflexivity|]. split; [reflexivity|]. split; [exact B | reflexivity].
  - intros [= <-]. cbn [days_until] in B.
    exists (mkdate (year (today self)) (month birth) (day birth)).
    split; [exact R0|]. do 2 (split; [reflexivity|]).
    split; [left; reflexivity|]. split; [exact L|].
    split; [reflexivity|]. split; [reflexivity|]. split; [exact B | reflexivity].
Qed.

Lemma calculate_next_birthday_within_a_year_witness :
  exists next,
    valid next
    /\ month next = 7 /\ day next = 10
    /\ (year next = 2024 \/ year next = 2024 + 1)
    /\ Datetime.lt next (mkdate 2024 7 1) = false
    /\ "2024-07-10" = isoformat next
    /\ 9 = toordinal next - toordinal (mkdate 2024 7 1)
    /\ 0 <= 9 <= 365
    /\ 34 = year next - 1990.
Proof.
  apply (calculate_next_birthday_within_a_year
           (api_on [] (mkdate 2024 7 1)) (mkdate 1990 7 10) "Ann Lee"
           {| person_name := "Ann Lee";
              birth_date := "1990-07-10";
              next_birthday := "2024-07-10";
              age := 34;
              days_until := 9 |});
    reflexivity.
Defined.

Lemma extract_valid self person birth :
  _extract_birth_date self person = Some birth -> valid birth.
Proof.
  intros E. apply extract_sound in E.
  destruct (first_birth_date_in _ _ _ E) as (x & _ & B).
  apply birth_date_of_reference_iff in B.
  destruct B as (h & ev & label & _ & _ & _ & _ & _ & D).
  unfold date_of_event in D.
  destruct (get ev "date" (VDict [])) as [di|]; [|discriminate].
  destruct (get di "dateval" (VList [])) as [dv|]; [|discriminate].
  exact (parse_dateval_valid _ _ D).
Qed.

(** X11: on a valid calendar day, every record [get_birthdays] returns
    has [days_until] between 0 and 365: nothing in the list lies in the
    past or more than a year ahead. *)
Theorem get_birthdays_within_a_year self limit r :
  valid (today self) ->
  In r (get_birthdays self limit) ->
  0 <= days_until r <= 365.
Proof.
  intros Vt H. destruct (in_get_birthdays _ _ _ H) as (person & B).
  destruct (birthday_of_some _ _ _ B) as (birth & E & _ & C).
  now destruct (calculate_bounds _ _ _ _ (extract_valid _ _ _ E) Vt C).
Qed.

Lemma get_birthdays_within_a_year_witness : 0 <= 9 <= 365.
Proof.
  apply (get_birthdays_within_a_year (api_on family (mkdate 2024 7 1)) 50
           {| person_name := "Ann Lee";
              birth_date := "1990-07-10";
              next_birthday := "2024-07-10";
              age := 34;
              days_until := 9 |}).
  - reflexivity.
  - left. reflexivity.
Defined.

Lemma collect_birthdays_length self persons :
  (List.length (collect_birthdays self persons) <= List.length persons)%nat.
Proof.
  induction persons as [|p rest IH]; cbn; [lia|].
  destruct (birthday_of self p); cbn; lia.
Qed.

(** X12: [get_birthdays] returns at most one record per person of the
    fetched list. *)
Theorem get_birthdays_at_most_one_per_person self limit all_people persons :
  get_people self = Ok all_people ->
  iter all_people = Ok persons ->
  (List.length (get_birthdays self limit) <= List.length persons)%nat.
Proof.
  intros P I.
  destruct (get_birthdays_cases self limit)
    as [-> | (all_people' & persons' & P' & I' & ->)]; [cbn; lia|].
  rewrite P in P'. injection P' as <-. rewrite I in I'. injection I' as <-.
  unfold slice_to. rewrite length_firstn.
  rewrite <- (Permutation_length (sort_by_days_until_perm _)).
  pose proof (collect_birthdays_length self (filter (_has_birth_date self) persons)).
  pose proof (filter_length_le (_has_birth_date self) persons).
  lia.
Qed.

Lemma get_birthdays_at_most_one_per_person_witness :
  (List.length (get_birthdays (api_on family (mkdate 2024 7 1)) 50) <= 3)%nat.
Proof.
  apply (get_birthdays_at_most_one_per_person
           (api_on family (mkdate 2024 7 1)) 50
           (VList [person_record "Ann" "Lee" ["E0001"] 0 (-1);
                   person_record "Bob" "Lee" ["E0002"; "E0001"] 0 (-1);
                   person_record "Cy" "Lee" ["E0001"; "E0002"] 0 3])
           [person_record "Ann" "Lee" ["E0001"] 0 (-1);
            person_record "Bob" "Lee" ["E0002"; "E0001"] 0 (-1);
            person_record "Cy" "Lee" ["E0001"; "E0002"] 0 3]);
    reflexivity.
Defined.

Lemma get_birthdays_as_slice self :
  exists everything, forall limit, get_birthdays self limit = slice_to everything limit.
Proof.
  unfold get_birthdays.
  assert (Z0 : forall limit, @nil BirthdayResult = slice_to [] limit).
  { intros limit. unfold slice_to. now rewrite firstn_nil. }
  destruct (get_people self) as [all_people|e]; [|exists []; exact Z0].
  destruct (truthy all_people); cbn [negb]; [|exists []; exact Z0].
  destruct (iter all_people) as [persons|e]; cbn [bind try_except];
    [|exists []; exact Z0].
  destruct (diagnostics self persons false) as [[]|e]; cbn [bind];
    [|exists []; exact Z0].
  destruct (filter (_has_birth_date self) persons) as [|sample rest];
    [exists []; exact Z0|].
  destruct (log_sample sample) as [[]|e]; cbn [bind]; [|exists []; exact Z0].
  destruct (log_named_person self (sample :: rest)) as [o|e]; cbn [bind];
    [|exists []; exact Z0].
  eexists. intros limit. reflexivity.
Qed.

(** X13: limits that are not negative nest: the list returned for a
    smaller limit is the beginning of the list returned for a larger
    one, and the limit 0 gives the empty list. *)
Theorem get_birthdays_limits_nest self small large :
  0 <= small <= large ->
  get_birthdays self small = slice_to (get_birthdays self large) small
  /\ get_birthdays self 0 = [].
Proof.
  intros H. destruct (get_birthdays_as_slice self) as [everything E].
  rewrite !E. unfold slice_to.
  replace (small <? 0) with false by (symmetry; apply Z.ltb_ge; lia).
  replace (large <? 0) with false by (symmetry; apply Z.ltb_ge; lia).
  split; [|reflexivity].
  rewrite firstn_firstn. f_equal. lia.
Qed.

Lemma get_birthdays_limits_nest_witness :
  get_birthdays (api_on family (mkdate 2024 7 1)) 1
  = slice_to (get_birthdays (api_on family (mkdate 2024 7 1)) 50) 1.
Proof.
  apply (get_birthdays_limits_nest (api_on family (mkdate 2024 7 1)) 1 50).
  lia.
Defined.

(* ================================================================== *)
(** * Trimming, names and the surname filter *)
(* ================================================================== *)

Lemma rstrip_by_fixed p s :
  (forall q c, s = q ++ String c EmptyString -> p c = false) ->
  rstrip_by p s = s.
Proof.
  induction s as [|a t IH]; intros H; cbn [rstrip_by]; [reflexivity|].
  rewrite IH.
  - destruct t as [|b t']; [|reflexivity].
    now rewrite (H EmptyString a eq_refl).
  - intros q c E. apply (H (String a q) c). cbn. now rewrite E.
Qed.

Lemma lstrip_by_suffix p s : exists pre, s = pre ++ lstrip_by p s.
Proof.
  induction s as [|a t (pre & E)]; cbn [lstrip_by].
  - now exists EmptyString.
  - destruct (p a).
    + exists (String a pre). cbn. now rewrite <- E.
    + now exists EmptyString.
Qed.

Lemma lstrip_by_fixed p s : lstrip_by p (lstrip_by p s) = lstrip_by p s.
Proof.
  induction s as [|a t IH]; cbn [lstrip_by]; [reflexivity|].
  destruct (p a) eqn:E; [exact IH|]. cbn [lstrip_by]. now rewrite E.
Qed.

Lemma strip_idempotent s : strip (strip s) = strip s.
Proof.
  unfold strip.
  destruct (rstrip_by_spec is_space s) as (tr & _ & _ & B).
  destruct (lstrip_by_suffix is_space (rstrip_by is_space s)) as (pre & E).
  rewrite (rstrip_by_fixed is_space (lstrip_by is_space (rstrip_by is_space s))).
  - apply lstrip_by_fixed.
  - intros q c H. apply (B (pre ++ q) c).
    rewrite E at 1. rewrite H. now rewrite append_assoc.
Qed.

Lemma rstrip_by_all p s :
  (forall c, In c (list_ascii_of_string s) -> p c = true) ->
  rstrip_by p s = EmptyString.
Proof.
  induction s as [|a t IH]; intros H; cbn [rstrip_by]; [reflexivity|].
  rewrite IH by (intros c I; apply H; now right).
  now rewrite (H a (or_introl eq_refl)).
Qed.

(** X14: the display name is never empty and has no white space at
    either end; a person that is not a record, or a record without a
    usable name, is called "Unknown". *)
Theorem person_name_never_empty self person :
  _get_person_name self person <> EmptyString
  /\ strip (_get_person_name self person) = _get_person_name self person
  /\ (is_dict person = false -> _get_person_name self person = "Unknown")
  /\ (forall entries,
        person = VDict entries -> lookup "primary_name" entries = None ->
        _get_person_name self person = "Unknown").
Proof.
  assert (U : "Unknown" <> EmptyString /\ strip "Unknown" = "Unknown")
    by (split; [discriminate | reflexivity]).
  assert (F : forall full,
            (if truthy (VStr (strip full)) then strip full else "Unknown")
            <> EmptyString
            /\ strip (if truthy (VStr (strip full)) then strip full else "Unknown")
               = (if truthy (VStr (strip full)) then strip full else "Unknown")).
  { intros full. cbn [truthy].
    destruct (String.eqb_spec (strip full) EmptyString) as [E|N]; cbn [negb].
    - exact U.
    - split; [exact N | apply strip_idempotent]. }
  assert (G : _get_person_name self person <> EmptyString
              /\ strip (_get_person_name self person)
                 = _get_person_name self person).
  { unfold _get_person_name.
    destruct (get person "primary_name" (VDict [])) as [pn|e]; cbn [bind try_except];
      [|exact U].
    destruct (get pn "first_name" (VStr EmptyString)) as [fn|e]; cbn [bind];
      [|exact U].
    destruct (get pn "surname_list" (VList [])) as [sl|e]; cbn [bind];
      [|exact U].
    destruct (truthy sl).
    - destruct (getitem sl (VInt 0)) as [first|e]; cbn [bind]; [|exact U].
      destruct (get first "surname" (VStr EmptyString)) as [sn|e]; cbn [bind];
        [apply F | exact U].
    - cbn [bind]. apply F. }
  destruct G as [G1 G2]. split; [exact G1|]. split; [exact G2|]. split.
  - intros D. destruct person; try discriminate D; reflexivity.
  - intros entries -> L. unfold _get_person_name. cbn [get bind]. rewrite L.
    reflexivity.
Qed.

Lemma person_name_never_empty_witness :
  _get_person_name (api_on [] (mkdate 2024 7 1)) (VList []) = "Unknown"
  /\ _get_person_name (api_on [] (mkdate 2024 7 1))
       (VDict [("handle", VStr "I0001")]) = "Unknown".
Proof.
  split.
  - apply (person_name_never_empty (api_on [] (mkdate 2024 7 1)) (VList [])).
    reflexivity.
  - apply (proj2 (proj2 (proj2
             (person_name_never_empty (api_on [] (mkdate 2024 7 1))
                (VDict [("handle", VStr "I0001")]))))
             [("handle", VStr "I0001")]);
      reflexivity.
Defined.

(** X15: the constructor trims the surname filter; trimming twice
    changes nothing; and a filter made of white space only becomes the
    empty filter, so the client it builds is the one built without a
    filter. *)
Theorem init_surname_filter_trims surname_filter service day :
  strip (GrampsInit.init_surname_filter surname_filter)
  = GrampsInit.init_surname_filter surname_filter
  /\ GrampsInit.init_surname_filter (GrampsInit.init_surname_filter surname_filter)
     = GrampsInit.init_surname_filter surname_filter
  /\ ((forall c, In c (list_ascii_of_string surname_filter) -> is_space c = true) ->
      GrampsInit.new_api surname_filter service day
      = GrampsInit.new_api EmptyString service day).
Proof.
  unfold GrampsInit.new_api, GrampsInit.init_surname_filter. cbn [truthy].
  split; [|split].
  - destruct (String.eqb surname_filter EmptyString); cbn [negb];
      [reflexivity | apply strip_idempotent].
  - destruct (String.eqb_spec surname_filter EmptyString) as [E|N]; cbn [negb];
      [reflexivity|].
    destruct (String.eqb (strip surname_filter) EmptyString) eqn:E2; cbn [negb].
    + apply String.eqb_eq in E2. now rewrite E2.
    + apply strip_idempotent.
  - intros A.
    assert (S0 : strip surname_filter = EmptyString).
    { unfold strip. now rewrite (rstrip_by_all _ _ A). }
    rewrite S0. destruct (String.eqb surname_filter EmptyString); reflexivity.
Qed.

Lemma init_surname_filter_trims_witness :
  GrampsInit.new_api "  " (serve family) (mkdate 2024 7 1)
  = GrampsInit.new_api EmptyString (serve family) (mkdate 2024 7 1).
Proof.
  apply (init_surname_filter_trims "  " (serve family) (mkdate 2024 7 1)).
  intros c [<- | [<- | []]]; reflexivity.
Defined.

(* ================================================================== *)
(** * The text date parser *)
(* ================================================================== *)

(** The year of every valid date prints as four digits that read back
    as the year (checked on each of the 9999 years). *)
Lemma year_prints_back :
  forallb
    (fun n =>
       match Strptime.year_field (zero_pad 4 (Z.of_nat n)) with
       | Some (y, rest) => ((y =? Z.of_nat n) && String.eqb rest EmptyString)%bool
       | None => false
       end)
    (seq 1 (Z.to_nat 9999)) = true.
Proof. vm_compute. reflexivity. Qed.

(** Month and day print as two digits each and read back (checked on
    each of the 12 x 31 pairs). *)
Lemma month_day_print_back :
  forallb
    (fun m =>
       forallb
         (fun d =>
            let text := "-" ++ zero_pad 2 (Z.of_nat m) ++ "-" ++ zero_pad 2 (Z.of_nat d) in
            (Nat.eqb (String.length text) 6
             && match Strptime.match_month_day text with
                | Some (m', d', rest) =>
                    (m' =? Z.of_nat m) && (d' =? Z.of_nat d)
                    && String.eqb rest EmptyString
                | None => false
                end)%bool)
         (seq 1 31))
    (seq 1 12) = true.
Proof. vm_compute. reflexivity. Qed.

Lemma year_field_app s tail y :
  Strptime.year_field s = Some (y, EmptyString) ->
  Strptime.year_field (s ++ tail) = Some (y, tail)
  /\ String.length s = 4%nat
  /\ has_char "-" s = false.
Proof.
  destruct s as [|a [|b [|c [|e rest]]]]; try discriminate. cbn [Strptime.year_field].
  destruct (is_digit a) eqn:Da; [|discriminate].
  destruct (is_digit b) eqn:Db; [|discriminate].
  destruct (is_digit c) eqn:Dc; [|discriminate].
  destruct (is_digit e) eqn:De; [|discriminate].
  cbn [andb]. intros [= <- ->]. cbn [append Strptime.year_field].
  rewrite Da, Db, Dc, De. cbn [andb]. split; [reflexivity|]. split; [reflexivity|].
  assert (N : forall x, is_digit x = true -> Ascii.eqb x "-" = false).
  { intros x D. apply Ascii.eqb_neq. intros ->. discriminate D. }
  rewrite !has_char_cons, (N a Da), (N b Db), (N c Dc), (N e De). reflexivity.
Qed.

Lemma isoformat_parts d :
  valid d ->
  exists ys tail,
    isoformat d = ys ++ tail
    /\ Strptime.year_field ys = Some (year d, EmptyString)
    /\ String.length tail = 6%nat
    /\ Strptime.match_month_day tail = Some (month d, day d, EmptyString)
    /\ exists t, tail = String "-" t.
Proof.
  intros V. destruct (valid_inv _ V) as (Hy & Hm & Hd).
  pose proof (days_in_month_bounds (year d) (month d) Hm) as Hb.
  exists (zero_pad 4 (year d)),
         ("-" ++ zero_pad 2 (month d) ++ "-" ++ zero_pad 2 (day d)).
  split; [reflexivity|].
  pose proof year_prints_back as Y. rewrite forallb_forall in Y.
  specialize (Y (Z.to_nat (year d))). rewrite Z2Nat.id in Y by lia.
  pose proof month_day_print_back as M. rewrite forallb_forall in M.
  specialize (M (Z.to_nat (month d))). rewrite forallb_forall in M.
  specialize (fun H => M H (Z.to_nat (day d))).
  rewrite !Z2Nat.id in M by lia.
  split.
  - destruct (Strptime.year_field (zero_pad 4 (year d))) as [[y rest]|].
    + assert (In (Z.to_nat (year d)) (seq 1 (Z.to_nat 9999))) as I by (apply in_seq; lia).
      specialize (Y I). apply andb_true_iff in Y. destruct Y as [Y1 Y2].
      apply Z.eqb_eq in Y1. apply String.eqb_eq in Y2. now subst.
    + assert (In (Z.to_nat (year d)) (seq 1 (Z.to_nat 9999))) as I by (apply in_seq; lia).
      specialize (Y I). discriminate Y.
  - assert (I1 : In (Z.to_nat (month d)) (seq 1 12)) by (apply in_seq; lia).
    assert (I2 : In (Z.to_nat (day d)) (seq 1 31)) by (apply in_seq; lia).
    specialize (M I1 I2). cbv zeta in M.
    apply andb_true_iff in M. destruct M as [M1 M2].
    apply Nat.eqb_eq in M1. split; [exact M1|]. split; [|eexists; reflexivity].
    destruct (Strptime.match_month_day _) as [[[m' d'] rest]|]; [|discriminate].
    rewrite !andb_true_iff in M2. destruct M2 as [[A B] C].
    apply Z.eqb_eq in A, B. apply String.eqb_eq in C. now subst.
Qed.

Lemma string_length_app (a b : string) :
  String.length (a ++ b) = (String.length a + String.length b)%nat.
Proof. induction a as [|c t IH]; cbn; [reflexivity | now rewrite IH]. Qed.

(** X16: the text parser reads back what [isoformat] writes: for every
    valid date, [_parse_gramps_date] of its ISO text is that date.  A
    text whose length is not 10 is not parsed, and a date that is
    returned is a valid date. *)
Theorem parse_gramps_date_round_trip :
  (forall d, valid d -> _parse_gramps_date (isoformat d) = Some d)
  /\ (forall s, String.length s <> 10%nat -> _parse_gramps_date s = None)
  /\ (forall s d, _parse_gramps_date s = Some d -> valid d).
Proof.
  split; [|split].
  - intros d V.
    destruct (isoformat_parts d V) as (ys & tail & E & Y & L & M & t & T).
    destruct (year_field_app ys tail _ Y) as (Y' & Ly & Hy).
    unfold _parse_gramps_date. rewrite E.
    change (contains "-" (ys ++ tail)) with (has_char "-" (ys ++ tail)).
    rewrite has_char_app, Hy, T, has_char_cons. cbn [Ascii.eqb Bool.eqb orb andb].
    rewrite <- T. rewrite string_length_app, Ly, L. cbn [Nat.add Z.of_nat].
    change (Z.pos (Pos.of_succ_nat 9) =? 10) with true. cbv iota.
    unfold Strptime.strptime_date, Strptime.match_ymd. rewrite Y', M.
    cbn [String.eqb]. rewrite V. reflexivity.
  - intros s N. unfold _parse_gramps_date.
    replace (Z.of_nat (String.length s) =? 10) with false
      by (symmetry; apply Z.eqb_neq; lia).
    now rewrite andb_false_r.
  - intros s d. unfold _parse_gramps_date.
    destruct (contains "-" s && (Z.of_nat (String.length s) =? 10))%bool;
      [|discriminate].
    unfold Strptime.strptime_date.
    destruct (Strptime.match_ymd s) as [[[[y m] dd] rest]|]; [|discriminate].
    destruct (String.eqb rest EmptyString); [|discriminate].
    destruct (Datetime.make y m dd) as [dt|e] eqn:K; [|discriminate].
    cbn [bind try_except]. intros [= <-].
    destruct (make_inv _ _ _ _ K) as (-> & _). exact K.
Qed.

Lemma parse_gramps_date_round_trip_witness :
  _parse_gramps_date (isoformat (mkdate 1990 7 10)) = Some (mkdate 1990 7 10)
  /\ _parse_gramps_date "15 Jan 1990" = None.
Proof.
  split.
  - apply (proj1 parse_gramps_date_round_trip). reflexivity.
  - apply (proj1 (proj2 parse_gramps_date_round_trip)). cbn. lia.
Defined.

(* ================================================================== *)
(** * The sensors *)
(* ================================================================== *)

Lemma days_le_strongly_sorted l : Sorted days_le l -> StronglySorted days_le l.
Proof.
  apply Sorted_StronglySorted. intros a b c. unfold days_le. lia.
Qed.

Lemma strongly_sorted_nth l i j a b :
  StronglySorted days_le l -> (i <= j)%nat ->
  nth_error l i = Some a -> nth_error l j = Some b -> days_le a b.
Proof.
  intros S. revert i j. induction S as [|x l S IH F]; intros i j Hij Ha Hb.
  - destruct i; discriminate.
  - destruct i as [|i], j as [|j]; cbn in Ha, Hb.
    + injection Ha as <-. injection Hb as <-. unfold days_le. lia.
    + injection Ha as <-. rewrite Forall_forall in F. apply F.
      eapply nth_error_In; eassumption.
    + lia.
    + apply (IH i j); [lia | assumption | assumption].
Qed.

Lemma get_birthdays_sorted self limit : Sorted days_le (get_birthdays self limit).
Proof.
  destruct (get_birthdays_cases self limit)
    as [-> | (all_people & persons & _ & _ & ->)]; [constructor|].
  unfold slice_to. apply firstn_sorted, sort_by_days_until_sorted.
Qed.

Lemma entry_nth l index b :
  0 <= index -> Sensor.entry l index = Ok b ->
  nth_error l (Z.to_nat index) = Some b.
Proof.
  intros H. unfold Sensor.entry.
  replace (index <? 0) with false by (symmetry; apply Z.ltb_ge; lia).
  replace (index <? 0) with false by (symmetry; apply Z.ltb_ge; lia).
  destruct (nth_error l (Z.to_nat index)); [now intros [= ->] | discriminate].
Qed.

Lemma attributes_days data index attrs d :
  0 <= index ->
  Sensor.next_birthday_attributes data index = Ok attrs ->
  lookup Sensor.ATTR_DAYS_UNTIL attrs = Some (VInt d) ->
  exists b,
    nth_error (Sensor.birthdays_of data) (Z.to_nat index) = Some b
    /\ days_until b = d.
Proof.
  intros H. unfold Sensor.next_birthday_attributes.
  destruct (Sensor.no_data data); [intros [= <-]; discriminate|].
  destruct (_ <=? index); [intros [= <-]; discriminate|].
  destruct (Sensor.entry (Sensor.birthdays_of data) index) as [b|e] eqn:E;
    cbn [bind]; [|discriminate].
  intros [= <-]. cbn. intros [= <-]. exists b. split; [|reflexivity].
  now apply entry_nth.
Qed.

(** X17: after a refresh the numbered sensors are in order of
    imminence: for sensor indices [i <= j], the [days_until] attribute
    of sensor [i] is at most that of sensor [j]. *)
Theorem sensors_ordered_by_days_until api i j attrs_i attrs_j di dj :
  0 <= i <= j ->
  Sensor.next_birthday_attributes (Sensor._async_update_data api) i = Ok attrs_i ->
  Sensor.next_birthday_attributes (Sensor._async_update_data api) j = Ok attrs_j ->
  lookup Sensor.ATTR_DAYS_UNTIL attrs_i = Some (VInt di) ->
  lookup Sensor.ATTR_DAYS_UNTIL attrs_j = Some (VInt dj) ->
  di <= dj.
Proof.
  intros H Ai Aj Li Lj.
  destruct (attributes_days _ _ _ _ (proj1 H) Ai Li) as (bi & Ni & <-).
  destruct (attributes_days _ _ _ _ (Z.le_trans _ _ _ (proj1 H) (proj2 H)) Aj Lj)
    as (bj & Nj & <-).
  cbn [Sensor._async_update_data Sensor.birthdays_of] in Ni, Nj.
  apply (strongly_sorted_nth _ (Z.to_nat i) (Z.to_nat j) bi bj
           (days_le_strongly_sorted _ (get_birthdays_sorted api default_limit)));
    [lia | assumption | assumption].
Qed.

Lemma sensors_ordered_by_days_until_witness : 9 <= 9.
Proof.
  apply (sensors_ordered_by_days_until (api_on family (mkdate 2024 7 1)) 0 1
           [(Sensor.ATTR_PERSON_NAME, VStr "Ann Lee");
            (Sensor.ATTR_BIRTH_DATE, VStr "1990-07-10");
            (Sensor.ATTR_AGE, VInt 34);
            (Sensor.ATTR_DAYS_UNTIL, VInt 9);
            ("next_birthday", VStr "2024-07-10")]
           [(Sensor.ATTR_PERSON_NAME, VStr "Bob Lee");
            (Sensor.ATTR_BIRTH_DATE, VStr "1990-07-10");
            (Sensor.ATTR_AGE, VInt 34);
            (Sensor.ATTR_DAYS_UNTIL, VInt 9);
            ("next_birthday", VStr "2024-07-10")]);
    try reflexivity.
  lia.
Defined.

(** X18: after a refresh the count sensor shows the number of records,
    between 0 and 50, and lists exactly what [get_birthdays] returned;
    a numbered sensor with index [i >= 0] has no attributes exactly when
    [i] is at least that count, and otherwise shows the fields of the
    record at position [i]. *)
Theorem sensors_follow_the_list api :
  let data := Sensor._async_update_data api in
  let records := get_birthdays api default_limit in
  Sensor.all_birthdays_value data = Z.of_nat (List.length records)
  /\ 0 <= Sensor.all_birthdays_value data <= 50
  /\ Sensor.all_birthdays_attributes data = records
  /\ forall i, 0 <= i ->
       (Sensor.all_birthdays_value data <= i ->
        Sensor.next_birthday_attributes data i = Ok [])
       /\ (i < Sensor.all_birthdays_value data ->
           exists b,
             nth_error records (Z.to_nat i) = Some b
             /\ Sensor.next_birthday_attributes data i
                = Ok [(Sensor.ATTR_PERSON_NAME, VStr (person_name b));
                      (Sensor.ATTR_BIRTH_DATE, VStr (birth_date b));
                      (Sensor.ATTR_AGE, VInt (age b));
                      (Sensor.ATTR_DAYS_UNTIL, VInt (days_until b));
                      ("next_birthday", VStr (next_birthday b))]).
Proof.
  intros data records.
  assert (V : Sensor.all_birthdays_value data = Z.of_nat (List.length records)).
  { unfold Sensor.all_birthdays_value, data. cbn. fold records.
    destruct records; reflexivity. }
  assert (B : Z.of_nat (List.length records) <= 50).
  { unfold records.
    destruct (get_birthdays_as_slice api) as [everything ->].
    apply slice_to_length. unfold default_limit. lia. }
  split; [exact V|]. split; [lia|]. split.
  { unfold Sensor.all_birthdays_attributes, data. cbn. fold records.
    destruct records; reflexivity. }
  intros i Hi. rewrite V.
  unfold Sensor.next_birthday_attributes, data.
  cbn [Sensor._async_update_data Sensor.no_data Sensor.birthdays_of].
  fold records. split.
  - intros L. destruct records as [|r rest]; [reflexivity|].
    replace (Z.of_nat (List.length (r :: rest)) <=? i) with true
      by (symmetry; apply Z.leb_le; exact L).
    reflexivity.
  - intros L. destruct records as [|r rest] eqn:R; [cbn in L; lia|].
    replace (Z.of_nat (List.length (r :: rest)) <=? i) with false
      by (symmetry; apply Z.leb_gt; exact L).
    unfold Sensor.entry.
    replace (i <? 0) with false by (symmetry; apply Z.ltb_ge; lia).
    replace (i <? 0) with false by (symmetry; apply Z.ltb_ge; lia).
    destruct (nth_error (r :: rest) (Z.to_nat i)) as [b|] eqn:N.
    + exists b. split; reflexivity.
    + apply nth_error_None in N. lia.
Qed.

Lemma sensors_follow_the_list_witness :
  Sensor.next_birthday_attributes
    (Sensor._async_update_data (api_on family (mkdate 2024 7 1))) 4 = Ok [].
Proof.
  apply (proj2 (proj2 (proj2 (sensors_follow_the_list
                                (api_on family (mkdate 2024 7 1))))) 4).
  - lia.
  - vm_compute. discriminate.
Defined.

(* ================================================================== *)
(** * The configuration flow *)
(* ================================================================== *)

Lemma rstrip_slashes_empty s :
  rstrip "/" s = EmptyString
  <-> forall c, In c (list_ascii_of_string s) -> c = "/"%char.
Proof.
  unfold rstrip. split.
  - intros E c I.
    destruct (rstrip_by_spec (Ascii.eqb "/") s) as (tr & Es & A & _).
    rewrite E in Es. cbn in Es. subst tr.
    specialize (A c I). apply Ascii.eqb_eq in A. now subst.
  - intros A. apply rstrip_by_all. intros c I. rewrite (A c I).
    apply Ascii.eqb_refl.
Qed.

(** X19: a step of the configuration flow creates the entry exactly
    when the submitted URL is a string that is not empty once its
    trailing slashes are removed, whether or not the service can be
    reached; a missing URL, an empty one or one made of slashes only
    shows the form again with [invalid_url]; a URL that is not a string
    shows it with [unknown]; without input the form is shown without
    errors. *)
Theorem config_flow_accepts_any_nonempty_url connect entries :
  (forall s,
     lookup ConfigFlow.CONF_URL entries = Some (VStr s) ->
     rstrip "/" s <> EmptyString ->
     ConfigFlow.async_step_user connect (Some (VDict entries))
     = ConfigFlow.CreateEntry "Gramps HA" (VDict entries))
  /\ (forall s,
        lookup ConfigFlow.CONF_URL entries = Some (VStr s) ->
        (forall c, In c (list_ascii_of_string s) -> c = "/"%char) ->
        ConfigFlow.async_step_user connect (Some (VDict entries))
        = ConfigFlow.ShowForm [("base", "invalid_url")])
  /\ (lookup ConfigFlow.CONF_URL entries = None ->
      ConfigFlow.async_step_user connect (Some (VDict entries))
      = ConfigFlow.ShowForm [("base", "invalid_url")])
  /\ (forall v,
        lookup ConfigFlow.CONF_URL entries = Some v -> is_str v = false ->
        ConfigFlow.async_step_user connect (Some (VDict entries))
        = ConfigFlow.ShowForm [("base", "unknown")])
  /\ (forall connect' user_input,
        ConfigFlow.async_step_user connect' user_input
        = ConfigFlow.async_step_user connect user_input)
  /\ ConfigFlow.async_step_user connect None = ConfigFlow.ShowForm [].
Proof.
  unfold ConfigFlow.async_step_user, ConfigFlow.validate_input.
  split; [|split; [|split; [|split; [|split]]]].
  - intros s L N. cbn [get bind]. rewrite L. cbn [ConfigFlow.rstrip_of bind truthy].
    replace (String.eqb (rstrip "/" s) EmptyString) with false
      by (symmetry; apply String.eqb_neq; exact N).
    cbn [negb]. destruct (connect _); reflexivity.
  - intros s L A. cbn [get bind]. rewrite L. cbn [ConfigFlow.rstrip_of bind].
    rewrite (proj2 (rstrip_slashes_empty s) A). reflexivity.
  - intros L. cbn [get bind]. rewrite L. reflexivity.
  - intros v L S. cbn [get bind]. rewrite L.
    destruct v; try discriminate S; reflexivity.
  - intros connect' [input|]; [|reflexivity].
    destruct (get input ConfigFlow.CONF_URL (VStr EmptyString)) as [raw|e];
      cbn [bind]; [|reflexivity].
    destruct (ConfigFlow.rstrip_of raw) as [url|e]; cbn [bind]; [|reflexivity].
    destruct (negb (truthy (VStr url))); [reflexivity|].
    destruct (get input ConfigFlow.CONF_USERNAME VNone) as [u|e]; cbn [bind];
      [|reflexivity].
    destruct (get input ConfigFlow.CONF_PASSWORD VNone) as [pw|e]; cbn [bind];
      [|reflexivity].
    destruct (connect' _), (connect _); reflexivity.
  - reflexivity.
Qed.

Lemma config_flow_accepts_any_nonempty_url_witness :
  ConfigFlow.async_step_user (fun _ => Raise RequestException)
    (Some (VDict [("url", VStr "http://gramps.local/")]))
  = ConfigFlow.CreateEntry "Gramps HA" (VDict [("url", VStr "http://gramps.local/")])
  /\ ConfigFlow.async_step_user (fun _ => Raise RequestException)
       (Some (VDict [("url", VStr "//")]))
     = ConfigFlow.ShowForm [("base", "invalid_url")].
Proof.
  split.
  - apply (proj1 (config_flow_accepts_any_nonempty_url
                    (fun _ => Raise RequestException)
                    [("url", VStr "http://gramps.local/")])
             "http://gramps.local/").
    + reflexivity.
    + vm_compute. discriminate.
  - apply (proj1 (proj2 (config_flow_accepts_any_nonempty_url
                           (fun _ => Raise RequestException)
                           [("url", VStr "//")]))
             "//").
    + reflexivity.
    + intros c [<- | [<- | []]]; reflexivity.
Defined.

(* ================================================================== *)
(** * Authentication and requests *)
(* ================================================================== *)

(** X20: without a user name or without a password no token request is
    sent: [_authenticate] reports success and leaves the client as it
    is, and [_get] sends the request with the header the session has. *)
Theorem no_credentials_no_token_request srv c endpoint :
  Transport.given (Transport.username c) = false
  \/ Transport.given (Transport.password c) = false ->
  Transport._authenticate srv c = (true, c)
  /\ Transport._get srv c endpoint
     = (Transport.api_endpoint srv (Transport.authorization c) endpoint, c).
Proof.
  intros H.
  assert (A : Transport._authenticate srv c = (true, c)).
  { unfold Transport._authenticate.
    destruct H as [-> | ->]; cbn [negb orb]; [reflexivity|].
    now rewrite orb_true_r. }
  split; [exact A|]. unfold Transport._get. rewrite A. cbn [snd].
  destruct (negb (truthy (Transport.token c)) && Transport.given (Transport.username c))%bool;
    reflexivity.
Qed.

Lemma no_credentials_no_token_request_witness :
  Transport._authenticate
    {| Transport.token_endpoint := fun _ _ => Raise RequestException;
       Transport.api_endpoint := fun _ _ => Ok (VList []) |}
    (Transport.fresh_client (Some "ann") None)
  = (true, Transport.fresh_client (Some "ann") None).
Proof.
  apply (no_credentials_no_token_request
           {| Transport.token_endpoint := fun _ _ => Raise RequestException;
              Transport.api_endpoint := fun _ _ => Ok (VList []) |}
           (Transport.fresh_client (Some "ann") None) "people/").
  right. reflexivity.
Defined.

(** X21: a token is requested once and then kept: when the token
    request answers with a true [access_token], [_get] stores it, sends
    the request under the header [Bearer <token>], and every later
    [_get] leaves the client unchanged, so no further token request is
    sent, whatever the service answers. *)
Theorem token_requested_once srv c endpoint data t :
  Transport.given (Transport.username c) = true ->
  Transport.given (Transport.password c) = true ->
  truthy (Transport.token c) = false ->
  Transport.token_endpoint srv (Transport.text_of (Transport.username c))
    (Transport.text_of (Transport.password c)) = Ok data ->
  get data "access_token" VNone = Ok t ->
  truthy t = true ->
  let c' := snd (Transport._get srv c endpoint) in
  fst (Transport._get srv c endpoint)
  = Transport.api_endpoint srv (Some ("Bearer " ++ str t)) endpoint
  /\ Transport.token c' = t
  /\ Transport.authorization c' = Some ("Bearer " ++ str t)
  /\ Transport.token_requests c' = S (Transport.token_requests c)
  /\ forall endpoints, Transport.after_requests srv c' endpoints = c'.
Proof.
  intros U P T E G Tt.
  assert (S1 : snd (Transport._get srv c endpoint)
               = Transport.set_authorization
                   (Transport.set_token (Transport.count_request c) t)
                   ("Bearer " ++ str t)).
  { unfold Transport._get, Transport._authenticate.
    rewrite T, U, P. cbn [negb andb orb]. rewrite E, G, Tt. reflexivity. }
  cbv zeta. rewrite S1. split.
  - unfold Transport._get, Transport._authenticate.
    rewrite T, U, P. cbn [negb andb orb]. rewrite E, G, Tt. reflexivity.
  - split; [reflexivity|]. split; [reflexivity|]. split; [reflexivity|].
    intros endpoints. induction endpoints as [|e rest IH]; [reflexivity|].
    cbn [Transport.after_requests].
    replace (snd (Transport._get srv
                    (Transport.set_authorization
                       (Transport.set_token (Transport.count_request c) t)
                       ("Bearer " ++ str t)) e))
      with (Transport.set_authorization
              (Transport.set_token (Transport.count_request c) t)
              ("Bearer " ++ str t)); [exact IH|].
    unfold Transport._get. cbn [Transport.token Transport.set_authorization
                                  Transport.set_token].
    rewrite Tt. reflexivity.
Qed.

Lemma token_requested_once_witness :
  fst (Transport._get
         {| Transport.token_endpoint :=
              fun _ _ => Ok (VDict [("access_token", VStr "abc")]);
            Transport.api_endpoint :=
              fun header _ => Ok (VStr (Transport.text_of header)) |}
         (Transport.fresh_client (Some "ann") (Some "secret")) "people/")
  = Ok (VStr "Bearer abc").
Proof.
  apply (token_requested_once
           {| Transport.token_endpoint :=
                fun _ _ => Ok (VDict [("access_token", VStr "abc")]);
              Transport.api_endpoint :=
                fun header _ => Ok (VStr (Transport.text_of header)) |}
           (Transport.fresh_client (Some "ann") (Some "secret")) "people/"
           (VDict [("access_token", VStr "abc")]) (VStr "abc"));
    reflexivity.
Defined.

(** X22: a failed token request does not stop the request and is tried
    again each time: when the token request raises, [_get] still sends
    the GET, under the header the session had, keeps the token empty,
    and a series of [n] requests sends [n] token requests. *)
Theorem failed_login_is_retried srv c :
  Transport.given (Transport.username c) = true ->
  Transport.given (Transport.password c) = true ->
  truthy (Transport.token c) = false ->
  (exists e,
     Transport.token_endpoint srv (Transport.text_of (Transport.username c))
       (Transport.text_of (Transport.password c)) = Raise e) ->
  (forall endpoint,
     Transport._get srv c endpoint
     = (Transport.api_endpoint srv (Transport.authorization c) endpoint,
        Transport.count_request c))
  /\ forall endpoints,
       Transport.token_requests (Transport.after_requests srv c endpoints)
       = (Transport.token_requests c + List.length endpoints)%nat
       /\ Transport.token (Transport.after_requests srv c endpoints)
          = Transport.token c.
Proof.
  intros U P T [e E].
  assert (G : forall k endpoint,
            Transport._get srv (Nat.iter k Transport.count_request c) endpoint
            = (Transport.api_endpoint srv (Transport.authorization c) endpoint,
               Transport.count_request (Nat.iter k Transport.count_request c))).
  { intros k endpoint.
    assert (I : forall k,
              Transport.username (Nat.iter k Transport.count_request c)
              = Transport.username c
              /\ Transport.password (Nat.iter k Transport.count_request c)
                 = Transport.password c
              /\ Transport.token (Nat.iter k Transport.count_request c)
                 = Transport.token c
              /\ Transport.authorization (Nat.iter k Transport.count_request c)
                 = Transport.authorization c).
    { induction k0 as [|k0 IH]; [auto|]. cbn. exact IH. }
    destruct (I k) as (Iu & Ip & It & Ia).
    unfold Transport._get, Transport._authenticate.
    rewrite It, Iu, Ip, T, U, P. cbn [negb andb orb]. rewrite E. cbn [snd].
    cbn [Transport.authorization Transport.count_request]. now rewrite Ia. }
  split; [exact (G 0%nat)|].
  assert (R : forall endpoints k,
            Transport.after_requests srv (Nat.iter k Transport.count_request c) endpoints
            = Nat.iter (k + List.length endpoints) Transport.count_request c).
  { induction endpoints as [|x rest IH]; intros k; cbn [Transport.after_requests List.length].
    - now rewrite Nat.add_0_r.
    - rewrite G. cbn [snd].
      change (Transport.count_request (Nat.iter k Transport.count_request c))
        with (Nat.iter (S k) Transport.count_request c).
      rewrite IH. f_equal. lia. }
  intros endpoints. pose proof (R endpoints 0%nat) as R0.
  change (Nat.iter 0 Transport.count_request c) with c in R0.
  rewrite R0. cbn [Nat.add].
  generalize (List.length endpoints) as n.
  induction n as [|n [IH1 IH2]]; [cbn; split; [lia | reflexivity]|].
  change (Nat.iter (S n) Transport.count_request c)
    with (Transport.count_request (Nat.iter n Transport.count_request c)).
  split.
  - cbn [Transport.token_requests Transport.count_request]. rewrite IH1. lia.
  - exact IH2.
Qed.

Lemma failed_login_is_retried_witness :
  Transport.token_requests
    (Transport.after_requests
       {| Transport.token_endpoint := fun _ _ => Raise RequestException;
          Transport.api_endpoint := fun _ _ => Ok (VList []) |}
       (Transport.fresh_client (Some "ann") (Some "secret"))
       ["people/"; "events/E0001"; "events/E0002"])
  = (0 + 3)%nat.
Proof.
  apply (proj2 (failed_login_is_retried
                  {| Transport.token_endpoint := fun _ _ => Raise RequestException;
                     Transport.api_endpoint := fun _ _ => Ok (VList []) |}
                  (Transport.fresh_client (Some "ann") (Some "secret"))
                  eq_refl eq_refl eq_refl
                  (ex_intro _ RequestException eq_refl))
           ["people/"; "events/E0001"; "events/E0002"]).
Defined.
